(** * Jan Darpan grievance tracker: classification, scoring, escalation and
    the record store of [app.py], embedded in Rocq.

    Conventions of the embedding.
    - A Python [str] is the list of its code points ([pystr]); literals are
      written [py "..."].
    - A Python [int] is a [Z].
    - What depends on the interpreter's Unicode database, [str.lower] and
      the decimal digits, is a parameter ([Unicode]) with the laws that
      hold in every version of the database; the theorems hold for every
      such parameter.  The examples run the definitions on ASCII inputs,
      where the database does not matter.
    - A statement that can raise returns a [result].
    - The file system is the content of [grievances.json]; writing an
      uploaded file is represented by its outcome.  The interpreter's
      limits on the digits of an integer and on the depth of recursion are
      not modelled. *)

From Stdlib Require Import List ZArith NArith Bool String Ascii Lia.
Import ListNotations.

Local Open Scope Z_scope.

(** ** Python strings *)

Module PyStr.

Definition pystr := list N.

Definition py (s : string) : pystr :=
  map N_of_ascii (list_ascii_of_string s).

Fixpoint eqb (a b : pystr) : bool :=
  match a, b with
  | [], [] => true
  | x :: a', y :: b' => N.eqb x y && eqb a' b'
  | _, _ => false
  end.

(** A character of the ASCII range. *)
Definition is_ascii (c : N) : bool := N.ltb c 128.

(** What [s.lower()] does to a character of the ASCII range. *)
Definition lower_char (c : N) : N :=
  if (N.leb 65 c && N.leb c 90)%bool then (c + 32)%N else c.

(** The value of an ASCII digit. *)
Definition digit (c : N) : option Z :=
  if (N.leb 48 c && N.leb c 57)%bool then Some (Z.of_N c - 48) else None.

(** A Unicode scalar value: a code point that is not a surrogate. *)
Definition scalar_value (c : N) : bool :=
  (N.ltb c 55296 || (N.leb 57344 c && N.ltb c 1114112))%bool.

(** A text: a string of scalar values. *)
Definition text (s : pystr) : bool := forallb scalar_value s.

(** [s.startswith(p)]. *)
Fixpoint startswith (p s : pystr) : bool :=
  match p, s with
  | [], _ => true
  | _ :: _, [] => false
  | a :: p', b :: s' => N.eqb a b && startswith p' s'
  end.

(** [sub in s]: [sub] occurs in [s] as a contiguous run. *)
Fixpoint contains (sub s : pystr) : bool :=
  startswith sub s ||
  match s with
  | [] => false
  | _ :: s' => contains sub s'
  end.

(** The mathematical reading of [sub in s]. *)
Definition substring (sub s : pystr) : Prop :=
  exists pre post, s = pre ++ sub ++ post.

(** No string occurs twice in the list. *)
Fixpoint distinct (keys : list pystr) : bool :=
  match keys with
  | [] => true
  | k :: keys' => negb (existsb (eqb k) keys') && distinct keys'
  end.

(** What the Unicode database of the interpreter decides: [s.lower()], and
    the decimal digits, which [\d] matches and [int] reads, with their
    values.  Both vary with the version of the database.  On ASCII text they
    do not: lowercasing maps A-Z to a-z and nothing else, and the ASCII
    digits have their values; and lowercasing a text gives a text. *)
Class Unicode := {
  lower : pystr -> pystr;
  decimal : N -> option Z;
  lower_ascii :
    forall s, forallb is_ascii s = true -> lower s = map lower_char s;
  lower_text : forall s, text s = true -> text (lower s) = true;
  decimal_ascii : forall c, is_ascii c = true -> decimal c = digit c
}.

(** The database cut down to ASCII: every other character is left as it is
    by [lower] and is no digit.  It serves to run the definitions on ASCII
    inputs. *)
Definition ascii_only : Unicode.
Proof.
  refine {| lower := map lower_char; decimal := digit |}.
  - reflexivity.
  - intros s. unfold text. rewrite !forallb_forall. intros H c Hc.
    apply in_map_iff in Hc as (c0 & <- & Hc0). specialize (H c0 Hc0).
    unfold lower_char.
    destruct (N.leb 65 c0 && N.leb c0 90)%bool eqn:E; [|exact H].
    apply andb_true_iff in E as [_ E]. apply N.leb_le in E.
    unfold scalar_value. apply orb_true_iff. left. apply N.ltb_lt. lia.
  - reflexivity.
Defined.

End PyStr.
Import PyStr.

(** ** Classifier: [categorize_grievance] *)

Definition categories : list (pystr * list pystr) :=
  [ (py "Water Supply", [py "water"; py "supply"; py "tap"]);
    (py "Garbage",      [py "garbage"; py "trash"; py "waste"]);
    (py "Electricity",  [py "electric"; py "light"; py "power"]);
    (py "Road Damage",  [py "road"; py "pothole"; py "crack"]) ].

(** [any(keyword in text.lower() for keyword in keywords)] *)
Definition any_keyword {U : Unicode} (keywords : list pystr) (text : pystr)
  : bool :=
  existsb (fun keyword => contains keyword (lower text)) keywords.

(** The [for category, keywords in categories.items()] loop with its early
    [return category], over the remaining items of the dict. *)
Fixpoint categorize_loop {U : Unicode} (items : list (pystr * list pystr))
  (text : pystr) : pystr :=
  match items with
  | [] => py "Other"
  | (category, keywords) :: rest =>
      if any_keyword keywords text then category
      else categorize_loop rest text
  end.

Definition categorize_grievance {U : Unicode} (text : pystr) : pystr :=
  categorize_loop categories text.

(** Some keyword of [keywords] is a substring of the lowercased text. *)
Definition some_keyword_in {U : Unicode} (keywords : list pystr)
  (text : pystr) : Prop :=
  exists keyword, In keyword keywords /\ substring keyword (lower text).

(** ** Scorer: [grievance_score] *)

Definition urgent_keywords : list pystr :=
  [py "urgent"; py "danger"; py "injury"; py "critical"; py "emergency";
   py "life-threatening"; py "fire"; py "flood"; py "accident";
   py "immediate"; py "disaster"].

Definition medium_keywords : list pystr :=
  [py "important"; py "delayed"; py "issue"; py "complaint"; py "damaged";
   py "repair"; py "malfunction"; py "urgent"; py "critical"; py "problem"].

Definition low_keywords : list pystr :=
  [py "routine"; py "normal"; py "minor"; py "checkup"; py "maintenance";
   py "scheduled"; py "repair"; py "recheck"; py "regular"; py "ongoing"].

(** One scoring loop:
    [for word in keywords: if word in text.lower(): score += points]. *)
Definition score_loop {U : Unicode} (keywords : list pystr) (points : Z)
  (text : pystr) (score : Z) : Z :=
  fold_left
    (fun score word =>
       if contains word (lower text) then score + points else score)
    keywords score.

(** [if "not resolved" in text.lower() or "again" in text.lower()] *)
Definition unresolved_phrase {U : Unicode} (text : pystr) : bool :=
  contains (py "not resolved") (lower text)
  || contains (py "again") (lower text).

(** The value of the variable [score] when the [return] is reached. *)
Definition score_before_return {U : Unicode} (text : pystr) : Z :=
  let score := 0 in
  let score := score_loop urgent_keywords 40 text score in
  let score := score_loop medium_keywords 20 text score in
  let score := score_loop low_keywords 5 text score in
  let score := if unresolved_phrase text then score + 25 else score in
  score.

Definition grievance_score {U : Unicode} (text : pystr) : Z :=
  Z.min (score_before_return text + 50) 100.

(** The specification's reading of one list: every keyword of the list that
    the lowercased text contains contributes the list's weight, once. *)
Definition keyword_weight {U : Unicode} (points : Z) (text word : pystr) : Z :=
  if contains word (lower text) then points else 0.

Definition sumZ (l : list Z) : Z := fold_right Z.add 0 l.

Definition list_weight {U : Unicode} (keywords : list pystr) (points : Z)
  (text : pystr) : Z :=
  sumZ (map (keyword_weight points text) keywords).

(** No keyword of the three lists occurs in the lowercased text. *)
Definition no_listed_keyword {U : Unicode} (text : pystr) : bool :=
  forallb (fun word => negb (contains word (lower text)))
          (urgent_keywords ++ medium_keywords ++ low_keywords).

(** ** Action advisor: [suggest_action] *)

(** [d.get(key, default)] on a dict written as its items in order. *)
Fixpoint dict_get {V : Type} (d : list (pystr * V)) (key : pystr)
  (default : V) : V :=
  match d with
  | [] => default
  | (k, v) :: d' => if PyStr.eqb k key then v else dict_get d' key default
  end.

Definition suggest_action (category : pystr) (priority : Z) : pystr :=
  let actions :=
    [ (py "Water Supply",
        if 70 <? priority then py "Forward to Jal Nigam for urgent inspection"
        else py "Forward to Jal Nigam for regular check");
      (py "Road Damage",
        if 70 <? priority then py "Notify PWD for immediate repair"
        else py "Notify PWD for standard check");
      (py "Garbage",
        if 70 <? priority
        then py "Alert sanitation department for immediate cleaning"
        else py "Alert sanitation department for routine collection");
      (py "Electricity",
        if 70 <? priority then py "Notify electricity board for urgent check"
        else py "Notify electricity board for regular maintenance") ] in
  dict_get actions category (py "Review and assign appropriate department.").

(** The urgent and the routine phrasing of each known category. *)
Definition urgent_phrasing (category : pystr) : pystr :=
  if PyStr.eqb category (py "Water Supply")
  then py "Forward to Jal Nigam for urgent inspection"
  else if PyStr.eqb category (py "Road Damage")
  then py "Notify PWD for immediate repair"
  else if PyStr.eqb category (py "Garbage")
  then py "Alert sanitation department for immediate cleaning"
  else py "Notify electricity board for urgent check".

Definition routine_phrasing (category : pystr) : pystr :=
  if PyStr.eqb category (py "Water Supply")
  then py "Forward to Jal Nigam for regular check"
  else if PyStr.eqb category (py "Road Damage")
  then py "Notify PWD for standard check"
  else if PyStr.eqb category (py "Garbage")
  then py "Alert sanitation department for routine collection"
  else py "Notify electricity board for regular maintenance".

Definition known_categories : list pystr :=
  [py "Water Supply"; py "Garbage"; py "Electricity"; py "Road Damage"].

(** ** Results of statements that can raise *)

Inductive exn := ValueError | JSONDecodeError | OSError.

Inductive result (A : Type) :=
| Ok (a : A)
| Raise (e : exn).
Arguments Ok {A} a.
Arguments Raise {A} e.

(** ** Calendar dates: [datetime.date] *)

Module PyDate.

Record date := mkdate { year : Z; month : Z; day : Z }.

Definition is_leap (year : Z) : bool :=
  (year mod 4 =? 0) && (negb (year mod 100 =? 0) || (year mod 400 =? 0)).

Definition DAYS_IN_MONTH : list Z :=
  [-1; 31; 28; 31; 30; 31; 30; 31; 31; 30; 31; 30; 31].

Definition DAYS_BEFORE_MONTH : list Z :=
  [-1; 0; 31; 59; 90; 120; 151; 181; 212; 243; 273; 304; 334].

Definition days_before_year (year : Z) : Z :=
  let y := year - 1 in
  y * 365 + y / 4 - y / 100 + y / 400.

Definition days_in_month (year month : Z) : Z :=
  if (month =? 2) && is_leap year then 29
  else nth (Z.to_nat month) DAYS_IN_MONTH 0.

Definition days_before_month (year month : Z) : Z :=
  nth (Z.to_nat month) DAYS_BEFORE_MONTH 0
  + (if (2 <? month) && is_leap year then 1 else 0).

Definition ymd2ord (year month day : Z) : Z :=
  days_before_year year + days_before_month year month + day.

Definition toordinal (d : date) : Z := ymd2ord (year d) (month d) (day d).

(** The range check of the [date] constructor. *)
Definition valid_ymd (year month day : Z) : bool :=
  (1 <=? year) && (year <=? 9999) && (1 <=? month) && (month <=? 12)
  && (1 <=? day) && (day <=? days_in_month year month).

Definition valid (d : date) : bool := valid_ymd (year d) (month d) (day d).

(** [(a - b).days] *)
Definition days_between (a b : date) : Z := toordinal a - toordinal b.

Definition digit_in (lo hi : Z) (c : N) : option Z :=
  match digit c with
  | Some v => if (lo <=? v) && (v <=? hi) then Some v else None
  | None => None
  end.

(** The directive [%m]: [1[0-2]|0[1-9]|[1-9]], first alternative that
    matches. *)
Definition scan_month (s : pystr) : option (Z * pystr) :=
  match s with
  | a :: b :: rest =>
      match digit_in 1 1 a, digit_in 0 2 b with
      | Some _, Some v => Some (10 + v, rest)
      | _, _ =>
          match digit_in 0 0 a, digit_in 1 9 b with
          | Some _, Some v => Some (v, rest)
          | _, _ =>
              match digit_in 1 9 a with
              | Some v => Some (v, b :: rest)
              | None => None
              end
          end
      end
  | [a] =>
      match digit_in 1 9 a with
      | Some v => Some (v, [])
      | None => None
      end
  | [] => None
  end.

(** The directive [%d]: [3[0-1]|[1-2]\d|0[1-9]|[1-9]| [1-9]].  The classes
    written with digits match ASCII digits; [\d] matches any decimal
    digit. *)
Definition scan_day {U : Unicode} (s : pystr) : option (Z * pystr) :=
  match s with
  | a :: b :: rest =>
      match digit_in 3 3 a, digit_in 0 1 b with
      | Some _, Some v => Some (30 + v, rest)
      | _, _ =>
          match digit_in 1 2 a, decimal b with
          | Some u, Some v => Some (10 * u + v, rest)
          | _, _ =>
              match digit_in 0 0 a, digit_in 1 9 b with
              | Some _, Some v => Some (v, rest)
              | _, _ =>
                  match digit_in 1 9 a with
                  | Some v => Some (v, b :: rest)
                  | None =>
                      if N.eqb a 32 then
                        match digit_in 1 9 b with
                        | Some v => Some (v, rest)
                        | None => None
                        end
                      else None
                  end
              end
          end
      end
  | [a] =>
      match digit_in 1 9 a with
      | Some v => Some (v, [])
      | None => None
      end
  | [] => None
  end.

(** [datetime.datetime.strptime(s, "%Y-%m-%d").date()]; [None] stands for
    the [ValueError] it raises.  The directive [%Y] is four times [\d], read
    by [int]. *)
Definition strptime_ymd {U : Unicode} (s : pystr) : option date :=
  match s with
  | y1 :: y2 :: y3 :: y4 :: dash :: rest =>
      match decimal y1, decimal y2, decimal y3, decimal y4 with
      | Some a, Some b, Some c, Some d =>
          if N.eqb dash 45 then
            match scan_month rest with
            | Some (m, dash' :: rest') =>
                if N.eqb dash' 45 then
                  match scan_day rest' with
                  | Some (dd, []) =>
                      let y := 1000 * a + 100 * b + 10 * c + d in
                      if valid_ymd y m dd then Some (mkdate y m dd) else None
                  | _ => None
                  end
                else None
            | _ => None
            end
          else None
      | _, _, _, _ => None
      end
  | _ => None
  end.

Definition digit_char (v : Z) : N := Z.to_N (48 + v).

(** [str(d)], that is [d.isoformat()]: ["%04d-%02d-%02d"], for a date in
    the range of [valid]. *)
Definition isoformat (d : date) : pystr :=
  [digit_char (year d / 1000); digit_char (year d / 100 mod 10);
   digit_char (year d / 10 mod 10); digit_char (year d mod 10); 45%N;
   digit_char (month d / 10); digit_char (month d mod 10); 45%N;
   digit_char (day d / 10); digit_char (day d mod 10)].

End PyDate.
Import PyDate.

(** ** Grievance records *)

Record Grievance := mkGrievance {
  ID : pystr;
  Name : pystr;
  Text : pystr;
  Category : pystr;
  Date : pystr;
  Priority : Z;
  Keywords : list pystr;
  Status : pystr;
  Escalated : pystr;
  Image : option pystr;
  Attachment : option pystr
}.

(** [grievance['Status'] = v] *)
Definition set_Status (v : pystr) (g : Grievance) : Grievance :=
  mkGrievance (ID g) (Name g) (Text g) (Category g) (Date g) (Priority g)
              (Keywords g) v (Escalated g) (Image g) (Attachment g).

(** [grievance['Escalated'] = v] *)
Definition set_Escalated (v : pystr) (g : Grievance) : Grievance :=
  mkGrievance (ID g) (Name g) (Text g) (Category g) (Date g) (Priority g)
              (Keywords g) (Status g) v (Image g) (Attachment g).

(** ** Escalation rule: [auto_escalate]

    [today] is the value of [datetime.date.today()].  The result carries the
    returned boolean and the record as the call leaves it. *)
Definition auto_escalate {U : Unicode} (today : date) (grievance : Grievance)
  : result (bool * Grievance) :=
  match strptime_ymd (Date grievance) with
  | None => Raise ValueError
  | Some g_date =>
      if PyStr.eqb (Status grievance) (py "Pending")
         && (3 <? days_between today g_date)
      then
        let grievance := set_Escalated (py "Yes") grievance in
        let grievance := set_Status (py "Escalated") grievance in
        Ok (true, grievance)
      else Ok (false, grievance)
  end.

(** The record as the escalation rule rewrites it. *)
Definition escalated_record (g : Grievance) : Grievance :=
  set_Status (py "Escalated") (set_Escalated (py "Yes") g).

(** The condition of the rule, on a record whose date reads as [g_date]. *)
Definition escalation_due (today g_date : date) (g : Grievance) : Prop :=
  Status g = py "Pending" /\ days_between today g_date > 3.

(** ** Keyword extraction: [extract_keywords] *)

(** [str.isspace] of one character. *)
Definition isspace (c : N) : bool :=
  ((N.leb 9 c && N.leb c 13) || (N.leb 28 c && N.leb c 32)
   || N.eqb c 133 || N.eqb c 160 || N.eqb c 5760
   || (N.leb 8192 c && N.leb c 8202) || N.eqb c 8232 || N.eqb c 8233
   || N.eqb c 8239 || N.eqb c 8287 || N.eqb c 12288)%bool.

(** [s.split()]: the maximal runs of characters that are not white space;
    [word] is the run being read, last character first. *)
Fixpoint split_from (s : pystr) (word : pystr) : list pystr :=
  match s with
  | [] => match word with [] => [] | _ => [rev word] end
  | c :: s' =>
      if isspace c then
        match word with
        | [] => split_from s' []
        | _ => rev word :: split_from s' []
        end
      else split_from s' (c :: word)
  end.

Definition split (s : pystr) : list pystr := split_from s [].

Definition extract_keywords {U : Unicode} (text : pystr) : list pystr :=
  filter (fun word => 4 <? Z.of_nat (List.length word)) (split (lower text)).

(** ** The JSON codec: [json.dump(obj, f, indent=4)] and [json.load(f)]

    A float is kept as the literal that denotes it; [float.__repr__] is not
    modelled, and the round-trip results below are about values without
    floats.  The decoder is the scanner of the module [_json], which
    [json.load] uses in CPython: its numbers are made of ASCII digits only,
    unlike the digits of [strptime], and its white space is the four
    characters of the standard. *)

Module Json.

#[warnings="-register-all"] Inductive json :=
| JNull
| JBool (b : bool)
| JInt (z : Z)
| JFloat (lit : pystr)
| JStr (s : pystr)
| JList (l : list json)
| JDict (items : list (pystr * json)).

(** *** Encoder *)

Definition hex_char (d : N) : N :=
  if N.ltb d 10 then (48 + d)%N else (87 + d)%N.

(** ['\\u{0:04x}'.format(n)] *)
Definition u_escape (n : N) : pystr :=
  [92; 117; hex_char (n / 4096); hex_char ((n / 256) mod 16);
   hex_char ((n / 16) mod 16); hex_char (n mod 16)]%N.

(** The replacement of one character by [py_encode_basestring_ascii]. *)
Definition escape_char (c : N) : pystr :=
  if N.eqb c 34 then [92; 34]%N
  else if N.eqb c 92 then [92; 92]%N
  else if N.eqb c 8 then [92; 98]%N
  else if N.eqb c 12 then [92; 102]%N
  else if N.eqb c 10 then [92; 110]%N
  else if N.eqb c 13 then [92; 114]%N
  else if N.eqb c 9 then [92; 116]%N
  else if (N.leb 32 c && N.leb c 126)%bool then [c]
  else if N.ltb c 65536 then u_escape c
  else
    let n := (c - 65536)%N in
    let s1 := N.lor 55296 (N.land (N.shiftr n 10) 1023) in
    let s2 := N.lor 56320 (N.land n 1023) in
    u_escape s1 ++ u_escape s2.

Definition encode_basestring_ascii (s : pystr) : pystr :=
  [34%N] ++ flat_map escape_char s ++ [34%N].

(** The decimal digits of [n], most significant first, in front of [acc]. *)
Fixpoint digits_from (fuel : nat) (n : N) (acc : pystr) : pystr :=
  match fuel with
  | O => acc
  | S fuel' =>
      let acc' := (48 + n mod 10)%N :: acc in
      if N.eqb (n / 10) 0 then acc' else digits_from fuel' (n / 10) acc'
  end.

Definition digits (n : N) : pystr :=
  digits_from (S (N.to_nat (N.log2 n))) n [].

(** [int.__repr__] *)
Definition int_repr (z : Z) : pystr :=
  match z with
  | Z0 => [48%N]
  | Zpos p => digits (Npos p)
  | Zneg p => 45%N :: digits (Npos p)
  end.

(** ['\n' + _indent * _current_indent_level] with [_indent] of [indent]
    spaces. *)
Definition newline_indent (indent level : nat) : pystr :=
  10%N :: repeat 32%N (indent * level).

(** [_iterencode(o, _current_indent_level)], all chunks joined. *)
Fixpoint iterencode (indent : nat) (o : json) (level : nat) : pystr :=
  match o with
  | JNull => py "null"
  | JBool true => py "true"
  | JBool false => py "false"
  | JInt z => int_repr z
  | JFloat lit => lit
  | JStr s => encode_basestring_ascii s
  | JList [] => py "[]"
  | JList (value :: lst) =>
      [91%N] ++ newline_indent indent (S level)
      ++ iterencode indent value (S level)
      ++ flat_map
           (fun value =>
              [44%N] ++ newline_indent indent (S level)
              ++ iterencode indent value (S level))
           lst
      ++ newline_indent indent level ++ [93%N]
  | JDict [] => py "{}"
  | JDict ((key, value) :: dct) =>
      [123%N] ++ newline_indent indent (S level)
      ++ encode_basestring_ascii key ++ [58; 32]%N
      ++ iterencode indent value (S level)
      ++ flat_map
           (fun item =>
              [44%N] ++ newline_indent indent (S level)
              ++ encode_basestring_ascii (fst item) ++ [58; 32]%N
              ++ iterencode indent (snd item) (S level))
           dct
      ++ newline_indent indent level ++ [125%N]
  end.

(** The text [json.dump(obj, f, indent=indent)] writes to [f]. *)
Definition dumps (indent : nat) (obj : json) : pystr :=
  iterencode indent obj 0.

(** *** Decoder *)

Definition is_ws (c : N) : bool :=
  (N.eqb c 32 || N.eqb c 9 || N.eqb c 10 || N.eqb c 13)%bool.

Fixpoint skip_ws (s : pystr) : pystr :=
  match s with
  | c :: s' => if is_ws c then skip_ws s' else s
  | [] => []
  end.

Definition hex_val (c : N) : option N :=
  if (N.leb 48 c && N.leb c 57)%bool then Some (c - 48)%N
  else if (N.leb 97 c && N.leb c 102)%bool then Some (c - 87)%N
  else if (N.leb 65 c && N.leb c 70)%bool then Some (c - 55)%N
  else None.

(** [int(esc, 16)] of four hexadecimal digits. *)
Definition hex4 (a b c d : N) : option N :=
  match hex_val a, hex_val b, hex_val c, hex_val d with
  | Some x, Some y, Some z, Some w =>
      Some (((x * 16 + y) * 16 + z) * 16 + w)%N
  | _, _, _, _ => None
  end.

Definition is_high_surrogate (u : N) : bool :=
  (N.leb 55296 u && N.leb u 56319)%bool.
Definition is_low_surrogate (u : N) : bool :=
  (N.leb 56320 u && N.leb u 57343)%bool.

Definition join_surrogates (uni uni2 : N) : N :=
  (65536 + N.lor (N.shiftl (uni - 55296) 10) (uni2 - 56320))%N.

Definition push (c : N) (r : option (pystr * pystr)) : option (pystr * pystr) :=
  match r with
  | Some (str, rest) => Some (c :: str, rest)
  | None => None
  end.

(** The character an escape letter stands for ([BACKSLASH]). *)
Definition backslash (e : N) : option N :=
  if N.eqb e 34 then Some 34%N
  else if N.eqb e 92 then Some 92%N
  else if N.eqb e 47 then Some 47%N
  else if N.eqb e 98 then Some 8%N
  else if N.eqb e 102 then Some 12%N
  else if N.eqb e 110 then Some 10%N
  else if N.eqb e 114 then Some 13%N
  else if N.eqb e 116 then Some 9%N
  else None.

(** [scanstring(s, end, strict=True)], from just after the opening quote:
    the string and the text after its closing quote. *)
Fixpoint scanstring (s : pystr) : option (pystr * pystr) :=
  match s with
  | [] => None
  | c :: s1 =>
      if N.eqb c 34 then Some ([], s1)
      else if N.eqb c 92 then
        match s1 with
        | [] => None
        | e :: s2 =>
            if N.eqb e 117 then
              match s2 with
              | a :: b :: c' :: d :: s3 =>
                  match hex4 a b c' d with
                  | None => None
                  | Some uni =>
                      if is_high_surrogate uni then
                        match s3 with
                        | bs :: u :: a2 :: b2 :: c2 :: d2 :: s4 =>
                            if (N.eqb bs 92 && N.eqb u 117)%bool then
                              match hex4 a2 b2 c2 d2 with
                              | None => None
                              | Some uni2 =>
                                  if is_low_surrogate uni2
                                  then push (join_surrogates uni uni2)
                                            (scanstring s4)
                                  else push uni (scanstring s3)
                              end
                            else push uni (scanstring s3)
                        | bs :: u :: _ =>
                            if (N.eqb bs 92 && N.eqb u 117)%bool then None
                            else push uni (scanstring s3)
                        | _ => push uni (scanstring s3)
                        end
                      else push uni (scanstring s3)
                  end
              | _ => None
              end
            else
              match backslash e with
              | Some ch => push ch (scanstring s2)
              | None => None
              end
        end
      else if N.ltb c 32 then None
      else push c (scanstring s1)
  end.

Definition is_digit (c : N) : bool := (N.leb 48 c && N.leb c 57)%bool.

(** The longest run of digits at the head of [s], and what follows it. *)
Fixpoint span_digits (s : pystr) : pystr * pystr :=
  match s with
  | c :: s' =>
      if is_digit c then let (ds, rest) := span_digits s' in (c :: ds, rest)
      else ([], s)
  | [] => ([], [])
  end.

(** [int(ds)] of a run of digits. *)
Definition digits_value (ds : pystr) : N :=
  fold_left (fun acc c => (10 * acc + (c - 48))%N) ds 0%N.

(** The integer part of a number ([_match_number_unicode], the pattern of
    [NUMBER_RE] on ASCII digits): an optional minus sign, then either a
    single 0 or a digit from 1 to 9 followed by any digits. *)
Definition match_integer (s : pystr) : option (pystr * pystr) :=
  let (sign, s1) :=
    match s with
    | c :: s' => if N.eqb c 45 then ([45%N], s') else ([], s)
    | [] => ([], s)
    end in
  match s1 with
  | d :: s2 =>
      if N.eqb d 48 then Some (sign ++ [d], s2)
      else if is_digit d then
        let (ds, rest) := span_digits s2 in Some (sign ++ d :: ds, rest)
      else None
  | [] => None
  end.

(** The optional fraction group: a dot and at least one digit. *)
Definition match_frac (s : pystr) : pystr * pystr :=
  match s with
  | c :: s' =>
      if N.eqb c 46 then
        match span_digits s' with
        | ([], _) => ([], s)
        | (ds, rest) => (c :: ds, rest)
        end
      else ([], s)
  | [] => ([], s)
  end.

(** The optional exponent group: e or E, an optional sign, at least one
    digit. *)
Definition match_exp (s : pystr) : pystr * pystr :=
  match s with
  | c :: s' =>
      if (N.eqb c 101 || N.eqb c 69)%bool then
        let (sign, s1) :=
          match s' with
          | g :: s'' =>
              if (N.eqb g 45 || N.eqb g 43)%bool then ([g], s'') else ([], s')
          | [] => ([], s')
          end in
        match span_digits s1 with
        | ([], _) => ([], s)
        | (ds, rest) => (c :: sign ++ ds, rest)
        end
      else ([], s)
  | [] => ([], s)
  end.

(** [int(integer)] *)
Definition parse_int (integer : pystr) : Z :=
  match integer with
  | c :: ds =>
      if N.eqb c 45 then - Z.of_N (digits_value ds)
      else Z.of_N (digits_value integer)
  | [] => 0
  end.

(** [match_number] and the conversion of what it matched. *)
Definition scan_number (s : pystr) : option (json * pystr) :=
  match match_integer s with
  | None => None
  | Some (integer, s1) =>
      let (frac, s2) := match_frac s1 in
      let (exp, s3) := match_exp s2 in
      match frac, exp with
      | [], [] => Some (JInt (parse_int integer), s3)
      | _, _ => Some (JFloat (integer ++ frac ++ exp), s3)
      end
  end.

(** [s] without the prefix [p], when it starts with [p]. *)
Fixpoint strip (p s : pystr) : option pystr :=
  match p, s with
  | [], _ => Some s
  | a :: p', b :: s' => if N.eqb a b then strip p' s' else None
  | _ :: _, [] => None
  end.

(** The branches of [_scan_once] that read neither a string nor a
    container. *)
Definition scan_atom (s : pystr) : option (json * pystr) :=
  match strip (py "null") s with
  | Some rest => Some (JNull, rest)
  | None =>
  match strip (py "true") s with
  | Some rest => Some (JBool true, rest)
  | None =>
  match strip (py "false") s with
  | Some rest => Some (JBool false, rest)
  | None =>
  match scan_number s with
  | Some r => Some r
  | None =>
  match strip (py "NaN") s with
  | Some rest => Some (JFloat (py "NaN"), rest)
  | None =>
  match strip (py "Infinity") s with
  | Some rest => Some (JFloat (py "Infinity"), rest)
  | None =>
  match strip (py "-Infinity") s with
  | Some rest => Some (JFloat (py "-Infinity"), rest)
  | None => None
  end end end end end end end.

(** [d[key] = value] on a dict written as its items in order. *)
Fixpoint dict_set {V : Type} (d : list (pystr * V)) (key : pystr) (value : V)
  : list (pystr * V) :=
  match d with
  | [] => [(key, value)]
  | (k, v) :: d' =>
      if PyStr.eqb k key then (k, value) :: d'
      else (k, v) :: dict_set d' key value
  end.

(** [dict(pairs)] *)
Definition dict_of_pairs {V : Type} (pairs : list (pystr * V))
  : list (pystr * V) :=
  fold_left (fun d item => dict_set d (fst item) (snd item)) pairs [].

(** [_scan_once], [JSONArray] and [JSONObject].  [array_items] starts at a
    value and returns the values up to the closing bracket; [object_items]
    starts just after the opening quote of a key and returns the pairs up to
    the closing brace.  Each call spends one unit of [fuel]. *)
Fixpoint scan_once (fuel : nat) (s : pystr) {struct fuel}
  : option (json * pystr) :=
  match fuel with
  | O => None
  | S fuel' =>
      match s with
      | [] => None
      | c :: s' =>
          if N.eqb c 34 then
            match scanstring s' with
            | Some (str, rest) => Some (JStr str, rest)
            | None => None
            end
          else if N.eqb c 123 then
            match skip_ws s' with
            | c1 :: s1 =>
                if N.eqb c1 125 then Some (JDict [], s1)
                else if N.eqb c1 34 then
                  match object_items fuel' s1 with
                  | Some (pairs, rest) =>
                      Some (JDict (dict_of_pairs pairs), rest)
                  | None => None
                  end
                else None
            | [] => None
            end
          else if N.eqb c 91 then
            match skip_ws s' with
            | c1 :: s1 =>
                if N.eqb c1 93 then Some (JList [], s1)
                else
                  match array_items fuel' (c1 :: s1) with
                  | Some (values, rest) => Some (JList values, rest)
                  | None => None
                  end
            | [] => None
            end
          else scan_atom s
      end
  end

with array_items (fuel : nat) (s : pystr) {struct fuel}
  : option (list json * pystr) :=
  match fuel with
  | O => None
  | S fuel' =>
      match scan_once fuel' s with
      | None => None
      | Some (value, s1) =>
          match skip_ws s1 with
          | c :: s2 =>
              if N.eqb c 93 then Some ([value], s2)
              else if N.eqb c 44 then
                match array_items fuel' (skip_ws s2) with
                | Some (values, rest) => Some (value :: values, rest)
                | None => None
                end
              else None
          | [] => None
          end
      end
  end

with object_items (fuel : nat) (s : pystr) {struct fuel}
  : option (list (pystr * json) * pystr) :=
  match fuel with
  | O => None
  | S fuel' =>
      match scanstring s with
      | None => None
      | Some (key, s1) =>
          match skip_ws s1 with
          | c :: s2 =>
              if N.eqb c 58 then
                match scan_once fuel' (skip_ws s2) with
                | None => None
                | Some (value, s3) =>
                    match skip_ws s3 with
                    | c' :: s4 =>
                        if N.eqb c' 125 then Some ([(key, value)], s4)
                        else if N.eqb c' 44 then
                          match skip_ws s4 with
                          | q :: s5 =>
                              if N.eqb q 34 then
                                match object_items fuel' s5 with
                                | Some (pairs, rest) =>
                                    Some ((key, value) :: pairs, rest)
                                | None => None
                                end
                              else None
                          | [] => None
                          end
                        else None
                    | [] => None
                    end
                end
              else None
          | [] => None
          end
      end
  end.

(** [json.loads(s)]: one value, white space around it, nothing else.
    [None] stands for the [JSONDecodeError] it raises.  A value never needs
    more fuel than the text has characters. *)
Definition loads (s : pystr) : option json :=
  match scan_once (S (List.length s)) (skip_ws s) with
  | Some (obj, rest) =>
      match skip_ws rest with
      | [] => Some obj
      | _ :: _ => None
      end
  | None => None
  end.

(** What may follow an integer for [NUMBER_RE] to stop at its last digit:
    the end of the text, or a character that continues neither the digits
    nor a fraction nor an exponent. *)
Definition number_end (rest : pystr) : bool :=
  match rest with
  | [] => true
  | c :: _ =>
      negb (is_digit c || N.eqb c 46 || N.eqb c 101 || N.eqb c 69)
  end.

(** The number of values in [o], each element of a list or dict counted
    with one more for the place it takes. *)
Fixpoint size (o : json) : nat :=
  match o with
  | JList l => S (fold_right (fun value n => S (size value + n)) 0 l)%nat
  | JDict items =>
      S (fold_right (fun item n => S (size (snd item) + n)) 0 items)%nat
  | _ => 1%nat
  end.

Definition list_size (l : list json) : nat :=
  fold_right (fun value n => S (size value + n)) 0%nat l.

Definition dict_size (items : list (pystr * json)) : nat :=
  fold_right (fun item n => S (size (snd item) + n)) 0%nat items.

Definition all_digits (ds : pystr) : Prop :=
  Forall (fun c => is_digit c = true) ds.

(** The text of [o], written at any nesting level and followed by any text
    that ends a number, is read back as [o] with any fuel from [size o]
    on. *)
Definition reads_back (indent : nat) (o : json) : Prop :=
  forall level rest fuel,
    (size o <= fuel)%nat -> number_end rest = true ->
    scan_once fuel (iterencode indent o level ++ rest) = Some (o, rest).

(** A document the scanner decodes: with some fuel it finds one value in
    it, white space around it and nothing else. *)
Definition decodable (doc : pystr) : Prop :=
  exists fuel obj rest,
    scan_once fuel (skip_ws doc) = Some (obj, rest) /\ skip_ws rest = [].

(** *** The values the round trip is stated for *)

(** No float, every string a text, the keys of every dict distinct. *)
Fixpoint plain (o : json) : bool :=
  match o with
  | JNull | JBool _ | JInt _ => true
  | JFloat _ => false
  | JStr s => text s
  | JList l => forallb plain l
  | JDict items =>
      forallb (fun item => text (fst item) && plain (snd item)) items
      && distinct (map fst items)
  end.

End Json.
Import Json.

(** ** The JSON grammar *)

(** The grammar of RFC 8259, the standard that says which documents are
    well formed; it is written from the standard, not from the decoder.
    [literals] are the names a value may be written with: [null], [true]
    and [false] in the standard. *)
Module Rfc8259.

(** [ws]: space, horizontal tab, line feed, carriage return. *)
Definition ws_char (c : N) : Prop :=
  c = 32%N \/ c = 9%N \/ c = 10%N \/ c = 13%N.

Definition ws (w : pystr) : Prop := Forall ws_char w.

Definition DIGIT (c : N) : Prop := (48 <= c <= 57)%N.

Definition HEXDIG (c : N) : Prop :=
  (48 <= c <= 57)%N \/ (65 <= c <= 70)%N \/ (97 <= c <= 102)%N.

(** [1*DIGIT] *)
Definition digits (ds : pystr) : Prop := ds <> [] /\ Forall DIGIT ds.

(** [int = zero / ( digit1-9 *DIGIT )] *)
Inductive int : pystr -> Prop :=
| int_zero : int [48%N]
| int_digits (d : N) (ds : pystr) :
    (49 <= d <= 57)%N -> Forall DIGIT ds -> int (d :: ds).

(** [[ frac ]] with [frac = decimal-point 1*DIGIT] *)
Inductive frac : pystr -> Prop :=
| frac_none : frac []
| frac_some (ds : pystr) : digits ds -> frac (46%N :: ds).

(** [[ exp ]] with [exp = e [ minus / plus ] 1*DIGIT] *)
Inductive exp : pystr -> Prop :=
| exp_none : exp []
| exp_some (e : N) (sign ds : pystr) :
    e = 101%N \/ e = 69%N ->
    sign = [] \/ sign = [45%N] \/ sign = [43%N] ->
    digits ds -> exp (e :: sign ++ ds).

(** [number = [ minus ] int [ frac ] [ exp ]] *)
Inductive number : pystr -> Prop :=
| number_intro (minus i f e : pystr) :
    minus = [] \/ minus = [45%N] ->
    int i -> frac f -> exp e -> number (minus ++ i ++ f ++ e).

(** The letters that may follow the escape character, [u] apart. *)
Definition escape_letter (e : N) : Prop :=
  In e [34; 92; 47; 98; 102; 110; 114; 116]%N.

(** [*char]: what stands between the quotation marks of a string. *)
Inductive chars : pystr -> Prop :=
| chars_nil : chars []
| chars_unescaped (c : N) (s : pystr) :
    (32 <= c)%N -> c <> 34%N -> c <> 92%N -> chars s -> chars (c :: s)
| chars_escape (e : N) (s : pystr) :
    escape_letter e -> chars s -> chars (92%N :: e :: s)
| chars_u (a b c d : N) (s : pystr) :
    HEXDIG a -> HEXDIG b -> HEXDIG c -> HEXDIG d -> chars s ->
    chars (92%N :: 117%N :: a :: b :: c :: d :: s).

Section Grammar.

Variable literals : list pystr.

(** [value], the inside of an array and the inside of an object; the
    structural characters may have white space on both sides. *)
Inductive value : pystr -> Prop :=
| value_literal (s : pystr) : In s literals -> value s
| value_number (s : pystr) : number s -> value s
| value_string (s : pystr) : chars s -> value (34%N :: s ++ [34%N])
| value_array_empty (w : pystr) : ws w -> value (91%N :: w ++ [93%N])
| value_array (s : pystr) : elements s -> value (91%N :: s ++ [93%N])
| value_object_empty (w : pystr) : ws w -> value (123%N :: w ++ [125%N])
| value_object (s : pystr) : members s -> value (123%N :: s ++ [125%N])

with elements : pystr -> Prop :=
| elements_one (w1 v w2 : pystr) :
    ws w1 -> value v -> ws w2 -> elements (w1 ++ v ++ w2)
| elements_more (w1 v w2 rest : pystr) :
    ws w1 -> value v -> ws w2 -> elements rest ->
    elements (w1 ++ v ++ w2 ++ 44%N :: rest)

with members : pystr -> Prop :=
| members_one (w1 k w2 w3 v w4 : pystr) :
    ws w1 -> chars k -> ws w2 -> ws w3 -> value v -> ws w4 ->
    members (w1 ++ 34%N :: k ++ 34%N :: w2 ++ 58%N :: w3 ++ v ++ w4)
| members_more (w1 k w2 w3 v w4 rest : pystr) :
    ws w1 -> chars k -> ws w2 -> ws w3 -> value v -> ws w4 ->
    members rest ->
    members (w1 ++ 34%N :: k ++ 34%N :: w2 ++ 58%N :: w3 ++ v ++ w4
                ++ 44%N :: rest).

(** [JSON-text = ws value ws] *)
Definition text_of (doc : pystr) : Prop :=
  exists w1 v w2, ws w1 /\ value v /\ ws w2 /\ doc = w1 ++ v ++ w2.

End Grammar.

(** A well-formed JSON document. *)
Definition json_literals : list pystr := [py "null"; py "true"; py "false"].

Definition JSON_text : pystr -> Prop := text_of json_literals.

(** A JSON document but for three more names that the standard does not
    have. *)
Definition python_literals : list pystr :=
  json_literals ++ [py "NaN"; py "Infinity"; py "-Infinity"].

Definition lenient_text : pystr -> Prop := text_of python_literals.

(** A malformed document: one that is no JSON text. *)
Definition malformed (doc : pystr) : Prop := ~ JSON_text doc.

(** The characters a value of the standard can start with: the first
    letter of a name, a quotation mark, a bracket, a brace, a minus sign or
    a digit. *)
Definition value_start (c : N) : Prop :=
  In c [110; 116; 102; 34; 91; 123; 45]%N \/ DIGIT c.

End Rfc8259.

(** ** Record store: [load_grievances] and [save_grievances]

    The file system is the content of [grievances.json], if the file
    exists. *)

Definition filesystem := option pystr.

Definition load_grievances (fs : filesystem) : result json :=
  match fs with
  | Some f =>
      match loads f with
      | Some obj => Ok obj
      | None => Raise JSONDecodeError
      end
  | None => Ok (JList [])
  end.

Definition save_grievances (grievances : json) (fs : filesystem)
  : filesystem :=
  Some (dumps 4 grievances).

(** A record as the dict the program builds and stores. *)
Definition json_of_path (path : option pystr) : json :=
  match path with
  | Some p => JStr p
  | None => JNull
  end.

Definition json_of_grievance (g : Grievance) : json :=
  JDict
    [ (py "ID", JStr (ID g));
      (py "Name", JStr (Name g));
      (py "Text", JStr (Text g));
      (py "Category", JStr (Category g));
      (py "Date", JStr (Date g));
      (py "Priority", JInt (Priority g));
      (py "Keywords", JList (map JStr (Keywords g)));
      (py "Status", JStr (Status g));
      (py "Escalated", JStr (Escalated g));
      (py "Image", json_of_path (Image g));
      (py "Attachment", json_of_path (Attachment g)) ].

Definition json_of_grievances (grievances : list Grievance) : json :=
  JList (map json_of_grievance grievances).

(** Every string of the record is a text. *)
Definition text_path (path : option pystr) : bool :=
  match path with
  | Some p => text p
  | None => true
  end.

Definition text_record (g : Grievance) : bool :=
  text (ID g) && text (Name g) && text (Text g) && text (Category g)
  && text (Date g) && forallb text (Keywords g) && text (Status g)
  && text (Escalated g) && text_path (Image g) && text_path (Attachment g).

(** ** The operations of the program on the collection *)

(** The record the Submit Grievance branch appends.  [grievance_id] is the
    eight characters kept of the fresh uuid; [image_path] and [doc_path] are
    the paths the uploaded files were written to, if any. *)
Definition new_grievance {U : Unicode} (grievance_id name : pystr)
  (grievance_date : date) (grievance_text : pystr)
  (image_path doc_path : option pystr) : Grievance :=
  let category := categorize_grievance grievance_text in
  let priority := grievance_score grievance_text in
  let keywords := extract_keywords grievance_text in
  {| ID := grievance_id;
     Name := name;
     Text := grievance_text;
     Category := category;
     Date := isoformat grievance_date;
     Priority := priority;
     Keywords := keywords;
     Status := py "Pending";
     Escalated := py "No";
     Image := image_path;
     Attachment := doc_path |}.

(** The Submit Grievance branch once the form is submitted: the collection
    and the file afterwards.  With an empty name or text nothing is appended
    and nothing is saved.  Otherwise the uploaded files are written first
    (lines 122 to 135): [uploads] is the outcome of that, the two paths, or
    the error that [open] or [write] raised, and then nothing is appended and
    nothing is saved. *)
Definition submit_grievance {U : Unicode} (grievance_id name : pystr)
  (grievance_date : date) (grievance_text : pystr)
  (uploads : result (option pystr * option pystr))
  (grievances : list Grievance) (fs : filesystem)
  : result (list Grievance * filesystem) :=
  match name, grievance_text with
  | _ :: _, _ :: _ =>
      match uploads with
      | Raise e => Raise e
      | Ok (image_path, doc_path) =>
          let grievances :=
            grievances ++ [new_grievance grievance_id name grievance_date
                                         grievance_text image_path doc_path] in
          Ok (grievances, save_grievances (json_of_grievances grievances) fs)
      end
  | _, _ => Ok (grievances, fs)
  end.

(** The loop of the Update Status button:
    [for g in grievances: if g["ID"] == selected_id: ...]. *)
Fixpoint update_loop {U : Unicode} (today : date)
  (selected_id new_status : pystr)
  (grievances : list Grievance) : result (list Grievance) :=
  match grievances with
  | [] => Ok []
  | g :: rest =>
      let step :=
        if PyStr.eqb (ID g) selected_id then
          let g := set_Status new_status g in
          match auto_escalate today g with
          | Ok (_, g) => Ok g
          | Raise e => Raise e
          end
        else Ok g in
      match step with
      | Raise e => Raise e
      | Ok g' =>
          match update_loop today selected_id new_status rest with
          | Ok rest' => Ok (g' :: rest')
          | Raise e => Raise e
          end
      end
  end.

(** The Update Status button: the loop, then [save_grievances]. *)
Definition update_status {U : Unicode} (today : date)
  (selected_id new_status : pystr)
  (grievances : list Grievance) (fs : filesystem)
  : result (list Grievance * filesystem) :=
  match update_loop today selected_id new_status grievances with
  | Ok grievances =>
      Ok (grievances, save_grievances (json_of_grievances grievances) fs)
  | Raise e => Raise e
  end.

(** One action of a user. *)
Inductive action :=
| Submit (grievance_id name : pystr) (grievance_date : date)
         (grievance_text : pystr)
         (uploads : result (option pystr * option pystr))
| UpdateStatus (selected_id new_status : pystr)
| TrackHistory (name : pystr)
| Feedback (name feedback : pystr).

(** The collection and the file after one action performed on the day
    [today].  Tracking and feedback change neither. *)
Definition perform {U : Unicode} (today : date) (a : action)
  (state : list Grievance * filesystem)
  : result (list Grievance * filesystem) :=
  let (grievances, fs) := state in
  match a with
  | Submit grievance_id name grievance_date grievance_text uploads =>
      submit_grievance grievance_id name grievance_date grievance_text
                       uploads grievances fs
  | UpdateStatus selected_id new_status =>
      update_status today selected_id new_status grievances fs
  | TrackHistory _ => Ok state
  | Feedback _ _ => Ok state
  end.

(** A run of actions, each with the day it is performed on. *)
Fixpoint perform_all {U : Unicode} (run : list (date * action))
  (state : list Grievance * filesystem)
  : result (list Grievance * filesystem) :=
  match run with
  | [] => Ok state
  | (today, a) :: run' =>
      match perform today a state with
      | Ok state' => perform_all run' state'
      | Raise e => Raise e
      end
  end.

(** A record as the Submit Grievance branch creates it, for the examples. *)
Definition sample_grievance : Grievance :=
  new_grievance (U := ascii_only) (py "ab12cd34") (py "Asha")
                (mkdate 2024 3 9)
                (py "urgent water leak not resolved again") None None.

(** ** More of the program: the dashboard, the search and the uploads *)

(** The list comprehension of the Track History branch:
    [[g for g in grievances if g["Name"].lower() == name.lower()]]. *)
Definition track_records {U : Unicode} (name : pystr)
  (grievances : list Grievance) : list Grievance :=
  filter (fun g => PyStr.eqb (lower (Name g)) (lower name)) grievances.

(** [df.loc[df['Category'] == x, 'Priority']]: the priorities of the rows of
    category [x], in row order. *)
Definition category_priorities (x : pystr) (grievances : list Grievance)
  : list Z :=
  map Priority (filter (fun g => PyStr.eqb (Category g) x) grievances).

(** [Series.max()] of a column of integers; [None] for an empty column. *)
Definition series_max (s : list Z) : option Z :=
  match s with
  | [] => None
  | p :: s' => Some (fold_left Z.max s' p)
  end.

(** The lambda applied to the Category column:
    [suggest_action(x, df.loc[df['Category'] == x, 'Priority'].max())]. *)
Definition suggested_action_of (grievances : list Grievance) (x : pystr)
  : option pystr :=
  match series_max (category_priorities x grievances) with
  | Some priority => Some (suggest_action x priority)
  | None => None
  end.

(** The frame of the Admin Panel with its Suggested Action column, then the
    status filter and the category filter, in the order of the rows before
    the frame is sorted for display. *)
Definition dashboard (status_filter : pystr) (cat_filter : list pystr)
  (grievances : list Grievance) : list (Grievance * option pystr) :=
  let df :=
    map (fun g => (g, suggested_action_of grievances (Category g)))
        grievances in
  let df :=
    if PyStr.eqb status_filter (py "All") then df
    else filter (fun row => PyStr.eqb (Status (fst row)) status_filter) df in
  let df :=
    match cat_filter with
    | [] => df
    | _ :: _ =>
        filter (fun row => existsb (PyStr.eqb (Category (fst row))) cat_filter)
               df
    end in
  df.

(** [s.split(sep)] for a separator of one character: the pieces between the
    separators, at least one. *)
Fixpoint split_on (sep : N) (s : pystr) : list pystr :=
  match s with
  | [] => [[]]
  | c :: s' =>
      if N.eqb c sep then [] :: split_on sep s'
      else
        match split_on sep s' with
        | piece :: pieces => (c :: piece) :: pieces
        | [] => [[c]]
        end
  end.

(** [uploaded_doc.name.split('.')[-1]] *)
Definition doc_ext (filename : pystr) : pystr :=
  last (split_on 46 filename) [].

(** Two records that differ at most in Status and Escalated. *)
Definition same_submission (g g' : Grievance) : Prop :=
  ID g' = ID g /\ Name g' = Name g /\ Text g' = Text g
  /\ Category g' = Category g /\ Date g' = Date g
  /\ Priority g' = Priority g /\ Keywords g' = Keywords g
  /\ Image g' = Image g /\ Attachment g' = Attachment g.

(** A character of a plain ASCII text file: a line feed or a printable
    character. *)
Definition ascii_char (c : N) : bool :=
  (N.eqb c 10 || (N.leb 32 c && N.leb c 126))%bool.

(** The inputs of an action are texts, and a submitted date is a date. *)
Definition action_ok (a : action) : bool :=
  match a with
  | Submit grievance_id name grievance_date grievance_text uploads =>
      text grievance_id && text name && valid grievance_date
      && text grievance_text
      && match uploads with
         | Ok (image_path, doc_path) =>
             text_path image_path && text_path doc_path
         | Raise _ => true
         end
  | UpdateStatus _ new_status => text new_status
  | TrackHistory _ => true
  | Feedback _ _ => true
  end.

(** The uploaded files of a submission, if any, were written. *)
Definition uploads_written (a : action) : bool :=
  match a with
  | Submit _ _ _ _ (Raise _) => false
  | _ => true
  end.

(** A submission, a status update eight days later, a search. *)
Definition sample_run : list (date * action) :=
  [ (mkdate 2024 3 9,
     Submit (py "ab12cd34") (py "Asha") (mkdate 2024 3 9)
            (py "urgent water leak not resolved again") (Ok (None, None)));
    (mkdate 2024 3 10,
     Submit (py "ef56ab78") (py "Ravi") (mkdate 2024 3 10)
            (py "street light not working") (Ok (None, None)));
    (mkdate 2024 3 17, UpdateStatus (py "ab12cd34") (py "Pending"));
    (mkdate 2024 3 17, TrackHistory (py "asha")) ].

(* ================================================================== *)
(** * Theorems *)

Section Program.

Context {U : Unicode}.

(** ** Strings *)

Lemma eqb_eq (a b : pystr) : PyStr.eqb a b = true <-> a = b.
Proof.
  revert b; induction a as [|x a IH]; intros [|y b]; simpl;
    try (split; (discriminate || reflexivity)).
  rewrite andb_true_iff, N.eqb_eq, IH.
  split; [intros [-> ->]; reflexivity | intros H; inversion H; auto].
Qed.

Lemma eqb_refl (a : pystr) : PyStr.eqb a a = true.
Proof. apply eqb_eq; reflexivity. Qed.

Lemma eqb_neq (a b : pystr) : PyStr.eqb a b = false <-> a <> b.
Proof.
  rewrite <- eqb_eq. destruct (PyStr.eqb a b); split; congruence.
Qed.

Lemma startswith_spec (p s : pystr) :
  startswith p s = true <-> exists post, s = p ++ post.
Proof.
  revert s; induction p as [|a p IH]; intros s; simpl.
  - split; [intros _; exists s; reflexivity | reflexivity].
  - destruct s as [|b s].
    + split; [discriminate | intros [post H]; discriminate].
    + rewrite andb_true_iff, N.eqb_eq, IH. split.
      * intros [-> [post ->]]. exists post; reflexivity.
      * intros [post H]. inversion H; subst. split; [reflexivity|].
        exists post; reflexivity.
Qed.

Lemma contains_spec (sub s : pystr) :
  contains sub s = true <-> substring sub s.
Proof.
  unfold substring. induction s as [|c s IH]; simpl.
  - rewrite orb_false_r, startswith_spec. split.
    + intros [post H]. exists [], post. exact H.
    + intros [pre [post H]]. destruct pre; simpl in H.
      * exists post; exact H.
      * discriminate.
  - rewrite orb_true_iff, startswith_spec, IH. split.
    + intros [[post H] | [pre [post H]]].
      * exists [], post. exact H.
      * exists (c :: pre), post. simpl. rewrite H. reflexivity.
    + intros [pre [post H]]. destruct pre as [|c' pre]; simpl in H.
      * left. exists post. exact H.
      * right. inversion H; subst. exists pre, post. reflexivity.
Qed.

Lemma distinct_NoDup (l : list pystr) : distinct l = true -> NoDup l.
Proof.
  induction l as [|k l IH]; simpl; intros H; constructor.
  - apply andb_true_iff in H as [H _]. apply negb_true_iff in H.
    intros Hin. assert (existsb (PyStr.eqb k) l = true) as E.
    { apply existsb_exists. exists k. split; [exact Hin | apply eqb_refl]. }
    congruence.
  - apply IH. apply andb_true_iff in H as [_ H]. exact H.
Qed.

(** ** ASCII texts *)

(** On ASCII texts the database does not matter: every one gives what
    [ascii_only] gives. *)
Lemma any_keyword_ascii (keywords : list pystr) (text : pystr) :
  forallb is_ascii text = true ->
  any_keyword keywords text = any_keyword (U := ascii_only) keywords text.
Proof.
  intros H. unfold any_keyword. rewrite (lower_ascii text H). reflexivity.
Qed.

Lemma categorize_grievance_ascii (text : pystr) :
  forallb is_ascii text = true ->
  categorize_grievance text = categorize_grievance (U := ascii_only) text.
Proof.
  intros H. unfold categorize_grievance.
  induction categories as [|[category keywords] rest IH];
    cbn [categorize_loop]; [reflexivity|].
  rewrite (any_keyword_ascii keywords text H), IH. reflexivity.
Qed.

Lemma score_before_return_ascii (text : pystr) :
  forallb is_ascii text = true ->
  score_before_return text = score_before_return (U := ascii_only) text.
Proof.
  intros H. unfold score_before_return, score_loop, unresolved_phrase.
  rewrite (lower_ascii text H). reflexivity.
Qed.

Lemma grievance_score_ascii (text : pystr) :
  forallb is_ascii text = true ->
  grievance_score text = grievance_score (U := ascii_only) text.
Proof.
  intros H. unfold grievance_score.
  rewrite (score_before_return_ascii text H). reflexivity.
Qed.

Lemma no_listed_keyword_ascii (text : pystr) :
  forallb is_ascii text = true ->
  no_listed_keyword text = no_listed_keyword (U := ascii_only) text.
Proof.
  intros H. unfold no_listed_keyword. rewrite (lower_ascii text H).
  reflexivity.
Qed.

Lemma extract_keywords_ascii (text : pystr) :
  forallb is_ascii text = true ->
  extract_keywords text = extract_keywords (U := ascii_only) text.
Proof.
  intros H. unfold extract_keywords. rewrite (lower_ascii text H).
  reflexivity.
Qed.

Lemma scan_month_rest (s : pystr) (m : Z) (rest : pystr) :
  scan_month s = Some (m, rest) -> exists p, s = p ++ rest.
Proof.
  unfold scan_month. destruct s as [|a [|b s]]; [discriminate| |].
  - destruct (digit_in 1 9 a); [|discriminate].
    intros H; inversion H; subst. exists [a]. reflexivity.
  - repeat match goal with
           | |- context [match digit_in ?lo ?hi ?c with _ => _ end] =>
               destruct (digit_in lo hi c)
           end;
      intros H; inversion H; subst;
      first [exists [a; b]; reflexivity | exists [a]; reflexivity].
Qed.

Lemma scan_day_ascii (s : pystr) :
  forallb is_ascii s = true -> scan_day s = scan_day (U := ascii_only) s.
Proof.
  destruct s as [|a [|b s]]; try reflexivity. cbn [forallb]. intros H.
  apply andb_true_iff in H as [_ H]. apply andb_true_iff in H as [Hb _].
  unfold scan_day. rewrite (decimal_ascii b Hb). reflexivity.
Qed.

Lemma strptime_ymd_ascii (s : pystr) :
  forallb is_ascii s = true ->
  strptime_ymd s = strptime_ymd (U := ascii_only) s.
Proof.
  destruct s as [|y1 [|y2 [|y3 [|y4 [|dash rest]]]]]; try reflexivity.
  cbn [forallb]. intros H.
  repeat (let Hc := fresh "Hc" in apply andb_true_iff in H as [Hc H]).
  unfold strptime_ymd. rewrite !decimal_ascii by assumption.
  change (@decimal ascii_only) with digit.
  destruct (scan_month rest) as [[m [|dash' rest']]|] eqn:Em;
    try reflexivity.
  apply scan_month_rest in Em as [p ->].
  rewrite forallb_app in H. apply andb_true_iff in H as [_ H].
  cbn [forallb] in H. apply andb_true_iff in H as [_ H].
  rewrite (scan_day_ascii rest' H). reflexivity.
Qed.

Lemma auto_escalate_ascii (today : date) (g : Grievance) :
  forallb is_ascii (Date g) = true ->
  auto_escalate today g = auto_escalate (U := ascii_only) today g.
Proof.
  intros H. unfold auto_escalate. rewrite (strptime_ymd_ascii _ H).
  reflexivity.
Qed.

(** ** Classifier *)

Lemma any_keyword_spec (keywords : list pystr) (text : pystr) :
  any_keyword keywords text = true <-> some_keyword_in keywords text.
Proof.
  unfold any_keyword, some_keyword_in. rewrite existsb_exists.
  split; intros [k [Hin Hk]]; exists k; split; auto;
    apply contains_spec; exact Hk.
Qed.

Lemma categorize_loop_first_match (items : list (pystr * list pystr))
  (text : pystr) :
  (exists before category keywords after,
      items = before ++ (category, keywords) :: after
      /\ (forall c ks, In (c, ks) before -> ~ some_keyword_in ks text)
      /\ some_keyword_in keywords text
      /\ categorize_loop items text = category)
  \/ ((forall c ks, In (c, ks) items -> ~ some_keyword_in ks text)
      /\ categorize_loop items text = py "Other").
Proof.
  induction items as [|[category keywords] rest IH]; simpl.
  - right. split; [intros c ks [] | reflexivity].
  - destruct (any_keyword keywords text) eqn:E.
    + left. exists [], category, keywords, rest. simpl.
      repeat split; try (intros c ks []). apply any_keyword_spec; exact E.
    + assert (~ some_keyword_in keywords text) as Hno.
      { intros H. apply any_keyword_spec in H. congruence. }
      destruct IH as [(before & c & ks & after & -> & Hb & Hk & Hr) | [Hn Hr]].
      * left. exists ((category, keywords) :: before), c, ks, after.
        repeat split; auto.
        intros c' ks' [Heq | Hin]; [inversion Heq; subst; exact Hno|].
        eapply Hb; exact Hin.
      * right. split; [|exact Hr].
        intros c' ks' [Heq | Hin]; [inversion Heq; subst; exact Hno|].
        eapply Hn; exact Hin.
Qed.


(** ** Scorer *)

Lemma score_loop_weight (keywords : list pystr) (points : Z) (text : pystr)
  (score : Z) :
  score_loop keywords points text score
  = score + list_weight keywords points text.
Proof.
  unfold score_loop, list_weight. revert score.
  induction keywords as [|word keywords IH]; intros score; simpl.
  - lia.
  - rewrite IH. unfold keyword_weight at 2.
    destruct (contains word (lower text)); lia.
Qed.

Lemma list_weight_nonneg (keywords : list pystr) (points : Z) (text : pystr) :
  0 <= points -> 0 <= list_weight keywords points text.
Proof.
  intros Hp. unfold list_weight.
  induction keywords as [|word keywords IH]; simpl; [lia|].
  unfold keyword_weight at 1. destruct (contains word (lower text)); lia.
Qed.

Lemma list_weight_none (keywords : list pystr) (points : Z) (text : pystr) :
  forallb (fun word => negb (contains word (lower text))) keywords = true ->
  list_weight keywords points text = 0.
Proof.
  unfold list_weight. induction keywords as [|word keywords IH]; simpl.
  - reflexivity.
  - intros H. apply andb_true_iff in H as [Hw Hr].
    apply negb_true_iff in Hw. unfold keyword_weight at 1. rewrite Hw.
    rewrite (IH Hr). reflexivity.
Qed.

Lemma score_before_return_sum (text : pystr) :
  score_before_return text
  = list_weight urgent_keywords 40 text
    + list_weight medium_keywords 20 text
    + list_weight low_keywords 5 text
    + (if unresolved_phrase text then 25 else 0).
Proof.
  unfold score_before_return. rewrite !score_loop_weight.
  destruct (unresolved_phrase text); lia.
Qed.

Lemma score_before_return_nonneg (text : pystr) :
  0 <= score_before_return text.
Proof.
  rewrite score_before_return_sum.
  pose proof (list_weight_nonneg urgent_keywords 40 text).
  pose proof (list_weight_nonneg medium_keywords 20 text).
  pose proof (list_weight_nonneg low_keywords 5 text).
  destruct (unresolved_phrase text); lia.
Qed.

(** C2. [grievance_score] is an integer between 50 and 100 for every text:
    the tally of the keyword loops is never negative, the base of 50 is
    added to it, and the sum is clamped at 100. *)
Theorem grievance_score_range (text : pystr) :
  0 <= score_before_return text
  /\ grievance_score text = Z.min (score_before_return text + 50) 100
  /\ 50 <= grievance_score text <= 100.
Proof.
  pose proof (score_before_return_nonneg text) as H.
  unfold grievance_score. repeat split; lia.
Qed.

(** C3. The tally of [grievance_score] is the sum, over the urgent, medium
    and low lists, of the list's weight (40, 20, 5) for each keyword of the
    list that the lowercased text contains, plus the 25 of the unresolved
    phrases.  No list repeats a keyword, so a keyword counts once per list
    whatever the number of its occurrences, and "urgent", "critical" and
    "repair", each in two lists, count in both. *)
Theorem grievance_score_weights (text : pystr) :
  score_before_return text
  = list_weight urgent_keywords 40 text
    + list_weight medium_keywords 20 text
    + list_weight low_keywords 5 text
    + (if unresolved_phrase text then 25 else 0)
  /\ NoDup urgent_keywords /\ NoDup medium_keywords /\ NoDup low_keywords
  /\ In (py "urgent") urgent_keywords /\ In (py "urgent") medium_keywords
  /\ In (py "critical") urgent_keywords /\ In (py "critical") medium_keywords
  /\ In (py "repair") medium_keywords /\ In (py "repair") low_keywords.
Proof.
  split; [apply score_before_return_sum|].
  repeat split; try (apply distinct_NoDup; vm_compute; reflexivity);
    simpl; tauto.
Qed.

(** The tally depends on the text only through which keywords and phrases
    its lowercased form contains. *)
Lemma score_before_return_containment (t1 t2 : pystr) :
  (forall word, contains word (lower t1) = contains word (lower t2)) ->
  score_before_return t1 = score_before_return t2.
Proof.
  intros H. rewrite !score_before_return_sum.
  assert (forall keywords points,
             list_weight keywords points t1 = list_weight keywords points t2)
    as Hw.
  { intros keywords points. unfold list_weight. f_equal.
    apply map_ext. intros w. unfold keyword_weight. rewrite H. reflexivity. }
  unfold unresolved_phrase. rewrite !Hw, !H. reflexivity.
Qed.

(** C4, amended. A text whose lowercased form contains no keyword of the
    three lists and neither "not resolved" nor "again" scores exactly 50. *)
Theorem grievance_score_no_keyword (text : pystr) :
  no_listed_keyword text = true ->
  unresolved_phrase text = false ->
  grievance_score text = 50.
Proof.
  intros Hk Hu. unfold grievance_score. rewrite score_before_return_sum, Hu.
  unfold no_listed_keyword in Hk. rewrite !forallb_app in Hk.
  apply andb_true_iff in Hk as [Hurgent Hk].
  apply andb_true_iff in Hk as [Hmedium Hlow].
  rewrite !list_weight_none by assumption. reflexivity.
Qed.

(** ** Action advisor *)

Lemma dict_get_absent {V : Type} (d : list (pystr * V)) (key : pystr)
  (default : V) :
  ~ In key (map fst d) -> dict_get d key default = default.
Proof.
  induction d as [|[k v] d IH]; simpl; intros H; [reflexivity|].
  destruct (PyStr.eqb k key) eqn:E.
  - apply eqb_eq in E. tauto.
  - apply IH. tauto.
Qed.

(** C6. For each of the four known categories [suggest_action] returns the
    category's urgent phrasing when the priority is above 70 and its routine
    phrasing otherwise, and the two differ; for any other category it
    returns the generic string, whatever the priority. *)
Theorem suggest_action_spec (category : pystr) (priority : Z) :
  (In category known_categories ->
     (priority > 70 ->
        suggest_action category priority = urgent_phrasing category)
     /\ (priority <= 70 ->
           suggest_action category priority = routine_phrasing category)
     /\ urgent_phrasing category <> routine_phrasing category)
  /\ (~ In category known_categories ->
        suggest_action category priority
        = py "Review and assign appropriate department.").
Proof.
  split.
  - intros Hin. unfold suggest_action.
    repeat split.
    + intros Hp. assert ((70 <? priority) = true) as -> by (apply Z.ltb_lt; lia).
      simpl in Hin.
      destruct Hin as [<- | [<- | [<- | [<- | []]]]]; vm_compute; reflexivity.
    + intros Hp. assert ((70 <? priority) = false) as -> by (apply Z.ltb_ge; lia).
      simpl in Hin.
      destruct Hin as [<- | [<- | [<- | [<- | []]]]]; vm_compute; reflexivity.
    + simpl in Hin.
      destruct Hin as [<- | [<- | [<- | [<- | []]]]]; vm_compute; discriminate.
  - intros Hout. unfold suggest_action. apply dict_get_absent.
    simpl. simpl in Hout. tauto.
Qed.

(** ** Escalation rule *)

Lemma auto_escalate_due (today : date) (g : Grievance) (g_date : date) :
  strptime_ymd (Date g) = Some g_date ->
  escalation_due today g_date g ->
  auto_escalate today g = Ok (true, escalated_record g).
Proof.
  intros Hd [Hs Hage]. unfold auto_escalate. rewrite Hd, Hs, eqb_refl.
  assert ((3 <? days_between today g_date) = true) as ->
    by (apply Z.ltb_lt; lia).
  reflexivity.
Qed.

Lemma auto_escalate_not_due (today : date) (g : Grievance) (g_date : date) :
  strptime_ymd (Date g) = Some g_date ->
  ~ escalation_due today g_date g ->
  auto_escalate today g = Ok (false, g).
Proof.
  intros Hd Hn. unfold auto_escalate. rewrite Hd.
  destruct (PyStr.eqb (Status g) (py "Pending")) eqn:Es; [|reflexivity].
  destruct (3 <? days_between today g_date) eqn:Ea; [|reflexivity].
  exfalso. apply Hn. split; [apply eqb_eq; exact Es|].
  apply Z.ltb_lt in Ea. lia.
Qed.

Lemma escalation_due_dec (today g_date : date) (g : Grievance) :
  escalation_due today g_date g \/ ~ escalation_due today g_date g.
Proof.
  unfold escalation_due.
  destruct (PyStr.eqb (Status g) (py "Pending")) eqn:Es.
  - apply eqb_eq in Es. destruct (Z_gt_dec (days_between today g_date) 3).
    + left; auto.
    + right; tauto.
  - apply eqb_neq in Es. right; tauto.
Qed.

(** The rule rewrites the two fields and nothing else. *)
Lemma escalated_record_fields (g : Grievance) :
  Status (escalated_record g) = py "Escalated"
  /\ Escalated (escalated_record g) = py "Yes"
  /\ ID (escalated_record g) = ID g
  /\ Name (escalated_record g) = Name g
  /\ Text (escalated_record g) = Text g
  /\ Category (escalated_record g) = Category g
  /\ Date (escalated_record g) = Date g
  /\ Priority (escalated_record g) = Priority g
  /\ Keywords (escalated_record g) = Keywords g
  /\ Image (escalated_record g) = Image g
  /\ Attachment (escalated_record g) = Attachment g.
Proof. repeat split. Qed.

(** C1. On a record whose Date reads as the calendar date [g_date],
    [auto_escalate] returns true, leaving the record with Status "Escalated"
    and Escalated "Yes", exactly when the Status is "Pending" and today is
    more than 3 days after [g_date]; otherwise it returns false and leaves
    the record as it was. *)
Theorem auto_escalate_spec (today : date) (g : Grievance) (g_date : date) :
  strptime_ymd (Date g) = Some g_date ->
  (escalation_due today g_date g ->
     auto_escalate today g = Ok (true, escalated_record g)
     /\ Status (escalated_record g) = py "Escalated"
     /\ Escalated (escalated_record g) = py "Yes")
  /\ (~ escalation_due today g_date g ->
        auto_escalate today g = Ok (false, g))
  /\ ((exists g', auto_escalate today g = Ok (true, g'))
      <-> escalation_due today g_date g).
Proof.
  intros Hd. split; [|split].
  - intros Hdue. split; [apply (auto_escalate_due _ _ _ Hd Hdue)|].
    split; reflexivity.
  - apply auto_escalate_not_due; exact Hd.
  - split.
    + intros [g' Hg']. destruct (escalation_due_dec today g_date g) as [H|H];
        [exact H|].
      rewrite (auto_escalate_not_due _ _ _ Hd H) in Hg'. discriminate.
    + intros Hdue. exists (escalated_record g).
      apply (auto_escalate_due _ _ _ Hd Hdue).
Qed.

(** What [auto_escalate] does to the Escalated field. *)
Lemma auto_escalate_Escalated (today : date) (g g' : Grievance) (b : bool) :
  auto_escalate today g = Ok (b, g') ->
  (b = false /\ g' = g)
  \/ (b = true /\ g' = escalated_record g /\ Status g = py "Pending").
Proof.
  unfold auto_escalate. destruct (strptime_ymd (Date g)); [|discriminate].
  destruct (PyStr.eqb (Status g) (py "Pending")) eqn:Es; simpl.
  - destruct (3 <? days_between today d); intros H; inversion H; subst; auto.
    right. apply eqb_eq in Es. auto.
  - intros H; inversion H; subst; auto.
Qed.

(** ** Dates written by the program are read back *)

Lemma digit_digit_char (v : Z) :
  0 <= v <= 9 -> digit (digit_char v) = Some v.
Proof.
  intros H. unfold digit, digit_char.
  assert (N.leb 48 (Z.to_N (48 + v)) = true) as -> by (apply N.leb_le; lia).
  assert (N.leb (Z.to_N (48 + v)) 57 = true) as -> by (apply N.leb_le; lia).
  cbn [andb]. f_equal. lia.
Qed.

Lemma decimal_digit_char (v : Z) :
  0 <= v <= 9 -> decimal (digit_char v) = Some v.
Proof.
  intros H. rewrite decimal_ascii; [apply digit_digit_char; exact H|].
  unfold is_ascii, digit_char. apply N.ltb_lt. lia.
Qed.

Lemma scan_month_two_digits (m : Z) (rest : pystr) :
  1 <= m <= 12 ->
  scan_month (digit_char (m / 10) :: digit_char (m mod 10) :: rest)
  = Some (m, rest).
Proof.
  intros H.
  assert (m = 1 \/ m = 2 \/ m = 3 \/ m = 4 \/ m = 5 \/ m = 6 \/ m = 7
          \/ m = 8 \/ m = 9 \/ m = 10 \/ m = 11 \/ m = 12) as Hm by lia.
  repeat (destruct Hm as [-> | Hm]; [reflexivity|]). subst. reflexivity.
Qed.

Lemma scan_day_two_digits (d : Z) :
  1 <= d <= 31 ->
  scan_day [digit_char (d / 10); digit_char (d mod 10)] = Some (d, []).
Proof.
  intros H.
  assert (d = 1 \/ d = 2 \/ d = 3 \/ d = 4 \/ d = 5 \/ d = 6 \/ d = 7
          \/ d = 8 \/ d = 9 \/ d = 10 \/ d = 11 \/ d = 12 \/ d = 13
          \/ d = 14 \/ d = 15 \/ d = 16 \/ d = 17 \/ d = 18 \/ d = 19
          \/ d = 20 \/ d = 21 \/ d = 22 \/ d = 23 \/ d = 24 \/ d = 25
          \/ d = 26 \/ d = 27 \/ d = 28 \/ d = 29 \/ d = 30 \/ d = 31)
    as Hd by lia.
  assert (forall u v,
             1 <= u <= 2 -> 0 <= v <= 9 ->
             scan_day [digit_char u; digit_char v] = Some (10 * u + v, []))
    as Htens.
  { intros u v Hu Hv. unfold scan_day. rewrite (decimal_digit_char v Hv).
    assert (u = 1 \/ u = 2) as [-> | ->] by lia; reflexivity. }
  repeat (destruct Hd as [-> | Hd];
          [first [reflexivity | apply Htens; vm_compute; split; discriminate]
          |]).
  subst. reflexivity.
Qed.

Lemma days_in_month_le_31 (y m : Z) : days_in_month y m <= 31.
Proof.
  unfold days_in_month. destruct ((m =? 2) && is_leap y); [lia|].
  destruct (Z.to_nat m) as [|[|[|[|[|[|[|[|[|[|[|[|[|n]]]]]]]]]]]]];
    simpl; try lia.
  destruct n; simpl; lia.
Qed.

Lemma strptime_ymd_digits (a b c d m dd : Z) :
  0 <= a <= 9 -> 0 <= b <= 9 -> 0 <= c <= 9 -> 0 <= d <= 9 ->
  1 <= m <= 12 -> 1 <= dd <= 31 ->
  strptime_ymd
    [digit_char a; digit_char b; digit_char c; digit_char d; 45%N;
     digit_char (m / 10); digit_char (m mod 10); 45%N;
     digit_char (dd / 10); digit_char (dd mod 10)]
  = if valid_ymd (1000 * a + 100 * b + 10 * c + d) m dd
    then Some (mkdate (1000 * a + 100 * b + 10 * c + d) m dd)
    else None.
Proof.
  intros Ha Hb Hc Hd Hm Hdd. unfold strptime_ymd.
  rewrite !decimal_digit_char by assumption.
  change (N.eqb 45 45) with true. cbv iota.
  rewrite scan_month_two_digits by assumption.
  rewrite scan_day_two_digits by assumption. reflexivity.
Qed.

(** [strptime] reads back what [str] wrote for a date. *)
Lemma strptime_isoformat (d : date) :
  valid d = true -> strptime_ymd (isoformat d) = Some d.
Proof.
  destruct d as [y m dd]. unfold valid. cbn [year month day]. intros H.
  pose proof H as Hv. unfold valid_ymd in H.
  repeat (apply andb_true_iff in H as [H ?]).
  repeat match goal with
         | E : (_ <=? _) = true |- _ => apply Z.leb_le in E
         end.
  pose proof (days_in_month_le_31 y m).
  assert (1 <= y <= 9999) as H7 by lia.
  assert (0 <= y / 1000 <= 9)
    by (split; [apply Z.div_pos; lia
               | apply Z.lt_succ_r, Z.div_lt_upper_bound; lia]).
  pose proof (Z.mod_pos_bound (y / 100) 10 ltac:(lia)).
  pose proof (Z.mod_pos_bound (y / 10) 10 ltac:(lia)).
  pose proof (Z.mod_pos_bound y 10 ltac:(lia)).
  unfold isoformat. cbn [year month day].
  rewrite strptime_ymd_digits by lia.
  assert (1000 * (y / 1000) + 100 * ((y / 100) mod 10)
          + 10 * ((y / 10) mod 10) + y mod 10 = y) as ->.
  { clear - H7. Z.to_euclidean_division_equations. lia. }
  rewrite Hv. reflexivity.
Qed.

(** ** The Update Status button *)

Lemma update_loop_nth (today : date) (selected_id new_status : pystr)
  (grievances grievances' : list Grievance) :
  update_loop today selected_id new_status grievances = Ok grievances' ->
  List.length grievances' = List.length grievances
  /\ forall i g, nth_error grievances i = Some g ->
       exists g', nth_error grievances' i = Some g'
         /\ (ID g <> selected_id -> g' = g)
         /\ (ID g = selected_id ->
               exists b,
                 auto_escalate today (set_Status new_status g) = Ok (b, g')).
Proof.
  revert grievances'.
  induction grievances as [|g0 rest IH]; intros grievances'; simpl.
  - intros H; inversion H; subst. split; [reflexivity|].
    intros [|i] g Hg; discriminate.
  - destruct (PyStr.eqb (ID g0) selected_id) eqn:Eid.
    + destruct (auto_escalate today (set_Status new_status g0))
        as [[b g1]|e] eqn:Ea; [|discriminate].
      destruct (update_loop today selected_id new_status rest)
        as [rest'|e]; [|discriminate].
      intros H; inversion H; subst. destruct (IH rest' eq_refl) as [Hl Hn].
      split; [simpl; congruence|].
      intros [|i] g Hg; simpl in *.
      * inversion Hg; subst. exists g1. split; [reflexivity|].
        apply eqb_eq in Eid. split; [tauto|]. intros _. exists b. exact Ea.
      * apply Hn; exact Hg.
    + destruct (update_loop today selected_id new_status rest)
        as [rest'|e]; [|discriminate].
      intros H; inversion H; subst. destruct (IH rest' eq_refl) as [Hl Hn].
      split; [simpl; congruence|].
      intros [|i] g Hg; simpl in *.
      * inversion Hg; subst. exists g. split; [reflexivity|].
        apply eqb_neq in Eid. split; [reflexivity|tauto].
      * apply Hn; exact Hg.
Qed.

Lemma update_loop_ok (today : date) (selected_id new_status : pystr)
  (grievances : list Grievance) :
  (forall g, In g grievances -> ID g = selected_id ->
             strptime_ymd (Date g) <> None) ->
  exists grievances',
    update_loop today selected_id new_status grievances = Ok grievances'.
Proof.
  induction grievances as [|g0 rest IH]; intros Hd; simpl.
  - exists []; reflexivity.
  - destruct IH as [rest' Hr].
    { intros g Hin. apply Hd. right; exact Hin. }
    rewrite Hr. destruct (PyStr.eqb (ID g0) selected_id) eqn:Eid.
    + apply eqb_eq in Eid. specialize (Hd g0 (or_introl eq_refl) Eid).
      unfold auto_escalate. simpl Date.
      destruct (strptime_ymd (Date g0)) as [d|]; [|congruence].
      match goal with
      | |- context [if ?c then _ else _] => destruct c
      end; eexists; reflexivity.
    + eexists; reflexivity.
Qed.

(** C10. The Update Status button assigns the chosen status to every record
    with the selected ID and then runs [auto_escalate] on it.  So choosing
    "Pending" for a record dated more than 3 days before today stores it
    with Status "Escalated" and Escalated "Yes", and choosing "Resolved" or
    "Escalated" stores the chosen status and leaves Escalated as it was,
    whatever the record's age.  The records with another ID are stored
    unchanged. *)
Theorem update_status_assign_then_escalate (today : date)
  (selected_id new_status : pystr) (grievances : list Grievance)
  (fs : filesystem) :
  (forall g, In g grievances -> ID g = selected_id ->
             strptime_ymd (Date g) <> None) ->
  exists grievances',
    update_status today selected_id new_status grievances fs
    = Ok (grievances', Some (dumps 4 (json_of_grievances grievances')))
    /\ List.length grievances' = List.length grievances
    /\ forall i g, nth_error grievances i = Some g ->
         exists g', nth_error grievances' i = Some g'
           /\ (ID g <> selected_id -> g' = g)
           /\ (ID g = selected_id ->
                 (exists b,
                     auto_escalate today (set_Status new_status g)
                     = Ok (b, g'))
                 /\ forall g_date, strptime_ymd (Date g) = Some g_date ->
                      (new_status = py "Pending" ->
                       days_between today g_date > 3 ->
                       g' = escalated_record (set_Status (py "Pending") g)
                       /\ Status g' = py "Escalated"
                       /\ Escalated g' = py "Yes")
                      /\ (new_status = py "Pending" ->
                          days_between today g_date <= 3 ->
                          g' = set_Status (py "Pending") g)
                      /\ (new_status = py "Resolved"
                          \/ new_status = py "Escalated" ->
                          g' = set_Status new_status g
                          /\ Escalated g' = Escalated g)).
Proof.
  intros Hd.
  destruct (update_loop_ok today selected_id new_status grievances Hd)
    as [grievances' Hu].
  exists grievances'. unfold update_status, save_grievances. rewrite Hu.
  split; [reflexivity|].
  destruct (update_loop_nth _ _ _ _ _ Hu) as [Hl Hn]. split; [exact Hl|].
  intros i g Hg. destruct (Hn i g Hg) as (g' & Hg' & Hother & Hsel).
  exists g'. split; [exact Hg'|]. split; [exact Hother|].
  intros Hid. destruct (Hsel Hid) as [b Hb]. split; [exists b; exact Hb|].
  intros g_date Hdate.
  assert (strptime_ymd (Date (set_Status new_status g)) = Some g_date)
    as Hdate' by exact Hdate.
  split; [|split].
  - intros -> Hage.
    rewrite (auto_escalate_due today _ g_date Hdate') in Hb
      by (split; [reflexivity | exact Hage]).
    inversion Hb; subst. repeat split.
  - intros -> Hage.
    rewrite (auto_escalate_not_due today _ g_date Hdate') in Hb
      by (intros [_ H]; lia).
    inversion Hb; subst. reflexivity.
  - intros Hns.
    rewrite (auto_escalate_not_due today _ g_date Hdate') in Hb.
    + inversion Hb; subst. split; reflexivity.
    + intros [Hs _]. simpl in Hs.
      destruct Hns as [-> | ->]; vm_compute in Hs; discriminate.
Qed.

(** ** The Escalated field over the program's operations *)

Lemma perform_update_Escalated (today : date) (selected_id new_status : pystr)
  (grievances grievances' : list Grievance) :
  update_loop today selected_id new_status grievances = Ok grievances' ->
  forall i g, nth_error grievances i = Some g ->
    exists g', nth_error grievances' i = Some g'
      /\ (Escalated g' = Escalated g
          \/ (Escalated g' = py "Yes"
              /\ exists g0, auto_escalate today g0 = Ok (true, g'))).
Proof.
  intros Hu i g Hg. destruct (update_loop_nth _ _ _ _ _ Hu) as [_ Hn].
  destruct (Hn i g Hg) as (g' & Hg' & Hother & Hsel).
  exists g'. split; [exact Hg'|].
  destruct (PyStr.eqb (ID g) selected_id) eqn:Eid.
  - apply eqb_eq in Eid. destruct (Hsel Eid) as [b Hb].
    destruct (auto_escalate_Escalated _ _ _ _ Hb)
      as [[-> ->] | (-> & -> & _)].
    + left; reflexivity.
    + right. split; [reflexivity|].
      exists (set_Status new_status g). exact Hb.
  - apply eqb_neq in Eid. rewrite (Hother Eid). left; reflexivity.
Qed.

(** A submission that does not raise leaves the collection and the file, or
    appends one record made from the inputs and saves. *)
Lemma submit_grievance_Ok (grievance_id name : pystr) (grievance_date : date)
  (grievance_text : pystr) (uploads : result (option pystr * option pystr))
  (grievances grievances' : list Grievance) (fs fs' : filesystem) :
  submit_grievance grievance_id name grievance_date grievance_text uploads
                   grievances fs = Ok (grievances', fs') ->
  (grievances' = grievances /\ fs' = fs)
  \/ (exists image_path doc_path,
        uploads = Ok (image_path, doc_path)
        /\ grievances'
           = grievances ++ [new_grievance grievance_id name grievance_date
                                          grievance_text image_path doc_path]
        /\ fs' = save_grievances (json_of_grievances grievances') fs).
Proof.
  unfold submit_grievance.
  destruct name as [|c name]; [|destruct grievance_text as [|c' gtext]];
    try (intros H; inversion H; subst; left; split; reflexivity).
  destruct uploads as [[image_path doc_path]|e]; [|discriminate].
  intros H; inversion H; subst. right. exists image_path, doc_path.
  repeat split.
Qed.

Lemma perform_Escalated (today : date) (a : action)
  (grievances grievances' : list Grievance) (fs fs' : filesystem) :
  perform today a (grievances, fs) = Ok (grievances', fs') ->
  (forall i g, nth_error grievances i = Some g ->
     exists g', nth_error grievances' i = Some g'
       /\ (Escalated g' = Escalated g
           \/ (Escalated g' = py "Yes"
               /\ exists g0, auto_escalate today g0 = Ok (true, g'))))
  /\ (forall i g', nth_error grievances i = None ->
        nth_error grievances' i = Some g' -> Escalated g' = py "No").
Proof.
  destruct a as [gid name gdate gtext uploads | sel new | name | name fb];
    cbn [perform].
  - intros H.
    apply submit_grievance_Ok in H as [[-> ->] | (img & doc & _ & -> & _)];
      [split; [intros i g Hg; exists g; auto
              | intros i g' Hn Hs; congruence]|].
    split.
    + intros i g Hg. exists g. split; [|left; reflexivity].
      rewrite nth_error_app1; [exact Hg|].
      apply nth_error_Some. congruence.
    + intros i g' Hn Hs. apply nth_error_None in Hn.
      rewrite nth_error_app2 in Hs by exact Hn.
      destruct (i - List.length grievances)%nat as [|k]; simpl in Hs.
      * inversion Hs; subst. reflexivity.
      * destruct k; discriminate.
  - unfold update_status.
    destruct (update_loop today sel new grievances) as [gs|e] eqn:Hu;
      [|discriminate].
    intros H; inversion H; subst; clear H.
    split; [apply (perform_update_Escalated _ _ _ _ _ Hu)|].
    intros i g' Hn Hs. destruct (update_loop_nth _ _ _ _ _ Hu) as [Hl _].
    apply nth_error_None in Hn.
    assert (nth_error grievances' i = None) by (apply nth_error_None; lia).
    congruence.
  - intros H; inversion H; subst.
    split; [intros i g Hg; exists g; auto | intros i g' Hn Hs; congruence].
  - intros H; inversion H; subst.
    split; [intros i g Hg; exists g; auto | intros i g' Hn Hs; congruence].
Qed.

Lemma perform_all_Escalated (run : list (date * action))
  (state state' : list Grievance * filesystem) :
  perform_all run state = Ok state' ->
  forall i g, nth_error (fst state) i = Some g ->
    exists g', nth_error (fst state') i = Some g'
      /\ (Escalated g' = Escalated g \/ Escalated g' = py "Yes").
Proof.
  revert state.
  induction run as [|[today a] run IH]; intros state; cbn [perform_all].
  - intros H i g Hg. inversion H; subst. exists g. auto.
  - destruct (perform today a state) as [[mid fs1]|e] eqn:Ep; [|discriminate].
    intros Hrun i g Hg. destruct state as [grievances fs]. cbn [fst] in Hg.
    destruct (perform_Escalated _ _ _ _ _ _ Ep) as [Hkeep _].
    destruct (Hkeep i g Hg) as (g1 & Hg1 & H1).
    destruct (IH (mid, fs1) Hrun i g1 Hg1) as (g' & Hg' & H').
    exists g'. split; [exact Hg'|].
    destruct H' as [H' | H']; [|right; exact H'].
    destruct H1 as [H1 | [H1 _]]; [left | right]; congruence.
Qed.

(** C9. Over record creation, the status update and [auto_escalate], the
    Escalated field of a record either keeps its value or becomes "Yes";
    it becomes "Yes" only in a record that [auto_escalate] returned true
    for; a record that is created has "No"; and over any run of actions a
    record whose Escalated is "Yes" keeps "Yes". *)
Theorem escalated_only_no_to_yes :
  (forall today g b g',
      auto_escalate today g = Ok (b, g') ->
      Escalated g' = Escalated g \/ (b = true /\ Escalated g' = py "Yes"))
  /\ (forall today a grievances fs grievances' fs',
        perform today a (grievances, fs) = Ok (grievances', fs') ->
        (forall i g, nth_error grievances i = Some g ->
           exists g', nth_error grievances' i = Some g'
             /\ (Escalated g' = Escalated g
                 \/ (Escalated g' = py "Yes"
                     /\ exists g0, auto_escalate today g0 = Ok (true, g'))))
        /\ (forall i g', nth_error grievances i = None ->
              nth_error grievances' i = Some g' -> Escalated g' = py "No"))
  /\ (forall run grievances fs grievances' fs',
        perform_all run (grievances, fs) = Ok (grievances', fs') ->
        forall i g, nth_error grievances i = Some g ->
          exists g', nth_error grievances' i = Some g'
            /\ (Escalated g' = Escalated g \/ Escalated g' = py "Yes")
            /\ (Escalated g = py "Yes" -> Escalated g' = py "Yes")).
Proof.
  split; [|split].
  - intros today g b g' H.
    destruct (auto_escalate_Escalated _ _ _ _ H) as [[-> ->] | (-> & -> & _)].
    + left; reflexivity.
    + right; split; reflexivity.
  - intros today a grievances fs grievances' fs'. apply perform_Escalated.
  - intros run grievances fs grievances' fs' Hrun i g Hg.
    destruct (perform_all_Escalated _ _ _ Hrun i g Hg) as (g' & Hg' & H).
    exists g'. split; [exact Hg'|]. split; [exact H|].
    intros Hy. destruct H as [H | H]; congruence.
Qed.

(** ** The JSON codec: strings *)

Lemma hex_val_hex_char (d : N) :
  (d < 16)%N -> hex_val (hex_char d) = Some d.
Proof.
  intros H.
  assert (d = 0 \/ d = 1 \/ d = 2 \/ d = 3 \/ d = 4 \/ d = 5 \/ d = 6
          \/ d = 7 \/ d = 8 \/ d = 9 \/ d = 10 \/ d = 11 \/ d = 12
          \/ d = 13 \/ d = 14 \/ d = 15)%N as Hd by lia.
  repeat (destruct Hd as [-> | Hd]; [reflexivity|]). subst. reflexivity.
Qed.

Lemma hex4_u_escape (n : N) :
  (n < 65536)%N ->
  hex4 (hex_char (n / 4096)) (hex_char ((n / 256) mod 16))
       (hex_char ((n / 16) mod 16)) (hex_char (n mod 16)) = Some n.
Proof.
  intros H. unfold hex4.
  rewrite !hex_val_hex_char
    by (try (apply N.mod_lt; lia); apply N.Div0.div_lt_upper_bound; lia).
  f_equal. clear H. zify. Z.to_euclidean_division_equations. lia.
Qed.

Lemma lor_shiftl_low (hi lo : N) (k : N) :
  (lo < 2 ^ k)%N -> N.lor (N.shiftl hi k) lo = (hi * 2 ^ k + lo)%N.
Proof.
  intros H. rewrite <- N.shiftl_mul_pow2.
  rewrite <- N.lxor_lor, <- N.add_nocarry_lxor; try reflexivity.
  - apply N.bits_inj. intros i. rewrite N.land_spec, N.bits_0.
    destruct (N.ltb_spec i k) as [Hi | Hi].
    + rewrite N.shiftl_spec_low by exact Hi. reflexivity.
    + destruct (N.eq_dec lo 0) as [-> | Hlo].
      * rewrite N.bits_0. apply andb_false_r.
      * rewrite (N.bits_above_log2 lo i), andb_false_r; [reflexivity|].
        apply N.log2_lt_pow2 in H; lia.
  - apply N.bits_inj. intros i. rewrite N.land_spec, N.bits_0.
    destruct (N.ltb_spec i k) as [Hi | Hi].
    + rewrite N.shiftl_spec_low by exact Hi. reflexivity.
    + destruct (N.eq_dec lo 0) as [-> | Hlo].
      * rewrite N.bits_0. apply andb_false_r.
      * rewrite (N.bits_above_log2 lo i), andb_false_r; [reflexivity|].
        apply N.log2_lt_pow2 in H; lia.
Qed.

Lemma land_low_bits (n : N) : (n < 1024)%N -> N.land n 1023 = n.
Proof.
  intros H. change 1023%N with (N.ones 10). rewrite N.land_ones.
  apply N.mod_small. exact H.
Qed.

(** The pair of surrogates the encoder writes for a code point beyond the
    basic plane, and the code point the decoder joins them to. *)
Lemma surrogates (c : N) :
  (65536 <= c < 1114112)%N ->
  let n := (c - 65536)%N in
  let s1 := N.lor 55296 (N.land (N.shiftr n 10) 1023) in
  let s2 := N.lor 56320 (N.land n 1023) in
  s1 = (55296 + n / 1024)%N /\ s2 = (56320 + n mod 1024)%N
  /\ is_high_surrogate s1 = true /\ is_low_surrogate s2 = true
  /\ join_surrogates s1 s2 = c.
Proof.
  intros H n s1 s2.
  assert (n < 1048576)%N as Hn by (unfold n; lia).
  assert (n / 1024 < 1024)%N as Hhi
    by (apply N.Div0.div_lt_upper_bound; lia).
  assert (n mod 1024 < 1024)%N as Hlo by (apply N.mod_lt; lia).
  assert (s1 = (55296 + n / 1024)%N) as E1.
  { unfold s1. rewrite N.shiftr_div_pow2. change (2 ^ 10)%N with 1024%N.
    rewrite land_low_bits by exact Hhi.
    change 55296%N with (N.shiftl 54 10).
    rewrite lor_shiftl_low by (change (2 ^ 10)%N with 1024%N; exact Hhi).
    reflexivity. }
  assert (s2 = (56320 + n mod 1024)%N) as E2.
  { unfold s2. change 1023%N with (N.ones 10). rewrite N.land_ones.
    change (2 ^ 10)%N with 1024%N.
    change 56320%N with (N.shiftl 55 10).
    rewrite lor_shiftl_low by (change (2 ^ 10)%N with 1024%N; exact Hlo).
    reflexivity. }
  assert (n + 65536 = c)%N as Hc by (unfold n; lia).
  clearbody s1 s2 n.
  pose proof (N.le_0_l (n / 1024)). pose proof (N.le_0_l (n mod 1024)).
  split; [exact E1|]. split; [exact E2|].
  split; [|split].
  - unfold is_high_surrogate. rewrite E1.
    apply andb_true_iff; split; apply N.leb_le; lia.
  - unfold is_low_surrogate. rewrite E2.
    apply andb_true_iff; split; apply N.leb_le; lia.
  - unfold join_surrogates. rewrite E1, E2.
    replace (55296 + n / 1024 - 55296)%N with (n / 1024)%N by lia.
    replace (56320 + n mod 1024 - 56320)%N with (n mod 1024)%N by lia.
    rewrite lor_shiftl_low by (change (2 ^ 10)%N with 1024%N; exact Hlo).
    change (2 ^ 10)%N with 1024%N.
    pose proof (N.div_mod n 1024 ltac:(lia)) as Hdm. lia.
Qed.

Lemma scanstring_escape_char (c : N) (tail : pystr) :
  scalar_value c = true ->
  scanstring (escape_char c ++ tail) = push c (scanstring tail).
Proof.
  intros Hc. unfold escape_char.
  destruct (N.eqb_spec c 34) as [-> | H34]; [reflexivity|].
  destruct (N.eqb_spec c 92) as [-> | H92]; [reflexivity|].
  destruct (N.eqb_spec c 8) as [-> | H8]; [reflexivity|].
  destruct (N.eqb_spec c 12) as [-> | H12]; [reflexivity|].
  destruct (N.eqb_spec c 10) as [-> | H10]; [reflexivity|].
  destruct (N.eqb_spec c 13) as [-> | H13]; [reflexivity|].
  destruct (N.eqb_spec c 9) as [-> | H9]; [reflexivity|].
  destruct (N.leb 32 c && N.leb c 126)%bool eqn:Eprint.
  - apply andb_true_iff in Eprint as [Hlo Hhi]. apply N.leb_le in Hlo.
    simpl. 
    destruct (N.eqb_spec c 34); [contradiction|].
    destruct (N.eqb_spec c 92); [contradiction|].
    destruct (N.ltb_spec c 32); [lia|]. reflexivity.
  - destruct (N.ltb_spec c 65536) as [Hbmp | Hbig].
    + unfold u_escape. cbn [app scanstring]. 
      change (N.eqb 92 34) with false. change (N.eqb 92 92) with true.
      change (N.eqb 117 117) with true. cbv iota.
      rewrite hex4_u_escape by exact Hbmp.
      assert (is_high_surrogate c = false) as ->.
      { unfold scalar_value in Hc. unfold is_high_surrogate.
        apply orb_true_iff in Hc as [Hc | Hc].
        - apply N.ltb_lt in Hc. apply andb_false_iff. left.
          apply N.leb_gt. exact Hc.
        - apply andb_true_iff in Hc as [Hc _]. apply N.leb_le in Hc.
          apply andb_false_iff. right. apply N.leb_gt. lia. }
      reflexivity.
    + assert (65536 <= c < 1114112)%N as Hrange.
      { split; [exact Hbig|]. unfold scalar_value in Hc.
        apply orb_true_iff in Hc as [Hc | Hc].
        - apply N.ltb_lt in Hc. lia.
        - apply andb_true_iff in Hc as [_ Hc]. apply N.ltb_lt in Hc. exact Hc. }
      destruct (surrogates c Hrange) as (E1 & E2 & Hh & Hl & Hj).
      cbv zeta.
      set (s1 := N.lor 55296 (N.land (N.shiftr (c - 65536) 10) 1023)) in *.
      set (s2 := N.lor 56320 (N.land (c - 65536) 1023)) in *.
      unfold u_escape. cbn [app scanstring].
      change (N.eqb 92 34) with false. change (N.eqb 92 92) with true.
      change (N.eqb 117 117) with true. cbv iota.
      rewrite hex4_u_escape by (rewrite E1; pose proof (N.Div0.div_lt_upper_bound (c - 65536) 1024 1024); lia).
      rewrite Hh. cbn [andb].
      rewrite hex4_u_escape by (rewrite E2; pose proof (N.mod_lt (c - 65536) 1024); lia).
      rewrite Hl, Hj. reflexivity.
Qed.

Lemma scanstring_escaped (s : pystr) (rest : pystr) :
  text s = true ->
  scanstring (flat_map escape_char s ++ 34%N :: rest) = Some (s, rest).
Proof.
  unfold text. induction s as [|c s IH]; simpl; intros H.
  - reflexivity.
  - apply andb_true_iff in H as [Hc Hs].
    rewrite <- app_assoc, scanstring_escape_char by exact Hc.
    rewrite (IH Hs). reflexivity.
Qed.
(** ** The JSON codec: integers *)

Lemma digits_value_snoc (ds : pystr) (c : N) :
  digits_value (ds ++ [c]) = (10 * digits_value ds + (c - 48))%N.
Proof. unfold digits_value. rewrite fold_left_app. reflexivity. Qed.

Lemma digits_from_spec (fuel : nat) :
  forall n acc,
    (n < 10 ^ N.of_nat fuel)%N -> fuel <> O ->
    exists d ds,
      digits_from fuel n acc = (d :: ds) ++ acc
      /\ all_digits (d :: ds)
      /\ digits_value (d :: ds) = n
      /\ ((0 < n)%N -> d <> 48%N).
Proof.
  induction fuel as [|fuel IH]; intros n acc Hn Hf; [congruence|].
  cbn [digits_from].
  assert (n mod 10 < 10)%N as Hm by (apply N.mod_lt; lia).
  pose proof (N.div_mod n 10 ltac:(lia)) as Hdm.
  assert (n / 10 < 10 ^ N.of_nat fuel)%N as Hq.
  { apply N.Div0.div_lt_upper_bound.
    rewrite Nat2N.inj_succ, N.pow_succ_r' in Hn. exact Hn. }
  set (q := (n / 10)%N) in *. set (r := (n mod 10)%N) in *.
  clearbody q r.
  assert (is_digit (48 + r) = true) as Hdig.
  { unfold is_digit. apply andb_true_iff; split; apply N.leb_le; lia. }
  destruct (N.eqb_spec q 0) as [Hz | Hnz].
  - exists (48 + r)%N, []. split; [reflexivity|]. split.
    + constructor; [exact Hdig | constructor].
    + split; [|lia]. unfold digits_value. cbn [fold_left]. lia.
  - assert (fuel <> O) as Hf'.
    { intros ->. simpl in Hq. lia. }
    destruct (IH q ((48 + r)%N :: acc) Hq Hf')
      as (d & ds & Hds & Hall & Hval & Hhead).
    exists d, (ds ++ [(48 + r)%N]). split.
    + rewrite Hds. simpl. rewrite <- app_assoc. reflexivity.
    + split; [|split].
      * change (d :: ds ++ [(48 + r)%N]) with ((d :: ds) ++ [(48 + r)%N]).
        apply Forall_app. split; [exact Hall|].
        constructor; [exact Hdig | constructor].
      * change (d :: ds ++ [(48 + r)%N]) with ((d :: ds) ++ [(48 + r)%N]).
        rewrite digits_value_snoc, Hval. lia.
      * intros _. apply Hhead. lia.
Qed.

Lemma digits_spec (n : N) :
  exists d ds,
    digits n = d :: ds /\ all_digits (d :: ds)
    /\ digits_value (d :: ds) = n /\ ((0 < n)%N -> d <> 48%N).
Proof.
  unfold digits.
  destruct (digits_from_spec (S (N.to_nat (N.log2 n))) n []) as
    (d & ds & H & Hrest); [|congruence|].
  - rewrite Nat2N.inj_succ, N2Nat.id.
    destruct (N.eq_dec n 0) as [-> | Hn]; [reflexivity|].
    apply N.lt_le_trans with (2 ^ N.succ (N.log2 n))%N.
    + apply N.log2_spec. lia.
    + apply N.pow_le_mono_l. lia.
  - exists d, ds. rewrite app_nil_r in H. split; [exact H | exact Hrest].
Qed.

Lemma span_digits_app (ds rest : pystr) :
  all_digits ds -> number_end rest = true ->
  span_digits (ds ++ rest) = (ds, rest).
Proof.
  intros Hall Hend. induction Hall as [|c ds Hc Hall IH]; cbn [app span_digits].
  - destruct rest as [|c rest]; [reflexivity|]. cbn [number_end] in Hend.
    apply negb_true_iff in Hend. rewrite !orb_false_iff in Hend.
    destruct Hend as [[[Hc _] _] _]. cbn [span_digits]. rewrite Hc.
    reflexivity.
  - rewrite Hc, IH. reflexivity.
Qed.

Lemma match_frac_end (rest : pystr) :
  number_end rest = true -> match_frac rest = ([], rest).
Proof.
  destruct rest as [|c rest]; [reflexivity|]. cbn [number_end match_frac].
  intros H. apply negb_true_iff in H. rewrite !orb_false_iff in H.
  destruct H as [[[_ ->] _] _]. reflexivity.
Qed.

Lemma match_exp_end (rest : pystr) :
  number_end rest = true -> match_exp rest = ([], rest).
Proof.
  destruct rest as [|c rest]; [reflexivity|]. cbn [number_end match_exp].
  intros H. apply negb_true_iff in H. rewrite !orb_false_iff in H.
  destruct H as [[[_ _] ->] ->]. reflexivity.
Qed.

Lemma is_digit_range (c : N) : is_digit c = true -> (48 <= c <= 57)%N.
Proof.
  unfold is_digit. intros H. apply andb_true_iff in H as [H1 H2].
  apply N.leb_le in H1, H2. lia.
Qed.

Lemma scan_number_int_repr (z : Z) (rest : pystr) :
  number_end rest = true ->
  scan_number (int_repr z ++ rest) = Some (JInt z, rest).
Proof.
  intros Hend. unfold scan_number.
  destruct z as [|p|p]; unfold int_repr.
  - simpl. rewrite match_frac_end, match_exp_end by exact Hend. reflexivity.
  - destruct (digits_spec (N.pos p)) as (d & ds & -> & Hall & Hval & Hhead).
    pose proof (Forall_inv Hall) as Hd. pose proof (Forall_inv_tail Hall) as Hds.
    pose proof (is_digit_range d Hd) as Hr.
    unfold match_integer. cbn [app].
    destruct (N.eqb_spec d 45) as [E|_]; [lia|].
    destruct (N.eqb_spec d 48) as [E|_]; [apply Hhead in E; [destruct E | lia]|].
    rewrite Hd, (span_digits_app ds rest Hds Hend). cbn [app].
    rewrite match_frac_end, match_exp_end by exact Hend.
    unfold parse_int. destruct (N.eqb_spec d 45) as [E|_]; [lia|].
    rewrite Hval. reflexivity.
  - destruct (digits_spec (N.pos p)) as (d & ds & -> & Hall & Hval & Hhead).
    pose proof (Forall_inv Hall) as Hd. pose proof (Forall_inv_tail Hall) as Hds.
    pose proof (is_digit_range d Hd) as Hr.
    unfold match_integer. cbn [app]. change (N.eqb 45 45) with true. cbv iota.
    destruct (N.eqb_spec d 48) as [E|_]; [apply Hhead in E; [destruct E | lia]|].
    rewrite Hd, (span_digits_app ds rest Hds Hend). cbn [app].
    rewrite match_frac_end, match_exp_end by exact Hend.
    unfold parse_int. change (N.eqb 45 45) with true. cbv iota.
    rewrite Hval. reflexivity.
Qed.

(** The first character of the text of an integer. *)
Lemma int_repr_head (z : Z) :
  exists c tl, int_repr z = c :: tl /\ (is_digit c = true \/ c = 45%N).
Proof.
  destruct z as [|p|p]; unfold int_repr.
  - exists 48%N, []. auto.
  - destruct (digits_spec (N.pos p)) as (d & ds & -> & Hall & _).
    exists d, ds. split; [reflexivity|]. left. exact (Forall_inv Hall).
  - exists 45%N, (digits (N.pos p)). auto.
Qed.

Lemma strip_mismatch (a : N) (p : pystr) (c : N) (tl : pystr) :
  a <> c -> strip (a :: p) (c :: tl) = None.
Proof.
  intros H. cbn [strip]. destruct (N.eqb_spec a c); congruence.
Qed.

Lemma scan_atom_int_repr (z : Z) (rest : pystr) :
  number_end rest = true ->
  scan_atom (int_repr z ++ rest) = Some (JInt z, rest).
Proof.
  intros Hend. unfold scan_atom.
  rewrite (scan_number_int_repr z rest Hend).
  destruct (int_repr_head z) as (c & tl & -> & Hc).
  assert (110 <> c /\ 116 <> c /\ 102 <> c)%N as (Hn & Ht & Hf).
  { destruct Hc as [Hc | ->]; [apply is_digit_range in Hc|]; lia. }
  change (py "null") with (110%N :: py "ull").
  change (py "true") with (116%N :: py "rue").
  change (py "false") with (102%N :: py "alse").
  cbn [app]. rewrite !strip_mismatch by assumption. reflexivity.
Qed.

(** ** The JSON codec: values *)

Lemma json_induction (P : json -> Prop) :
  P JNull -> (forall b, P (JBool b)) -> (forall z, P (JInt z)) ->
  (forall lit, P (JFloat lit)) -> (forall s, P (JStr s)) ->
  (forall l, Forall P l -> P (JList l)) ->
  (forall items, Forall (fun item => P (snd item)) items -> P (JDict items)) ->
  forall o, P o.
Proof.
  intros Hnull Hbool Hint Hfloat Hstr Hlist Hdict.
  fix IH 1. intros [ | b | z | lit | s | l | items].
  - exact Hnull.
  - apply Hbool.
  - apply Hint.
  - apply Hfloat.
  - apply Hstr.
  - apply Hlist. induction l as [|v l IHl]; constructor; [apply IH | exact IHl].
  - apply Hdict.
    induction items as [|[k v] items IHi]; constructor; [apply IH | exact IHi].
Qed.

Lemma skip_ws_newline_indent (indent level : nat) (s : pystr) :
  skip_ws (newline_indent indent level ++ s) = skip_ws s.
Proof.
  unfold newline_indent. cbn [app skip_ws].
  change (is_ws 10) with true. cbv iota.
  induction (indent * level)%nat as [|n IH]; [reflexivity|].
  cbn [repeat app skip_ws]. change (is_ws 32) with true. cbv iota. exact IH.
Qed.

Lemma skip_ws_space (c : N) (s : pystr) :
  is_ws c = true -> skip_ws (c :: s) = skip_ws s.
Proof. intros H. cbn [skip_ws]. rewrite H. reflexivity. Qed.

Lemma skip_ws_head (c : N) (s : pystr) :
  is_ws c = false -> skip_ws (c :: s) = c :: s.
Proof. intros H. cbn [skip_ws]. rewrite H. reflexivity. Qed.

(** The first character of the text of a value. *)
Lemma iterencode_head (indent : nat) (o : json) (level : nat) :
  plain o = true ->
  exists c tl,
    iterencode indent o level = c :: tl
    /\ is_ws c = false /\ c <> 93%N /\ c <> 125%N.
Proof.
  destruct o as [ | [|] | z | lit | s | [|v l] | [|[k v] items]];
    intros Hp; try discriminate Hp;
    try (eexists; eexists; split; [reflexivity|];
         split; [reflexivity | split; discriminate]).
  destruct (int_repr_head z) as (c & tl & E & Hc).
  exists c, tl. split; [exact E|].
  assert (48 <= c <= 57 \/ c = 45)%N as Hr
    by (destruct Hc as [Hc | ->]; [apply is_digit_range in Hc|]; lia).
  unfold is_ws. repeat split; try lia.
  rewrite !orb_false_iff. repeat split; apply N.eqb_neq; lia.
Qed.

Lemma skip_ws_iterencode (indent : nat) (o : json) (level : nat) (s : pystr) :
  plain o = true ->
  skip_ws (iterencode indent o level ++ s) = iterencode indent o level ++ s.
Proof.
  intros Hp. destruct (iterencode_head indent o level Hp)
    as (c & tl & -> & Hws & _).
  cbn [app]. apply skip_ws_head. exact Hws.
Qed.

Lemma array_items_iterencode (indent level : nat) (lst : list json) :
  Forall (fun v => plain v = true /\ reads_back indent v) lst ->
  forall value rest fuel,
    plain value = true -> reads_back indent value ->
    (list_size (value :: lst) <= fuel)%nat ->
    array_items fuel
      (iterencode indent value (S level)
       ++ flat_map
            (fun value =>
               [44%N] ++ newline_indent indent (S level)
               ++ iterencode indent value (S level))
            lst
       ++ newline_indent indent level ++ [93%N] ++ rest)
    = Some (value :: lst, rest).
Proof.
  induction 1 as [|v2 lst [Hp2 Hr2] Hall IH];
    intros value rest fuel Hp Hr Hfuel;
    (destruct fuel as [|fuel]; [simpl in Hfuel; lia|]);
    cbn [list_size fold_right] in Hfuel; cbn [array_items flat_map].
  - rewrite Hr by (try reflexivity; lia).
    cbn [app]. rewrite skip_ws_newline_indent. reflexivity.
  - rewrite <- !app_assoc.
    rewrite Hr by (try reflexivity; lia).
    cbn [app]. rewrite (skip_ws_head 44) by reflexivity.
    change (N.eqb 44 93) with false. change (N.eqb 44 44) with true. cbv iota.
    rewrite skip_ws_newline_indent, skip_ws_iterencode by exact Hp2.
    assert (list_size (v2 :: lst) <= fuel)%nat as Hfuel'
      by (unfold list_size in *; cbn [fold_right] in *; lia).
    pose proof (IH v2 rest fuel Hp2 Hr2 Hfuel') as E. cbn [app] in E.
    rewrite E. reflexivity.
Qed.

Lemma object_items_iterencode (indent level : nat)
  (dct : list (pystr * json)) :
  Forall (fun item => text (fst item) = true /\ plain (snd item) = true
                      /\ reads_back indent (snd item)) dct ->
  forall key value rest fuel,
    text key = true -> plain value = true -> reads_back indent value ->
    (dict_size ((key, value) :: dct) <= fuel)%nat ->
    object_items fuel
      (flat_map escape_char key ++ [34%N] ++ [58; 32]%N
       ++ iterencode indent value (S level)
       ++ flat_map
            (fun item =>
               [44%N] ++ newline_indent indent (S level)
               ++ encode_basestring_ascii (fst item) ++ [58; 32]%N
               ++ iterencode indent (snd item) (S level))
            dct
       ++ newline_indent indent level ++ [125%N] ++ rest)
    = Some ((key, value) :: dct, rest).
Proof.
  induction 1 as [|[k2 v2] dct (Hk2 & Hp2 & Hr2) Hall IH];
    intros key value rest fuel Hk Hp Hr Hfuel;
    (destruct fuel as [|fuel]; [simpl in Hfuel; lia|]);
    cbn [dict_size fold_right snd] in Hfuel; cbn [object_items flat_map].
  - cbn [app]. rewrite scanstring_escaped by exact Hk.
    rewrite (skip_ws_head 58) by reflexivity.
    change (N.eqb 58 58) with true. cbv iota.
    rewrite (skip_ws_space 32) by reflexivity.
    rewrite skip_ws_iterencode by exact Hp.
    rewrite Hr by (try reflexivity; lia).
    rewrite skip_ws_newline_indent. reflexivity.
  - cbn [app]. rewrite scanstring_escaped by exact Hk.
    rewrite (skip_ws_head 58) by reflexivity.
    change (N.eqb 58 58) with true. cbv iota.
    rewrite (skip_ws_space 32) by reflexivity.
    rewrite skip_ws_iterencode by exact Hp.
    cbn [fst snd]. unfold encode_basestring_ascii. rewrite <- !app_assoc.
    rewrite Hr by (try reflexivity; lia).
    cbn [app]. rewrite (skip_ws_head 44) by reflexivity.
    change (N.eqb 44 125) with false. change (N.eqb 44 44) with true. cbv iota.
    rewrite skip_ws_newline_indent, (skip_ws_head 34) by reflexivity.
    change (N.eqb 34 34) with true. cbv iota.
    assert (dict_size ((k2, v2) :: dct) <= fuel)%nat as Hfuel'
      by (unfold dict_size in *; cbn [fold_right snd] in *; lia).
    pose proof (IH k2 v2 rest fuel Hk2 Hp2 Hr2 Hfuel') as E.
    unfold encode_basestring_ascii in E. cbn [app] in E.
    rewrite E. reflexivity.
Qed.

Lemma dict_set_fresh {V : Type} (d : list (pystr * V)) (key : pystr)
  (value : V) :
  existsb (PyStr.eqb key) (map fst d) = false ->
  dict_set d key value = d ++ [(key, value)].
Proof.
  induction d as [|[k v] d IH]; cbn [dict_set map fst existsb app]; intros H.
  - reflexivity.
  - apply orb_false_iff in H as [Hk Hd].
    assert (PyStr.eqb k key = false) as ->.
    { apply eqb_neq. apply eqb_neq in Hk. congruence. }
    rewrite (IH Hd). reflexivity.
Qed.

Lemma existsb_app_false (k : pystr) (l1 l2 : list pystr) :
  existsb (PyStr.eqb k) (l1 ++ l2) = false <->
  existsb (PyStr.eqb k) l1 = false /\ existsb (PyStr.eqb k) l2 = false.
Proof. rewrite existsb_app. apply orb_false_iff. Qed.

Lemma dict_of_pairs_from {V : Type} (pairs d : list (pystr * V)) :
  distinct (map fst pairs) = true ->
  (forall item, In item pairs ->
                existsb (PyStr.eqb (fst item)) (map fst d) = false) ->
  fold_left (fun d item => dict_set d (fst item) (snd item)) pairs d
  = d ++ pairs.
Proof.
  revert d. induction pairs as [|[k v] pairs IH]; intros d Hd Hfresh.
  - cbn [fold_left]. rewrite app_nil_r. reflexivity.
  - cbn [fold_left fst snd map distinct] in *.
    apply andb_true_iff in Hd as [Hk Hd]. apply negb_true_iff in Hk.
    rewrite dict_set_fresh by (apply (Hfresh (k, v)); left; reflexivity).
    rewrite IH; [rewrite <- app_assoc; reflexivity | exact Hd |].
    intros [k' v'] Hin. cbn [fst]. rewrite map_app. cbn [map fst].
    apply existsb_app_false. split.
    + apply (Hfresh (k', v')). right; exact Hin.
    + cbn [existsb]. rewrite orb_false_r. apply eqb_neq. intros ->.
      assert (existsb (PyStr.eqb k) (map fst pairs) = true) as E.
      { apply existsb_exists. exists k. split; [|apply eqb_refl].
        apply in_map_iff. exists (k, v'). auto. }
      congruence.
Qed.

Lemma dict_of_pairs_distinct {V : Type} (pairs : list (pystr * V)) :
  distinct (map fst pairs) = true -> dict_of_pairs pairs = pairs.
Proof.
  intros Hd. unfold dict_of_pairs.
  rewrite dict_of_pairs_from; [reflexivity | exact Hd | reflexivity].
Qed.

Lemma scan_once_iterencode (indent : nat) (o : json) :
  plain o = true -> reads_back indent o.
Proof.
  induction o as [ | b | z | lit | s | l IHl | items IHi] using json_induction;
    intros Hp level rest fuel Hfuel Hend;
    (destruct fuel as [|fuel]; [cbn [size] in Hfuel; lia|]).
  - reflexivity.
  - destruct b; reflexivity.
  - cbn [iterencode].
    destruct (int_repr_head z) as (c & tl & E & Hc).
    pose proof (scan_atom_int_repr z rest Hend) as Ha. rewrite E in *.
    assert (48 <= c <= 57 \/ c = 45)%N as Hr
      by (destruct Hc as [Hc | ->]; [apply is_digit_range in Hc|]; lia).
    cbn [app scan_once] in *.
    destruct (N.eqb_spec c 34) as [?|_]; [lia|].
    destruct (N.eqb_spec c 123) as [?|_]; [lia|].
    destruct (N.eqb_spec c 91) as [?|_]; [lia|]. exact Ha.
  - discriminate Hp.
  - cbn [iterencode plain] in *. unfold encode_basestring_ascii.
    cbn [app scan_once]. change (N.eqb 34 34) with true. cbv iota.
    rewrite <- app_assoc. cbn [app].
    rewrite scanstring_escaped by exact Hp. reflexivity.
  - destruct l as [|value lst]; [reflexivity|].
    cbn [plain forallb] in Hp. apply andb_true_iff in Hp as [Hpv Hpl].
    pose proof (Forall_inv IHl Hpv) as Hrv.
    assert (Forall (fun v => plain v = true /\ reads_back indent v) lst) as Hall.
    { apply Forall_inv_tail in IHl. rewrite forallb_forall in Hpl.
      rewrite Forall_forall in *. intros v Hv. split; auto. }
    cbn [iterencode]. rewrite <- !app_assoc. cbn [app scan_once].
    change (N.eqb 91 34) with false. change (N.eqb 91 123) with false.
    change (N.eqb 91 91) with true. cbv iota.
    rewrite skip_ws_newline_indent.
    pose proof (array_items_iterencode indent level lst Hall value rest fuel
                  Hpv Hrv) as E.
    rewrite skip_ws_iterencode by exact Hpv.
    destruct (iterencode_head indent value (S level) Hpv)
      as (c & tl & Ehead & _ & Hc & _).
    rewrite Ehead in *. cbn [app] in *.
    destruct (N.eqb_spec c 93) as [?|_]; [contradiction|].
    rewrite E; [reflexivity|]. cbn [size] in Hfuel. unfold list_size. lia.
  - destruct items as [|[key value] dct]; [reflexivity|].
    cbn [plain forallb map fst snd] in Hp.
    apply andb_true_iff in Hp as [Hp Hdist].
    apply andb_true_iff in Hp as [Hp Hpd].
    apply andb_true_iff in Hp as [Hk Hpv].
    pose proof (Forall_inv IHi Hpv) as Hrv. cbn [snd] in Hrv.
    assert (Forall (fun item => text (fst item) = true
                                /\ plain (snd item) = true
                                /\ reads_back indent (snd item)) dct) as Hall.
    { apply Forall_inv_tail in IHi. rewrite forallb_forall in Hpd.
      rewrite Forall_forall in *. intros item Hitem.
      specialize (Hpd item Hitem). apply andb_true_iff in Hpd as [? ?].
      repeat split; auto. }
    cbn [iterencode]. rewrite <- !app_assoc. cbn [app scan_once].
    change (N.eqb 123 34) with false. change (N.eqb 123 123) with true.
    cbv iota. rewrite skip_ws_newline_indent.
    unfold encode_basestring_ascii at 1. cbn [app].
    rewrite (skip_ws_head 34) by reflexivity.
    change (N.eqb 34 125) with false. change (N.eqb 34 34) with true.
    cbv iota.
    pose proof (object_items_iterencode indent level dct Hall key value rest
                  fuel Hk Hpv Hrv) as E.
    cbn [app] in E. rewrite <- app_assoc. cbn [app].
    rewrite E by (cbn [size] in Hfuel; unfold dict_size; exact (le_S_n _ _ Hfuel)).
    rewrite dict_of_pairs_distinct by exact Hdist. reflexivity.
Qed.

Lemma length_newline_indent (indent level : nat) :
  (1 <= List.length (newline_indent indent level))%nat.
Proof. unfold newline_indent. cbn [List.length]. lia. Qed.

Lemma length_iterencode (indent : nat) (o : json) :
  plain o = true ->
  forall level, (size o <= List.length (iterencode indent o level))%nat.
Proof.
  induction o as [ | b | z | lit | s | l IHl | items IHi] using json_induction;
    intros Hp level.
  - cbn. lia.
  - destruct b; cbn; lia.
  - cbn [iterencode size]. destruct (int_repr_head z) as (c & tl & -> & _).
    cbn [List.length]. lia.
  - discriminate Hp.
  - cbn [iterencode size]. unfold encode_basestring_ascii.
    cbn [app List.length]. lia.
  - destruct l as [|value lst]; [cbn; lia|].
    cbn [plain forallb] in Hp. apply andb_true_iff in Hp as [Hpv Hpl].
    pose proof (Forall_inv IHl Hpv (S level)) as Hv.
    apply Forall_inv_tail in IHl.
    cbn [iterencode size fold_right]. rewrite !length_app.
    pose proof (length_newline_indent indent (S level)).
    pose proof (length_newline_indent indent level).
    cbn [List.length].
    enough (fold_right (fun value n => S (size value + n)) 0%nat lst
            <= List.length
                 (flat_map
                    (fun value =>
                       [44%N] ++ newline_indent indent (S level)
                       ++ iterencode indent value (S level)) lst))%nat by lia.
    clear Hv Hpv. induction lst as [|v lst IH]; cbn [fold_right flat_map].
    + cbn. lia.
    + cbn [forallb] in Hpl. apply andb_true_iff in Hpl as [Hpv Hpl].
      pose proof (Forall_inv IHl Hpv (S level)).
      specialize (IH (Forall_inv_tail IHl) Hpl).
      rewrite !length_app. cbn [List.length]. lia.
  - destruct items as [|[key value] dct]; [cbn; lia|].
    cbn [plain forallb map fst snd] in Hp.
    apply andb_true_iff in Hp as [Hp _].
    apply andb_true_iff in Hp as [Hp Hpd].
    apply andb_true_iff in Hp as [_ Hpv].
    pose proof (Forall_inv IHi Hpv (S level)) as Hv. cbn [snd] in Hv.
    apply Forall_inv_tail in IHi.
    cbn [iterencode size fold_right snd]. rewrite !length_app.
    pose proof (length_newline_indent indent (S level)).
    pose proof (length_newline_indent indent level).
    cbn [List.length].
    enough (fold_right (fun item n => S (size (snd item) + n)) 0%nat dct
            <= List.length
                 (flat_map
                    (fun item =>
                       [44%N] ++ newline_indent indent (S level)
                       ++ encode_basestring_ascii (fst item) ++ [58; 32]%N
                       ++ iterencode indent (snd item) (S level)) dct))%nat
      by lia.
    clear Hv Hpv. induction dct as [|item dct IH]; cbn [fold_right flat_map].
    + cbn. lia.
    + cbn [forallb] in Hpd. apply andb_true_iff in Hpd as [Hpi Hpd].
      apply andb_true_iff in Hpi as [_ Hpi].
      pose proof (Forall_inv IHi Hpi (S level)).
      specialize (IH (Forall_inv_tail IHi) Hpd).
      rewrite !length_app. cbn [List.length]. lia.
Qed.

(** The decoder reads back what the encoder wrote. *)
Lemma loads_dumps (indent : nat) (o : json) :
  plain o = true -> loads (dumps indent o) = Some o.
Proof.
  intros Hp. unfold loads, dumps.
  pose proof (skip_ws_iterencode indent o 0 [] Hp) as Hws.
  rewrite app_nil_r in Hws. rewrite Hws.
  pose proof (scan_once_iterencode indent o Hp 0%nat []
                (S (List.length (iterencode indent o 0)))) as Hscan.
  rewrite app_nil_r in Hscan. rewrite Hscan; [reflexivity | | reflexivity].
  pose proof (length_iterencode indent o Hp 0). lia.
Qed.

(** ** The JSON codec: the fuel of the decoder *)

Lemma skip_ws_length (s : pystr) :
  (List.length (skip_ws s) <= List.length s)%nat.
Proof.
  induction s as [|c s IH]; cbn [skip_ws List.length]; [lia|].
  destruct (is_ws c); cbn [List.length]; lia.
Qed.

Lemma push_Some (c : N) (r : option (pystr * pystr)) (str rest : pystr) :
  push c r = Some (str, rest) ->
  exists str', r = Some (str', rest) /\ str = c :: str'.
Proof.
  destruct r as [[str' rest']|]; cbn [push]; intros H; inversion H; subst.
  exists str'. auto.
Qed.

Lemma scanstring_length (n : nat) :
  forall s str rest,
    (List.length s <= n)%nat ->
    scanstring s = Some (str, rest) ->
    (List.length rest < List.length s)%nat.
Proof.
  induction n as [|n IH]; intros s str rest Hn H.
  - destruct s; [discriminate H | cbn [List.length] in Hn; lia].
  - destruct s as [|c s1]; [discriminate H|]. cbn [scanstring] in H.
    repeat
      (match type of H with
       | context [if ?b then _ else _] => destruct b eqn:?
       | context [match ?x with _ => _ end] => destruct x eqn:?
       end; try discriminate H);
      cbn [List.length] in *;
      try (inversion H; subst; cbn [List.length]; lia);
      apply push_Some in H as (str' & H & _); apply IH in H;
        cbn [List.length] in *; lia.
Qed.

Lemma scanstring_shorter (s str rest : pystr) :
  scanstring s = Some (str, rest) ->
  (List.length rest < List.length s)%nat.
Proof. apply (scanstring_length (List.length s)). lia. Qed.

Lemma strip_length (p s rest : pystr) :
  strip p s = Some rest ->
  List.length s = (List.length p + List.length rest)%nat.
Proof.
  revert s. induction p as [|a p IH]; intros s; cbn [strip].
  - intros H; inversion H; subst. reflexivity.
  - destruct s as [|b s]; [discriminate|].
    destruct (N.eqb a b); [|discriminate].
    intros H. apply IH in H. cbn [List.length]. lia.
Qed.

Lemma span_digits_length (s : pystr) :
  List.length s
  = (List.length (fst (span_digits s)) + List.length (snd (span_digits s)))%nat.
Proof.
  induction s as [|c s IH]; cbn [span_digits]; [reflexivity|].
  destruct (is_digit c); [|reflexivity].
  destruct (span_digits s) as [ds rest]. cbn [fst snd List.length] in *. lia.
Qed.

Lemma match_integer_length (s integer rest : pystr) :
  match_integer s = Some (integer, rest) ->
  (List.length rest < List.length s)%nat.
Proof.
  unfold match_integer.
  assert (forall s1 sign,
             match s1 with
             | [] => None
             | d :: s2 =>
                 if N.eqb d 48 then Some (sign ++ [d], s2)
                 else if is_digit d
                      then let (ds, rest) := span_digits s2 in
                           Some (sign ++ d :: ds, rest)
                      else None
             end = Some (integer, rest) ->
             (List.length rest < List.length s1)%nat) as Haux.
  { intros [|d s2] sign; [discriminate|].
    destruct (N.eqb d 48).
    - intros H; inversion H; subst. cbn [List.length]. lia.
    - destruct (is_digit d); [|discriminate].
      pose proof (span_digits_length s2) as Hl.
      destruct (span_digits s2) as [ds r]. cbn [fst snd] in Hl.
      intros H; inversion H; subst. cbn [List.length]. lia. }
  destruct s as [|c s']; [discriminate|].
  destruct (N.eqb c 45).
  - intros H. apply (Haux s' [45%N]) in H. cbn [List.length]. lia.
  - apply (Haux (c :: s') []).
Qed.

Lemma match_frac_length (s : pystr) :
  (List.length (snd (match_frac s)) <= List.length s)%nat.
Proof.
  destruct s as [|c s']; cbn [match_frac snd]; [lia|].
  destruct (N.eqb c 46); [|cbn [snd]; lia].
  pose proof (span_digits_length s') as Hl.
  destruct (span_digits s') as [[|d ds] r]; cbn [fst snd List.length] in *; lia.
Qed.

Lemma match_exp_length (s : pystr) :
  (List.length (snd (match_exp s)) <= List.length s)%nat.
Proof.
  destruct s as [|c s']; cbn [match_exp snd]; [lia|].
  destruct (N.eqb c 101 || N.eqb c 69)%bool; [|cbn [snd]; lia].
  destruct s' as [|g s''].
  - cbn. lia.
  - destruct (N.eqb g 45 || N.eqb g 43)%bool.
    + pose proof (span_digits_length s'') as Hl.
      destruct (span_digits s'') as [[|d ds] r];
        cbn [fst snd List.length] in *; lia.
    + pose proof (span_digits_length (g :: s'')) as Hl.
      destruct (span_digits (g :: s'')) as [[|d ds] r];
        cbn [fst snd List.length] in *; lia.
Qed.

Lemma scan_number_length (s : pystr) (o : json) (rest : pystr) :
  scan_number s = Some (o, rest) ->
  (List.length rest < List.length s)%nat.
Proof.
  unfold scan_number.
  destruct (match_integer s) as [[integer s1]|] eqn:Ei; [|discriminate].
  apply match_integer_length in Ei.
  pose proof (match_frac_length s1) as Hf.
  destruct (match_frac s1) as [frac s2]. cbn [snd] in Hf.
  pose proof (match_exp_length s2) as He.
  destruct (match_exp s2) as [exp s3]. cbn [snd] in He.
  destruct frac, exp; intros H; inversion H; subst; lia.
Qed.

Lemma scan_atom_length (s : pystr) (o : json) (rest : pystr) :
  scan_atom s = Some (o, rest) ->
  (List.length rest < List.length s)%nat.
Proof.
  unfold scan_atom.
  repeat
    (match goal with
     | |- context [strip ?p s] =>
         let E := fresh "E" in
         destruct (strip p s) eqn:E;
         [apply strip_length in E; cbn [List.length py map
                                         list_ascii_of_string] in E;
          intros H; inversion H; subst; lia|]
     | |- context [scan_number s] =>
         let E := fresh "E" in
         destruct (scan_number s) as [[? ?]|] eqn:E;
         [apply scan_number_length in E;
          intros H; inversion H; subst; exact E|]
     end).
  discriminate.
Qed.

(** A successful scan consumes text, and succeeds alike with any fuel that
    is at least the number of characters it consumed. *)
Lemma scan_fuel (fuel : nat) :
  (forall s o rest,
      scan_once fuel s = Some (o, rest) ->
      (List.length rest < List.length s)%nat
      /\ forall fuel',
           (List.length s - List.length rest <= fuel')%nat ->
           scan_once fuel' s = Some (o, rest))
  /\ (forall s values rest,
        array_items fuel s = Some (values, rest) ->
        (List.length rest < List.length s)%nat
        /\ forall fuel',
             (List.length s - List.length rest <= fuel')%nat ->
             array_items fuel' s = Some (values, rest))
  /\ (forall s pairs rest,
        object_items fuel s = Some (pairs, rest) ->
        (List.length rest < List.length s)%nat
        /\ forall fuel',
             (List.length s - List.length rest <= fuel')%nat ->
             object_items fuel' s = Some (pairs, rest)).
Proof.
  induction fuel as [|fuel (IHs & IHa & IHo)];
    [repeat split; discriminate|].
  split; [|split].
  - intros s o rest H. cbn [scan_once] in H.
    destruct s as [|c s']; [discriminate H|].
    destruct (N.eqb c 34) eqn:E34.
    { destruct (scanstring s') as [[str r]|] eqn:Es; [|discriminate H].
      inversion H; subst. apply scanstring_shorter in Es as Hl.
      cbn [List.length]. split; [lia|].
      intros [|fuel'] Hf; [lia|]. cbn [scan_once]. rewrite E34, Es.
      reflexivity. }
    destruct (N.eqb c 123) eqn:E123.
    { pose proof (skip_ws_length s') as Hw.
      destruct (skip_ws s') as [|c1 s1] eqn:Ew; [discriminate H|].
      cbn [List.length] in *.
      destruct (N.eqb c1 125) eqn:E125.
      { inversion H; subst. split; [lia|].
        intros [|fuel'] Hf; [lia|]. cbn [scan_once].
        rewrite E34, E123, Ew, E125. reflexivity. }
      destruct (N.eqb c1 34) eqn:E34'; [|discriminate H].
      destruct (object_items fuel s1) as [[pairs r]|] eqn:Eo;
        [|discriminate H].
      inversion H; subst. destruct (IHo _ _ _ Eo) as [Hl Hfuel].
      split; [lia|].
      intros [|fuel'] Hf; [lia|]. cbn [scan_once].
      rewrite E34, E123, Ew, E125, E34', Hfuel by lia. reflexivity. }
    destruct (N.eqb c 91) eqn:E91.
    { pose proof (skip_ws_length s') as Hw.
      destruct (skip_ws s') as [|c1 s1] eqn:Ew; [discriminate H|].
      cbn [List.length] in *.
      destruct (N.eqb c1 93) eqn:E93.
      { inversion H; subst. split; [lia|].
        intros [|fuel'] Hf; [lia|]. cbn [scan_once].
        rewrite E34, E123, E91, Ew, E93. reflexivity. }
      destruct (array_items fuel (c1 :: s1)) as [[values r]|] eqn:Ea;
        [|discriminate H].
      inversion H; subst. destruct (IHa _ _ _ Ea) as [Hl Hfuel].
      cbn [List.length] in *. split; [lia|].
      intros [|fuel'] Hf; [lia|]. cbn [scan_once].
      rewrite E34, E123, E91, Ew, E93, Hfuel by (cbn [List.length]; lia).
      reflexivity. }
    apply scan_atom_length in H as Hl. split; [exact Hl|].
    intros [|fuel'] Hf; [lia|]. cbn [scan_once].
    rewrite E34, E123, E91. exact H.
  - intros s values rest H. cbn [array_items] in H.
    destruct (scan_once fuel s) as [[value s1]|] eqn:Ev; [|discriminate H].
    destruct (IHs _ _ _ Ev) as [Hl1 Hfuel1].
    pose proof (skip_ws_length s1) as Hw1.
    destruct (skip_ws s1) as [|c s2] eqn:Ew1; [discriminate H|].
    cbn [List.length] in *.
    destruct (N.eqb c 93) eqn:E93.
    { inversion H; subst. split; [lia|].
      intros [|fuel'] Hf; [lia|]. cbn [array_items].
      rewrite Hfuel1, Ew1, E93 by lia. reflexivity. }
    destruct (N.eqb c 44) eqn:E44; [|discriminate H].
    pose proof (skip_ws_length s2) as Hw2.
    destruct (array_items fuel (skip_ws s2)) as [[vs r]|] eqn:Ea;
      [|discriminate H].
    inversion H; subst. destruct (IHa _ _ _ Ea) as [Hl2 Hfuel2].
    split; [lia|].
    intros [|fuel'] Hf; [lia|]. cbn [array_items].
    rewrite Hfuel1, Ew1, E93, E44, Hfuel2 by lia. reflexivity.
  - intros s pairs rest H. cbn [object_items] in H.
    destruct (scanstring s) as [[key s1]|] eqn:Ek; [|discriminate H].
    apply scanstring_shorter in Ek as Hlk.
    pose proof (skip_ws_length s1) as Hw1.
    destruct (skip_ws s1) as [|c s2] eqn:Ew1; [discriminate H|].
    cbn [List.length] in *.
    destruct (N.eqb c 58) eqn:E58; [|discriminate H].
    pose proof (skip_ws_length s2) as Hw2.
    destruct (scan_once fuel (skip_ws s2)) as [[value s3]|] eqn:Ev;
      [|discriminate H].
    destruct (IHs _ _ _ Ev) as [Hl1 Hfuel1].
    pose proof (skip_ws_length s3) as Hw3.
    destruct (skip_ws s3) as [|c' s4] eqn:Ew3; [discriminate H|].
    cbn [List.length] in *.
    destruct (N.eqb c' 125) eqn:E125.
    { inversion H; subst. split; [lia|].
      intros [|fuel'] Hf; [lia|]. cbn [object_items].
      rewrite Ek, Ew1, E58, Hfuel1, Ew3, E125 by lia. reflexivity. }
    destruct (N.eqb c' 44) eqn:E44; [|discriminate H].
    pose proof (skip_ws_length s4) as Hw4.
    destruct (skip_ws s4) as [|q s5] eqn:Ew4; [discriminate H|].
    cbn [List.length] in *.
    destruct (N.eqb q 34) eqn:E34; [|discriminate H].
    destruct (object_items fuel s5) as [[ps r]|] eqn:Eo; [|discriminate H].
    inversion H; subst. destruct (IHo _ _ _ Eo) as [Hl2 Hfuel2].
    split; [lia|].
    intros [|fuel'] Hf; [lia|]. cbn [object_items].
    rewrite Ek, Ew1, E58, Hfuel1, Ew3, E125, E44, Ew4, E34, Hfuel2 by lia.
    reflexivity.
Qed.

(** [loads] rejects a text only if no amount of fuel finds a value in it
    that is followed by white space alone. *)
Lemma loads_decodable (doc : pystr) :
  decodable doc <-> exists obj, loads doc = Some obj.
Proof.
  unfold decodable, loads. split.
  - intros (fuel & obj & rest & Hscan & Hrest). exists obj.
    destruct (scan_fuel fuel) as [Hs _].
    destruct (Hs _ _ _ Hscan) as [_ Hfuel].
    pose proof (skip_ws_length doc).
    rewrite Hfuel by lia. rewrite Hrest. reflexivity.
  - intros [obj H].
    destruct (scan_once (S (List.length doc)) (skip_ws doc))
      as [[o rest]|] eqn:E; [|discriminate H].
    exists (S (List.length doc)), o, rest. split; [exact E|].
    destruct (skip_ws rest); [reflexivity | discriminate H].
Qed.

(** ** The JSON codec: the decoder accepts JSON texts only *)

Section Accepts.

Import Rfc8259.

Lemma is_ws_ws_char (c : N) : is_ws c = true -> ws_char c.
Proof.
  unfold is_ws, ws_char. intros H.
  repeat (apply orb_true_iff in H as [H | H]); apply N.eqb_eq in H; auto.
Qed.

Lemma skip_ws_split (s : pystr) : exists w, s = w ++ skip_ws s /\ ws w.
Proof.
  induction s as [|c s (w & E & Hw)]; cbn [skip_ws].
  - exists []. split; [reflexivity | constructor].
  - destruct (is_ws c) eqn:Ec.
    + exists (c :: w). split; [cbn [app]; f_equal; exact E|].
      constructor; [apply is_ws_ws_char; exact Ec | exact Hw].
    + exists []. split; [reflexivity | constructor].
Qed.

Lemma skip_ws_nil (s : pystr) : skip_ws s = [] -> ws s.
Proof.
  intros H. destruct (skip_ws_split s) as (w & E & Hw).
  rewrite H, app_nil_r in E. subst w. exact Hw.
Qed.

Lemma is_digit_DIGIT (c : N) : is_digit c = true -> DIGIT c.
Proof.
  unfold is_digit, DIGIT. intros H. apply andb_true_iff in H as [H1 H2].
  apply N.leb_le in H1, H2. lia.
Qed.

Lemma span_digits_sound (s ds rest : pystr) :
  span_digits s = (ds, rest) -> s = ds ++ rest /\ Forall DIGIT ds.
Proof.
  revert ds rest. induction s as [|c s IH]; intros ds rest; cbn [span_digits].
  - intros H; inversion H; subst. split; [reflexivity | constructor].
  - destruct (is_digit c) eqn:Ec.
    + destruct (span_digits s) as [ds' rest'].
      intros H; inversion H; subst. destruct (IH ds' rest eq_refl) as [E Hd].
      split; [cbn [app]; f_equal; exact E|].
      constructor; [apply is_digit_DIGIT; exact Ec | exact Hd].
    + intros H; inversion H; subst. split; [reflexivity | constructor].
Qed.

Lemma match_integer_sound (s i rest : pystr) :
  match_integer s = Some (i, rest) ->
  s = i ++ rest
  /\ exists minus body,
       i = minus ++ body /\ (minus = [] \/ minus = [45%N]) /\ int body.
Proof.
  assert (forall sign s1,
             match s1 with
             | d :: s2 =>
                 if N.eqb d 48 then Some (sign ++ [d], s2)
                 else if is_digit d then
                   let (ds, rest) := span_digits s2 in
                   Some (sign ++ d :: ds, rest)
                 else None
             | [] => None
             end = Some (i, rest) ->
             exists body, i = sign ++ body /\ s1 = body ++ rest /\ int body)
    as Hbody.
  { intros sign [|d s2]; [discriminate|].
    destruct (N.eqb d 48) eqn:E0.
    - apply N.eqb_eq in E0. subst d. intros H; inversion H; subst.
      exists [48%N]. repeat split. constructor.
    - destruct (is_digit d) eqn:Ed; [|discriminate].
      destruct (span_digits s2) as [ds r] eqn:Es.
      intros H; inversion H; subst.
      apply span_digits_sound in Es as [-> Hds].
      exists (d :: ds). repeat split. constructor; [|exact Hds].
      apply is_digit_DIGIT in Ed. apply N.eqb_neq in E0.
      unfold DIGIT in Ed. lia. }
  unfold match_integer. destruct s as [|c s'].
  - intros H. destruct (Hbody [] [] H) as (body & -> & E & Hi).
    split; [exact E|]. exists [], body. auto.
  - destruct (N.eqb c 45) eqn:Ec.
    + apply N.eqb_eq in Ec. subst c. intros H.
      destruct (Hbody [45%N] s' H) as (body & -> & -> & Hi).
      split; [reflexivity|]. exists [45%N], body. auto.
    + intros H. destruct (Hbody [] (c :: s') H) as (body & -> & E & Hi).
      split; [exact E|]. exists [], body. auto.
Qed.

Lemma match_frac_sound (s f rest : pystr) :
  match_frac s = (f, rest) -> s = f ++ rest /\ frac f.
Proof.
  unfold match_frac. destruct s as [|c s'].
  - intros H; inversion H; subst. split; [reflexivity | constructor].
  - destruct (N.eqb c 46) eqn:Ec.
    + apply N.eqb_eq in Ec. subst c.
      destruct (span_digits s') as [[|d ds] r] eqn:Es.
      * intros H; inversion H; subst. split; [reflexivity | constructor].
      * intros H; inversion H; subst.
        apply span_digits_sound in Es as [-> Hds].
        split; [reflexivity|]. constructor. split; [discriminate | exact Hds].
    + intros H; inversion H; subst. split; [reflexivity | constructor].
Qed.

Lemma match_exp_sound (s e rest : pystr) :
  match_exp s = (e, rest) -> s = e ++ rest /\ exp e.
Proof.
  unfold match_exp. destruct s as [|c s'].
  - intros H; inversion H; subst. split; [reflexivity | constructor].
  - destruct (N.eqb c 101 || N.eqb c 69)%bool eqn:Ec.
    + assert (c = 101%N \/ c = 69%N) as Hc.
      { apply orb_true_iff in Ec as [Ec | Ec]; apply N.eqb_eq in Ec; auto. }
      assert (exists sign s1,
                 match s' with
                 | g :: s'' =>
                     if (N.eqb g 45 || N.eqb g 43)%bool then ([g], s'')
                     else ([], s')
                 | [] => ([], s')
                 end = (sign, s1)
                 /\ s' = sign ++ s1
                 /\ (sign = [] \/ sign = [45%N] \/ sign = [43%N]))
        as (sign & s1 & -> & Es' & Hsign).
      { destruct s' as [|g s''].
        - exists [], []. auto.
        - destruct (N.eqb g 45 || N.eqb g 43)%bool eqn:Eg.
          + exists [g], s''. repeat split.
            apply orb_true_iff in Eg as [Eg | Eg]; apply N.eqb_eq in Eg;
              subst; auto.
          + exists [], (g :: s''). auto. }
      destruct (span_digits s1) as [[|d ds] r] eqn:Es.
      * intros H; inversion H; subst. split; [reflexivity | constructor].
      * intros H; inversion H; subst.
        apply span_digits_sound in Es as [-> Hds].
        split; [cbn [app]; rewrite <- app_assoc; reflexivity|].
        constructor; [exact Hc | exact Hsign|].
        split; [discriminate | exact Hds].
    + intros H; inversion H; subst. split; [reflexivity | constructor].
Qed.

Lemma scan_number_sound (s : pystr) (v : json) (rest : pystr) :
  scan_number s = Some (v, rest) -> exists lit, s = lit ++ rest /\ number lit.
Proof.
  unfold scan_number.
  destruct (match_integer s) as [[i s1]|] eqn:Ei; [|discriminate].
  destruct (match_frac s1) as [f s2] eqn:Ef.
  destruct (match_exp s2) as [e s3] eqn:Ee.
  apply match_integer_sound in Ei as (-> & minus & body & -> & Hm & Hi).
  apply match_frac_sound in Ef as (-> & Hf).
  apply match_exp_sound in Ee as (-> & He).
  intros H.
  assert (rest = s3) as -> by (destruct f, e; inversion H; reflexivity).
  exists (minus ++ body ++ f ++ e). split.
  - rewrite <- !app_assoc. reflexivity.
  - constructor; assumption.
Qed.

Lemma strip_sound (p s rest : pystr) : strip p s = Some rest -> s = p ++ rest.
Proof.
  revert s. induction p as [|a p IH]; intros s; cbn [strip].
  - intros H; inversion H; reflexivity.
  - destruct s as [|b s]; [discriminate|].
    destruct (N.eqb a b) eqn:E; [|discriminate].
    apply N.eqb_eq in E. subst b. intros H. cbn [app]. f_equal.
    apply IH. exact H.
Qed.

Lemma scan_atom_sound (s : pystr) (v : json) (rest : pystr) :
  scan_atom s = Some (v, rest) ->
  exists lit, s = lit ++ rest /\ value python_literals lit.
Proof.
  unfold scan_atom.
  repeat match goal with
         | |- context [strip ?p s] =>
             let E := fresh "E" in
             destruct (strip p s) as [r|] eqn:E;
             [apply strip_sound in E; intros H; inversion H; subst rest;
              exists p; split; [exact E|];
              apply value_literal;
              unfold python_literals, json_literals; cbn [In app]; tauto|]
         | |- context [scan_number s] =>
             let E := fresh "E" in
             destruct (scan_number s) as [[v' r]|] eqn:E;
             [intros H; inversion H; subst;
              apply scan_number_sound in E as (lit & E & Hn);
              exists lit; split; [exact E | apply value_number; exact Hn]|]
         end.
  discriminate.
Qed.

Lemma hex_val_HEXDIG (c x : N) : hex_val c = Some x -> HEXDIG c.
Proof.
  unfold hex_val, HEXDIG.
  destruct (N.leb 48 c && N.leb c 57)%bool eqn:E1.
  { apply andb_true_iff in E1 as [H1 H2]. apply N.leb_le in H1, H2.
    intros _. left. lia. }
  destruct (N.leb 97 c && N.leb c 102)%bool eqn:E2.
  { apply andb_true_iff in E2 as [H1 H2]. apply N.leb_le in H1, H2.
    intros _. right. right. lia. }
  destruct (N.leb 65 c && N.leb c 70)%bool eqn:E3; [|discriminate].
  apply andb_true_iff in E3 as [H1 H2]. apply N.leb_le in H1, H2.
  intros _. right. left. lia.
Qed.

Lemma hex4_HEXDIG (a b c d u : N) :
  hex4 a b c d = Some u -> HEXDIG a /\ HEXDIG b /\ HEXDIG c /\ HEXDIG d.
Proof.
  unfold hex4.
  destruct (hex_val a) eqn:Ea; [|discriminate].
  destruct (hex_val b) eqn:Eb; [|discriminate].
  destruct (hex_val c) eqn:Ec; [|discriminate].
  destruct (hex_val d) eqn:Ed; [|discriminate].
  intros _. repeat split; eapply hex_val_HEXDIG; eassumption.
Qed.

Lemma backslash_escape_letter (e ch : N) :
  backslash e = Some ch -> escape_letter e.
Proof.
  unfold backslash, escape_letter.
  repeat match goal with
         | |- context [N.eqb e ?k] =>
             destruct (N.eqb_spec e k); [subst; intros _; cbn [In]; tauto|]
         end.
  discriminate.
Qed.

Lemma push_inv (c : N) (r : option (pystr * pystr)) (str rest : pystr) :
  push c r = Some (str, rest) ->
  exists str', r = Some (str', rest) /\ str = c :: str'.
Proof.
  destruct r as [[str' rest']|]; [|discriminate].
  intros H; inversion H; subst. exists str'. auto.
Qed.

Lemma scanstring_sound_upto (n : nat) :
  forall s str rest,
    (List.length s <= n)%nat ->
    scanstring s = Some (str, rest) ->
    exists body, s = body ++ 34%N :: rest /\ chars body.
Proof.
  induction n as [|n IH]; intros s str rest Hlen.
  - destruct s; [discriminate | cbn [List.length] in Hlen; lia].
  - destruct s as [|c s1]; [discriminate|]. cbn [scanstring].
    cbn [List.length] in Hlen.
    destruct (N.eqb_spec c 34) as [-> | Hq].
    { intros H; inversion H; subst. exists [].
      split; [reflexivity | constructor]. }
    destruct (N.eqb_spec c 92) as [-> | Hb].
    2:{ destruct (N.ltb_spec c 32) as [|Hc]; [discriminate|]. intros H.
        apply push_inv in H as (str' & H & ->).
        apply IH in H as (body & -> & Hbody); [|lia].
        exists (c :: body). split; [reflexivity|].
        apply chars_unescaped; assumption. }
    destruct s1 as [|e s2]; [discriminate|]. cbn [List.length] in Hlen.
    destruct (N.eqb_spec e 117) as [-> | He].
    2:{ destruct (backslash e) as [ch|] eqn:Eb; [|discriminate]. intros H.
        apply push_inv in H as (str' & H & ->).
        apply IH in H as (body & -> & Hbody); [|lia].
        exists (92%N :: e :: body). split; [reflexivity|].
        apply chars_escape; [|exact Hbody].
        apply (backslash_escape_letter e ch Eb). }
    destruct s2 as [|a [|b [|c' [|d s3]]]]; try discriminate.
    cbn [List.length] in Hlen.
    destruct (hex4 a b c' d) as [uni|] eqn:Eh; [|discriminate].
    apply hex4_HEXDIG in Eh as (Ha & Hb' & Hc & Hd).
    assert (forall x,
               push x (scanstring s3) = Some (str, rest) ->
               exists body,
                 92%N :: 117%N :: a :: b :: c' :: d :: s3
                 = body ++ 34%N :: rest /\ chars body) as Hleaf.
    { intros x H. apply push_inv in H as (str' & H & _).
      apply IH in H as (body & E & Hbody); [|lia].
      exists (92%N :: 117%N :: a :: b :: c' :: d :: body).
      split; [cbn [app]; rewrite <- E; reflexivity|].
      apply chars_u; assumption. }
    destruct (is_high_surrogate uni); [|apply Hleaf].
    destruct s3 as [|bs [|u [|a2 [|b2 [|c2 [|d2 s4]]]]]];
      try (apply Hleaf);
      destruct (N.eqb bs 92 && N.eqb u 117)%bool eqn:Ep;
      try discriminate; try (apply Hleaf).
    apply andb_true_iff in Ep as [Ebs Eu].
    apply N.eqb_eq in Ebs, Eu. subst bs u.
    destruct (hex4 a2 b2 c2 d2) as [uni2|] eqn:Eh2; [|discriminate].
    apply hex4_HEXDIG in Eh2 as (Ha2 & Hb2 & Hc2 & Hd2).
    destruct (is_low_surrogate uni2); [|apply Hleaf].
    intros H. apply push_inv in H as (str' & H & _).
    cbn [List.length] in Hlen.
    apply IH in H as (body & -> & Hbody); [|lia].
    exists (92%N :: 117%N :: a :: b :: c' :: d
              :: 92%N :: 117%N :: a2 :: b2 :: c2 :: d2 :: body).
    split; [reflexivity|].
    apply chars_u; try assumption. apply chars_u; assumption.
Qed.

Lemma scanstring_sound (s str rest : pystr) :
  scanstring s = Some (str, rest) ->
  exists body, s = body ++ 34%N :: rest /\ chars body.
Proof. apply (scanstring_sound_upto (List.length s)). lia. Qed.

Lemma ws_app (w1 w2 : pystr) : ws w1 -> ws w2 -> ws (w1 ++ w2).
Proof. intros H1 H2. apply Forall_app. split; assumption. Qed.

Lemma elements_ws (literals : list pystr) (w s : pystr) :
  ws w -> elements literals s -> elements literals (w ++ s).
Proof.
  intros Hw Hs. destruct Hs as [w1 v w2 H1 Hv H2 | w1 v w2 rest H1 Hv H2 Hr].
  - rewrite app_assoc. apply elements_one; [apply ws_app| |]; assumption.
  - rewrite app_assoc. apply elements_more; [apply ws_app| | |]; assumption.
Qed.

Lemma members_ws (literals : list pystr) (w s : pystr) :
  ws w -> members literals s -> members literals (w ++ s).
Proof.
  intros Hw Hs.
  destruct Hs as [w1 k w2 w3 v w4 H1 Hk H2 H3 Hv H4
                 | w1 k w2 w3 v w4 rest H1 Hk H2 H3 Hv H4 Hr].
  - rewrite app_assoc. apply members_one; try assumption.
    apply ws_app; assumption.
  - rewrite app_assoc. apply members_more; try assumption.
    apply ws_app; assumption.
Qed.

Ltac app_norm := repeat (progress (rewrite <- ?app_assoc; cbn [app])).

(** What the scanner reads is a value of the grammar with the three more
    names. *)
Lemma scan_sound (fuel : nat) :
  (forall s v rest,
      scan_once fuel s = Some (v, rest) ->
      exists lit, s = lit ++ rest /\ value python_literals lit)
  /\ (forall s vs rest,
        array_items fuel s = Some (vs, rest) ->
        exists items,
          s = items ++ 93%N :: rest /\ elements python_literals items)
  /\ (forall s pairs rest,
        object_items fuel s = Some (pairs, rest) ->
        exists ms,
          34%N :: s = ms ++ 125%N :: rest /\ members python_literals ms).
Proof.
  induction fuel as [|fuel (IHv & IHa & IHo)];
    [repeat split; intros; discriminate|].
  split; [|split].
  - intros s v rest. cbn [scan_once].
    destruct s as [|c s']; [discriminate|].
    destruct (N.eqb_spec c 34) as [-> | _].
    { destruct (scanstring s') as [[str r]|] eqn:Es; [|discriminate].
      intros H; inversion H; subst.
      apply scanstring_sound in Es as (body & -> & Hbody).
      exists (34%N :: body ++ [34%N]).
      split; [app_norm; reflexivity|]. apply value_string. exact Hbody. }
    destruct (N.eqb_spec c 123) as [-> | _].
    { destruct (skip_ws_split s') as (w & Ew & Hw).
      destruct (skip_ws s') as [|c1 s1]; [discriminate|].
      destruct (N.eqb_spec c1 125) as [-> | _].
      { intros H; inversion H; subst. exists (123%N :: w ++ [125%N]).
        split; [app_norm; reflexivity|]. apply value_object_empty. exact Hw. }
      destruct (N.eqb_spec c1 34) as [-> | _]; [|discriminate].
      destruct (object_items fuel s1) as [[pairs r]|] eqn:Eo; [|discriminate].
      intros H; inversion H; subst.
      apply IHo in Eo as (ms & E & Hms).
      exists (123%N :: (w ++ ms) ++ [125%N]).
      split; [rewrite E; app_norm; reflexivity|].
      apply value_object. apply members_ws; assumption. }
    destruct (N.eqb_spec c 91) as [-> | _].
    { destruct (skip_ws_split s') as (w & Ew & Hw).
      destruct (skip_ws s') as [|c1 s1]; [discriminate|].
      destruct (N.eqb_spec c1 93) as [-> | _].
      { intros H; inversion H; subst. exists (91%N :: w ++ [93%N]).
        split; [app_norm; reflexivity|]. apply value_array_empty. exact Hw. }
      destruct (array_items fuel (c1 :: s1)) as [[vs r]|] eqn:Ea;
        [|discriminate].
      intros H; inversion H; subst.
      apply IHa in Ea as (items & E & Hitems).
      exists (91%N :: (w ++ items) ++ [93%N]).
      split; [rewrite E; app_norm; reflexivity|].
      apply value_array. apply elements_ws; assumption. }
    apply scan_atom_sound.
  - intros s vs rest. cbn [array_items].
    destruct (scan_once fuel s) as [[v s1]|] eqn:Ev; [|discriminate].
    apply IHv in Ev as (lit & -> & Hlit).
    destruct (skip_ws_split s1) as (w & Ew & Hw).
    destruct (skip_ws s1) as [|c s2]; [discriminate|].
    destruct (N.eqb_spec c 93) as [-> | _].
    { intros H; inversion H; subst. exists ([] ++ lit ++ w).
      split; [app_norm; reflexivity|].
      apply elements_one; [constructor | exact Hlit | exact Hw]. }
    destruct (N.eqb_spec c 44) as [-> | _]; [|discriminate].
    destruct (skip_ws_split s2) as (w' & Ew' & Hw').
    destruct (array_items fuel (skip_ws s2)) as [[vs' r]|] eqn:Ea;
      [|discriminate].
    intros H; inversion H; subst.
    apply IHa in Ea as (items & E & Hitems).
    exists ([] ++ lit ++ w ++ 44%N :: (w' ++ items)). split.
    + rewrite Ew' at 1. rewrite E. app_norm. reflexivity.
    + apply elements_more; [constructor | exact Hlit | exact Hw|].
      apply elements_ws; assumption.
  - intros s pairs rest. cbn [object_items].
    destruct (scanstring s) as [[key s1]|] eqn:Ek; [|discriminate].
    apply scanstring_sound in Ek as (k & -> & Hk).
    destruct (skip_ws_split s1) as (w2 & Ew2 & Hw2).
    destruct (skip_ws s1) as [|c s2]; [discriminate|].
    destruct (N.eqb_spec c 58) as [-> | _]; [|discriminate].
    destruct (skip_ws_split s2) as (w3 & Ew3 & Hw3).
    destruct (scan_once fuel (skip_ws s2)) as [[v s3]|] eqn:Ev;
      [|discriminate].
    apply IHv in Ev as (lit & Elit & Hlit).
    destruct (skip_ws_split s3) as (w4 & Ew4 & Hw4).
    destruct (skip_ws s3) as [|c' s4]; [discriminate|].
    assert (34%N :: k ++ 34%N :: s1
            = [] ++ 34%N :: k ++ 34%N :: w2 ++ 58%N :: w3 ++ lit ++ w4
                 ++ c' :: s4) as Eall.
    { rewrite Ew2. rewrite Ew3 at 1. rewrite Elit, Ew4. app_norm.
      reflexivity. }
    destruct (N.eqb_spec c' 125) as [-> | _].
    { intros H; inversion H; subst rest pairs.
      exists ([] ++ 34%N :: k ++ 34%N :: w2 ++ 58%N :: w3 ++ lit ++ w4).
      split; [rewrite Eall; app_norm; reflexivity|].
      apply members_one; try assumption. constructor. }
    destruct (N.eqb_spec c' 44) as [-> | _]; [|discriminate].
    destruct (skip_ws_split s4) as (w5 & Ew5 & Hw5).
    destruct (skip_ws s4) as [|q s5]; [discriminate|].
    destruct (N.eqb_spec q 34) as [-> | _]; [|discriminate].
    destruct (object_items fuel s5) as [[pairs' r]|] eqn:Eo; [|discriminate].
    intros H; inversion H; subst rest pairs.
    apply IHo in Eo as (ms & E & Hms).
    exists ([] ++ 34%N :: k ++ 34%N :: w2 ++ 58%N :: w3 ++ lit ++ w4
               ++ 44%N :: (w5 ++ ms)).
    split.
    + rewrite Eall, Ew5, E. app_norm. reflexivity.
    + apply members_more; try assumption; [constructor|].
      apply members_ws; assumption.
Qed.

(** A document the decoder accepts is a JSON text, with the three more
    names allowed. *)
Lemma loads_lenient_text (doc : pystr) (obj : json) :
  loads doc = Some obj -> lenient_text doc.
Proof.
  unfold loads. destruct (skip_ws_split doc) as (w1 & E1 & Hw1).
  destruct (scan_once (S (List.length doc)) (skip_ws doc))
    as [[o rest]|] eqn:Es; [|discriminate].
  destruct (skip_ws rest) eqn:Er; [|discriminate]. intros _.
  apply (proj1 (scan_sound _)) in Es as (lit & E & Hlit).
  exists w1, lit, rest. repeat split; try assumption.
  - apply skip_ws_nil. exact Er.
  - rewrite E1 at 1. rewrite E. reflexivity.
Qed.

(** The first character of a number, and of a value of the standard. *)
Lemma number_head (s : pystr) :
  number s -> exists c r, s = c :: r /\ (c = 45%N \/ DIGIT c).
Proof.
  intros [minus i f e Hm Hi Hf He].
  destruct Hm as [-> | ->]; [|exists 45%N; eexists; split; [reflexivity|auto]].
  destruct Hi as [|d ds Hd Hds]; eexists; eexists;
    (split; [reflexivity|]); right; unfold DIGIT; lia.
Qed.

Lemma value_head (v : pystr) :
  value json_literals v ->
  exists c r, v = c :: r /\ value_start c.
Proof.
  unfold value_start.
  intros [s Hs | s Hs | s Hs | w Hw | s Hs | w Hw | s Hs].
  - unfold json_literals in Hs. cbn [In] in Hs.
    destruct Hs as [<- | [<- | [<- | []]]];
      eexists; eexists; (split; [reflexivity|]); left; cbn [In]; tauto.
  - apply number_head in Hs as (c & r & -> & Hc). exists c, r.
    split; [reflexivity|].
    destruct Hc as [-> | Hc]; [left; cbn [In]; tauto | right; exact Hc].
  - eexists; eexists; (split; [reflexivity|]); left; cbn [In]; tauto.
  - eexists; eexists; (split; [reflexivity|]); left; cbn [In]; tauto.
  - eexists; eexists; (split; [reflexivity|]); left; cbn [In]; tauto.
  - eexists; eexists; (split; [reflexivity|]); left; cbn [In]; tauto.
  - eexists; eexists; (split; [reflexivity|]); left; cbn [In]; tauto.
Qed.

Lemma elements_head (s : pystr) :
  elements json_literals s ->
  exists c r, s = c :: r /\ (ws_char c \/ value_start c).
Proof.
  assert (forall w1 v tail,
             ws w1 -> value json_literals v ->
             exists c r, w1 ++ v ++ tail = c :: r
                         /\ (ws_char c \/ value_start c)) as Hhead.
  { intros w1 v tail Hw Hv. destruct Hw as [|c w1 Hc Hw].
    - apply value_head in Hv as (c & r & -> & Hc).
      exists c, (r ++ tail). split; [reflexivity | right; exact Hc].
    - exists c, (w1 ++ v ++ tail). split; [reflexivity | left; exact Hc]. }
  intros [w1 v w2 H1 Hv H2 | w1 v w2 rest H1 Hv H2 Hr]; apply Hhead;
    assumption.
Qed.

(** The letter N is neither white space nor the start of a value. *)
Lemma N_starts_nothing : ~ (ws_char 78 \/ value_start 78).
Proof.
  unfold ws_char, value_start, DIGIT. cbn [In].
  intros [H | [H | H]]; [| |lia];
    repeat (destruct H as [H | H]; [discriminate H|]); try discriminate H;
    exact H.
Qed.

(** A document that is malformed and that the decoder accepts. *)
Lemma NaN_malformed : malformed (py "[NaN]").
Proof.
  intros (w1 & v & w2 & Hw1 & Hv & Hw2 & E).
  destruct Hw1 as [|c w1 Hc Hw1].
  2:{ inversion E; subst c. unfold ws_char in Hc.
      repeat (destruct Hc as [Hc | Hc]; [discriminate Hc|]).
      discriminate Hc. }
  cbn [app] in E.
  destruct Hv as [s Hs | s Hs | s Hs | w Hw | s Hs | w Hw | s Hs].
  - unfold json_literals in Hs. cbn [In] in Hs.
    destruct Hs as [<- | [<- | [<- | []]]]; discriminate E.
  - apply number_head in Hs as (c & r & -> & Hc). inversion E; subst c.
    unfold DIGIT in Hc. destruct Hc as [Hc | Hc]; [discriminate Hc | lia].
  - discriminate E.
  - inversion E as [E']. destruct Hw as [|c w Hc Hw].
    + discriminate E'.
    + inversion E'; subst c. apply N_starts_nothing. left. exact Hc.
  - inversion E as [E'].
    apply elements_head in Hs as (c & r & -> & Hc).
    inversion E'; subst c. apply N_starts_nothing. exact Hc.
  - discriminate E.
  - discriminate E.
Qed.

End Accepts.

(** ** Record store *)

Lemma plain_json_of_grievance (g : Grievance) :
  text_record g = true -> plain (json_of_grievance g) = true.
Proof.
  unfold text_record. intros H.
  repeat (apply andb_true_iff in H as [H ?]).
  unfold json_of_grievance. cbn [plain forallb fst snd map].
  assert (forallb plain (map JStr (Keywords g)) = true) as ->.
  { rewrite forallb_forall in *. intros o Ho.
    apply in_map_iff in Ho as (k & <- & Hk). cbn [plain]. auto. }
  assert (forall p, text_path p = true -> plain (json_of_path p) = true) as Hpath.
  { intros [p|]; auto. }
  rewrite !Hpath by assumption.
  repeat match goal with
         | E : text _ = true |- _ => rewrite E; clear E
         end.
  vm_compute. reflexivity.
Qed.

Lemma plain_json_of_grievances (grievances : list Grievance) :
  forallb text_record grievances = true ->
  plain (json_of_grievances grievances) = true.
Proof.
  intros H. unfold json_of_grievances. cbn [plain].
  rewrite forallb_forall in *. intros o Ho.
  apply in_map_iff in Ho as (g & <- & Hg).
  apply plain_json_of_grievance. auto.
Qed.

(** What [save_grievances] wrote is what [load_grievances] returns. *)
Lemma load_after_save (grievances : json) (fs : filesystem) :
  plain grievances = true ->
  load_grievances (save_grievances grievances fs) = Ok grievances.
Proof.
  intros Hp. unfold load_grievances, save_grievances.
  rewrite (loads_dumps 4 grievances Hp). reflexivity.
Qed.

(** C7. Loading a document that [save_grievances] wrote gives back the
    collection that was saved, and saving what was loaded writes the same
    document again, character for character.  Stated for collections
    without floats whose strings are texts. *)
Theorem save_load_roundtrip (grievances : json) (fs : filesystem) :
  plain grievances = true ->
  load_grievances (save_grievances grievances fs) = Ok grievances
  /\ forall loaded,
       load_grievances (save_grievances grievances fs) = Ok loaded ->
       save_grievances loaded (save_grievances grievances fs)
       = save_grievances grievances fs.
Proof.
  intros Hp. pose proof (load_after_save grievances fs Hp) as Hload.
  split; [exact Hload|].
  intros loaded Hl. rewrite Hload in Hl. inversion Hl; subst. reflexivity.
Qed.

(** ** The records the program creates are texts *)

Lemma text_split_from (s word : pystr) :
  text s = true -> text word = true ->
  forallb text (split_from s word) = true.
Proof.
  unfold text. revert word.
  induction s as [|c s IH]; intros word Hs Hw; cbn [split_from].
  - destruct word; [reflexivity|]. cbn [forallb]. rewrite andb_true_r.
    rewrite forallb_forall in *. intros x Hx. apply Hw.
    apply in_rev. exact Hx.
  - cbn [forallb] in Hs. apply andb_true_iff in Hs as [Hc Hs].
    destruct (isspace c).
    + destruct word as [|w word]; [apply IH; auto|].
      cbn [forallb]. rewrite (IH [] Hs eq_refl), andb_true_r.
      rewrite forallb_forall in *. intros x Hx. apply Hw.
      apply in_rev. exact Hx.
    + apply IH; [exact Hs|]. cbn [forallb]. rewrite Hc, Hw. reflexivity.
Qed.

Lemma text_extract_keywords (s : pystr) :
  text s = true -> forallb text (extract_keywords s) = true.
Proof.
  intros H. unfold extract_keywords, split.
  pose proof (text_split_from (lower s) [] (lower_text s H) eq_refl) as Hall.
  rewrite forallb_forall in *. intros w Hw.
  apply filter_In in Hw as [Hw _]. auto.
Qed.

Lemma text_categorize_grievance (s : pystr) :
  text (categorize_grievance s) = true.
Proof.
  unfold categorize_grievance, categories. cbn [categorize_loop].
  repeat match goal with
         | |- context [if ?b then _ else _] => destruct b
         end; vm_compute; reflexivity.
Qed.

Lemma text_isoformat (d : date) : valid d = true -> text (isoformat d) = true.
Proof.
  destruct d as [y m dd]. unfold valid, valid_ymd. cbn [year month day].
  intros H. repeat (apply andb_true_iff in H as [H ?]).
  repeat match goal with
         | E : (_ <=? _) = true |- _ => apply Z.leb_le in E
         end.
  pose proof (days_in_month_le_31 y m).
  assert (forall v, 0 <= v <= 9 -> scalar_value (digit_char v) = true) as Hdig.
  { intros v Hv. unfold scalar_value, digit_char. apply orb_true_iff. left.
    apply N.ltb_lt. lia. }
  unfold isoformat, text. cbn [year month day forallb].
  rewrite !Hdig; [reflexivity | | | | | | | | ];
    Z.to_euclidean_division_equations; lia.
Qed.

Lemma text_record_new_grievance (grievance_id name : pystr)
  (grievance_date : date) (grievance_text : pystr)
  (image_path doc_path : option pystr) :
  text grievance_id = true -> text name = true ->
  valid grievance_date = true -> text grievance_text = true ->
  text_path image_path = true -> text_path doc_path = true ->
  text_record (new_grievance grievance_id name grievance_date grievance_text
                             image_path doc_path) = true.
Proof.
  intros Hid Hname Hdate Htext Himg Hdoc.
  unfold text_record, new_grievance.
  cbn [ID Name Text Category Date Keywords Status Escalated Image Attachment].
  rewrite Hid, Hname, Htext, text_categorize_grievance, Himg, Hdoc.
  rewrite (text_isoformat _ Hdate), (text_extract_keywords _ Htext).
  reflexivity.
Qed.

(** The round trip on the records of the program. *)
Lemma save_load_records (grievances : list Grievance) (fs : filesystem) :
  forallb text_record grievances = true ->
  load_grievances (save_grievances (json_of_grievances grievances) fs)
  = Ok (json_of_grievances grievances).
Proof.
  intros H. apply load_after_save. apply plain_json_of_grievances.
  exact H.
Qed.


End Program.

(** ** Examples of the specification

    The examples are on ASCII inputs and are computed with [ascii_only];
    by the lemmas on ASCII texts every database gives the same. *)

Section Examples.

#[local] Existing Instance ascii_only.

Example score_urgent_once :
  score_before_return (py "urgent") = 60.
Proof. vm_compute. reflexivity. Qed.

Example score_urgent_thrice :
  score_before_return (py "urgent urgent urgent") = 60.
Proof. vm_compute. reflexivity. Qed.

Example score_repair_once :
  score_before_return (py "repair") = 25.
Proof. vm_compute. reflexivity. Qed.

(** C4, as stated, fails: "again" contains no keyword of the three lists
    and scores 75, whatever the database. *)
Lemma grievance_score_again :
  (forall U : Unicode,
      no_listed_keyword (U := U) (py "again") = true
      /\ grievance_score (U := U) (py "again") = 75)
  /\ ~ (forall (U : Unicode) (text : pystr),
          no_listed_keyword (U := U) text = true ->
          grievance_score (U := U) text = 50).
Proof.
  assert (forall U : Unicode,
             no_listed_keyword (U := U) (py "again") = true
             /\ grievance_score (U := U) (py "again") = 75) as Hagain.
  { intros U.
    rewrite (no_listed_keyword_ascii (U := U) (py "again") eq_refl).
    rewrite (grievance_score_ascii (U := U) (py "again") eq_refl).
    split; vm_compute; reflexivity. }
  split; [exact Hagain|]. intros H.
  destruct (Hagain ascii_only) as [Hn Hs].
  rewrite (H ascii_only (py "again") Hn) in Hs. discriminate Hs.
Qed.

Lemma grievance_score_no_keyword_witness :
  no_listed_keyword (py "the roof leaks") = true
  /\ unresolved_phrase (py "the roof leaks") = false
  /\ grievance_score (py "the roof leaks") = 50.
Proof.
  split; [vm_compute; reflexivity|]. split; [vm_compute; reflexivity|].
  apply (grievance_score_no_keyword (py "the roof leaks"));
    vm_compute; reflexivity.
Defined.

Lemma suggest_action_spec_witness :
  suggest_action (py "Water Supply") 80
  = py "Forward to Jal Nigam for urgent inspection"
  /\ suggest_action (py "Water Supply") 50
     = py "Forward to Jal Nigam for regular check"
  /\ suggest_action (py "Unknown") 90
     = py "Review and assign appropriate department.".
Proof.
  pose proof (suggest_action_spec (py "Water Supply") 80) as [H80 _].
  pose proof (suggest_action_spec (py "Water Supply") 50) as [H50 _].
  pose proof (suggest_action_spec (py "Unknown") 90) as [_ Hu].
  split; [|split].
  - apply H80; [simpl; auto | lia].
  - apply H50; [simpl; auto | lia].
  - apply Hu. simpl. intros H.
    repeat (destruct H as [H | H]; [discriminate H|]). exact H.
Defined.

Lemma auto_escalate_spec_witness :
  strptime_ymd (Date sample_grievance) = Some (mkdate 2024 3 9)
  /\ auto_escalate (mkdate 2024 3 14) sample_grievance
     = Ok (true, escalated_record sample_grievance)
  /\ auto_escalate (mkdate 2024 3 10) sample_grievance
     = Ok (false, sample_grievance).
Proof.
  assert (strptime_ymd (Date sample_grievance) = Some (mkdate 2024 3 9))
    as Hd by (vm_compute; reflexivity).
  split; [exact Hd|]. split.
  - apply (auto_escalate_spec (mkdate 2024 3 14) sample_grievance
                              (mkdate 2024 3 9) Hd).
    split; vm_compute; reflexivity.
  - apply (auto_escalate_spec (mkdate 2024 3 10) sample_grievance
                              (mkdate 2024 3 9) Hd).
    intros [_ H]. vm_compute in H. discriminate.
Defined.

Example auto_escalate_resolved :
  auto_escalate (mkdate 2025 1 1) (set_Status (py "Resolved") sample_grievance)
  = Ok (false, set_Status (py "Resolved") sample_grievance).
Proof. vm_compute. reflexivity. Qed.

(** A Date that is no calendar date makes the call raise, whatever the
    Status. *)
Example auto_escalate_bad_date :
  auto_escalate (mkdate 2025 1 1)
    (mkGrievance (py "ab12cd34") (py "Asha") (py "tap") (py "Other")
                 (py "yesterday") 50 [] (py "Resolved") (py "No") None None)
  = Raise ValueError.
Proof. vm_compute. reflexivity. Qed.

Lemma update_status_assign_then_escalate_witness :
  exists g',
    update_status (mkdate 2024 3 14) (py "ab12cd34") (py "Pending")
                  [sample_grievance] None
    = Ok ([g'], Some (dumps 4 (json_of_grievances [g'])))
    /\ Status g' = py "Escalated" /\ Escalated g' = py "Yes".
Proof.
  destruct (update_status_assign_then_escalate
              (mkdate 2024 3 14) (py "ab12cd34") (py "Pending")
              [sample_grievance] None)
    as (grievances' & Hu & Hl & Hn).
  - intros g0 [<- | []] _. vm_compute. discriminate.
  - destruct (Hn 0%nat sample_grievance eq_refl) as (g' & Hg' & _ & Hsel).
    destruct grievances' as [|g1 [|g2 rest]]; try discriminate Hl.
    simpl in Hg'. inversion Hg'; subst g1.
    exists g'. split; [exact Hu|].
    destruct (Hsel eq_refl) as [_ Hcases].
    destruct (Hcases (mkdate 2024 3 9) eq_refl) as [Hp _].
    destruct Hp as (_ & Hs & He); [reflexivity | vm_compute; reflexivity |].
    split; assumption.
Defined.

Lemma save_load_roundtrip_witness :
  plain (json_of_grievances [sample_grievance]) = true
  /\ load_grievances
       (save_grievances (json_of_grievances [sample_grievance]) None)
     = Ok (json_of_grievances [sample_grievance])
  /\ save_grievances (json_of_grievances [sample_grievance])
       (save_grievances (json_of_grievances [sample_grievance]) None)
     = save_grievances (json_of_grievances [sample_grievance]) None.
Proof.
  assert (plain (json_of_grievances [sample_grievance]) = true) as Hp
    by (vm_compute; reflexivity).
  destruct (save_load_roundtrip (json_of_grievances [sample_grievance]) None
                                Hp) as [Hload Hsave].
  split; [exact Hp|]. split; [exact Hload|]. apply Hsave. exact Hload.
Defined.


Example load_malformed :
  load_grievances (Some (py "[1,]")) = Raise JSONDecodeError
  /\ load_grievances (Some (py "")) = Raise JSONDecodeError
  /\ load_grievances (Some (py "[] []")) = Raise JSONDecodeError.
Proof. vm_compute. repeat split. Qed.

Example score_routine_checkup :
  grievance_score (py "routine checkup") = 60.
Proof. vm_compute. reflexivity. Qed.

Example score_urgent_fire :
  grievance_score (py "urgent fire emergency") = 100.
Proof. vm_compute. reflexivity. Qed.

Example categorize_tap :
  categorize_grievance (py "my tap is broken") = py "Water Supply".
Proof. vm_compute. reflexivity. Qed.

Example categorize_roof :
  categorize_grievance (py "the roof leaks") = py "Other".
Proof. vm_compute. reflexivity. Qed.

Example submit_asha :
  Category sample_grievance = py "Water Supply"
  /\ Priority sample_grievance = 100
  /\ Status sample_grievance = py "Pending"
  /\ Escalated sample_grievance = py "No".
Proof. vm_compute. repeat split. Qed.

End Examples.

(* ================================================================== *)
(** * Further properties of the program *)

Section Further.

Context {U : Unicode}.

(** ** Keyword extraction *)

Lemma substring_app_l (w s pre : pystr) :
  substring w s -> substring w (pre ++ s).
Proof.
  intros (a & b & ->). exists (pre ++ a), b. rewrite <- app_assoc.
  reflexivity.
Qed.

Lemma substring_app_r (w s post : pystr) :
  substring w s -> substring w (s ++ post).
Proof.
  intros (a & b & ->). exists a, (b ++ post). rewrite <- !app_assoc.
  reflexivity.
Qed.

Lemma split_from_words (s : pystr) :
  forall word,
    forallb (fun c => negb (isspace c)) word = true ->
    Forall (fun w => w <> []
                     /\ forallb (fun c => negb (isspace c)) w = true
                     /\ substring w (rev word ++ s))
           (split_from s word).
Proof.
  induction s as [|c s IH]; intros word Hword; cbn [split_from].
  - destruct word as [|a word]; constructor; [|constructor].
    split; [|split].
    + intros E. apply (f_equal (@List.length N)) in E.
      rewrite length_rev in E. discriminate E.
    + rewrite forallb_forall in *. intros x Hx. apply Hword.
      apply in_rev. exact Hx.
    + exists [], []. rewrite !app_nil_r. reflexivity.
  - destruct (isspace c) eqn:Ec.
    + assert (Forall (fun w => w <> []
                  /\ forallb (fun c => negb (isspace c)) w = true
                  /\ substring w (rev word ++ c :: s)) (split_from s [])) as Ht.
      { eapply Forall_impl; [|apply (IH [] eq_refl)].
        intros w (Hn & Hs & Hsub). repeat split; auto.
        cbn [rev app] in Hsub. apply substring_app_l.
        apply (substring_app_l w s [c]). exact Hsub. }
      destruct word as [|a word]; [exact Ht|].
      constructor; [|exact Ht]. split; [|split].
      * intros E. apply (f_equal (@List.length N)) in E.
        rewrite length_rev in E. discriminate E.
      * rewrite forallb_forall in *. intros x Hx. apply Hword.
        apply in_rev. exact Hx.
      * apply substring_app_r. exists [], []. rewrite app_nil_r. reflexivity.
    + assert (forallb (fun c => negb (isspace c)) (c :: word) = true) as Hw.
      { cbn [forallb]. rewrite Ec, Hword. reflexivity. }
      eapply Forall_impl; [|apply (IH (c :: word) Hw)].
      intros w (Hn & Hs & Hsub). repeat split; auto.
      cbn [rev] in Hsub. rewrite <- app_assoc in Hsub. exact Hsub.
Qed.

Lemma extract_keywords_In (text word : pystr) :
  In word (extract_keywords text) ->
  (4 < List.length word)%nat
  /\ forallb (fun c => negb (isspace c)) word = true
  /\ substring word (lower text).
Proof.
  unfold extract_keywords, split. intros Hw.
  apply filter_In in Hw as [Hin Hlen].
  pose proof (split_from_words (lower text) [] eq_refl) as Hall.
  rewrite Forall_forall in Hall. destruct (Hall word Hin) as (_ & Hs & Hsub).
  apply Z.ltb_lt in Hlen. repeat split; [lia | exact Hs | exact Hsub].
Qed.

(** X1. Every keyword [extract_keywords] returns has more than 4 characters,
    holds no white-space character and occurs in the lowercased text. *)
Theorem extract_keywords_words (text : pystr) :
  Forall (fun word => (4 < List.length word)%nat
                      /\ forallb (fun c => negb (isspace c)) word = true
                      /\ substring word (lower text))
         (extract_keywords text).
Proof.
  apply Forall_forall. intros w Hw. apply extract_keywords_In. exact Hw.
Qed.

Lemma split_from_blank (s : pystr) :
  forallb isspace s = true -> split_from s [] = [].
Proof.
  induction s as [|c s IH]; cbn [forallb split_from]; [reflexivity|].
  intros H. apply andb_true_iff in H as [-> Hs]. apply IH. exact Hs.
Qed.

Lemma split_from_single (s : pystr) :
  forall word,
    forallb (fun c => negb (isspace c)) s = true ->
    split_from s word
    = match rev word ++ s with [] => [] | w => [w] end.
Proof.
  induction s as [|c s IH]; intros word Hs; cbn [split_from].
  - rewrite app_nil_r. destruct word as [|a word]; [reflexivity|].
    destruct (rev (a :: word)) eqn:E; [|reflexivity].
    apply (f_equal (@List.length N)) in E. rewrite length_rev in E.
    discriminate E.
  - cbn [forallb] in Hs. apply andb_true_iff in Hs as [Hc Hs].
    apply negb_true_iff in Hc. rewrite Hc, (IH (c :: word) Hs).
    cbn [rev]. rewrite <- app_assoc. reflexivity.
Qed.

(** X2. A text whose lowercased form is empty or all white space has no
    keywords; a text whose lowercased form has no white space is one word:
    that form is the only keyword when it has more than 4 characters, and
    there is no keyword otherwise. *)
Theorem extract_keywords_edges (text : pystr) :
  (forallb isspace (lower text) = true -> extract_keywords text = [])
  /\ (forallb (fun c => negb (isspace c)) (lower text) = true ->
      extract_keywords text
      = if (4 <? Z.of_nat (List.length (lower text))) then [lower text]
        else []).
Proof.
  unfold extract_keywords, split. split; intros H.
  - rewrite split_from_blank; [reflexivity | exact H].
  - rewrite split_from_single by exact H.
    cbn [rev app]. destruct (lower text) as [|a l]; [reflexivity|].
    cbn [filter]. reflexivity.
Qed.

(** ** More on the scorer *)

(** On ASCII texts [lower] goes character by character. *)
Lemma lower_app (a b : pystr) :
  forallb is_ascii (a ++ b) = true -> lower (a ++ b) = lower a ++ lower b.
Proof.
  intros H. pose proof H as Hab. rewrite forallb_app in Hab.
  apply andb_true_iff in Hab as [Ha Hb].
  rewrite !lower_ascii by assumption. apply map_app.
Qed.

Lemma contains_extend (w pre s post : pystr) :
  forallb is_ascii (pre ++ s ++ post) = true ->
  contains w (lower s) = true ->
  contains w (lower (pre ++ s ++ post)) = true.
Proof.
  intros Ha H. apply contains_spec in H. apply contains_spec.
  pose proof Ha as Hsp. rewrite forallb_app in Hsp.
  apply andb_true_iff in Hsp as [_ Hsp].
  rewrite (lower_app pre _ Ha), (lower_app s post Hsp).
  apply substring_app_l, substring_app_r. exact H.
Qed.

Lemma list_weight_extend (keywords : list pystr) (points : Z)
  (pre text post : pystr) :
  forallb is_ascii (pre ++ text ++ post) = true ->
  0 <= points ->
  list_weight keywords points text
  <= list_weight keywords points (pre ++ text ++ post).
Proof.
  intros Ha Hp. unfold list_weight.
  induction keywords as [|w keywords IH]; cbn [map sumZ fold_right]; [lia|].
  fold (sumZ (map (keyword_weight points text) keywords)).
  fold (sumZ (map (keyword_weight points (pre ++ text ++ post)) keywords)).
  unfold keyword_weight at 1 3.
  destruct (contains w (lower text)) eqn:E.
  - rewrite (contains_extend w pre text post Ha E). lia.
  - destruct (contains w (lower (pre ++ text ++ post))); lia.
Qed.


Lemma list_weight_count (keywords : list pystr) (points : Z) (text : pystr) :
  list_weight keywords points text
  = points
    * Z.of_nat (List.length
                  (filter (fun w => contains w (lower text)) keywords)).
Proof.
  unfold list_weight.
  induction keywords as [|w keywords IH]; cbn [map sumZ fold_right filter].
  - cbn [List.length]. lia.
  - fold (sumZ (map (keyword_weight points text) keywords)). rewrite IH.
    unfold keyword_weight. destruct (contains w (lower text));
      cbn [List.length]; lia.
Qed.

(** X4. The score is always a multiple of 5. *)
Theorem grievance_score_multiple_of_5 (text : pystr) :
  exists k, grievance_score text = 5 * k.
Proof.
  unfold grievance_score. rewrite score_before_return_sum.
  rewrite !list_weight_count.
  set (u := Z.of_nat _). set (m := Z.of_nat _). set (l := Z.of_nat _).
  destruct (unresolved_phrase text);
    destruct (Z.min_spec (40 * u + 20 * m + 5 * l + 25 + 50) 100)
      as [[_ ->] | [_ ->]] ||
    destruct (Z.min_spec (40 * u + 20 * m + 5 * l + 0 + 50) 100)
      as [[_ ->] | [_ ->]];
    first [ exists 20; lia
          | exists (8 * u + 4 * m + l + 15); lia
          | exists (8 * u + 4 * m + l + 10); lia ].
Qed.

Lemma list_weight_some (keywords : list pystr) (points : Z) (text : pystr) :
  0 <= points -> any_keyword keywords text = true ->
  points <= list_weight keywords points text.
Proof.
  intros Hp. unfold any_keyword, list_weight.
  induction keywords as [|w keywords IH]; cbn [existsb map sumZ fold_right];
    [discriminate|].
  fold (sumZ (map (keyword_weight points text) keywords)).
  pose proof (list_weight_nonneg keywords points text Hp) as Hn.
  unfold list_weight in Hn. unfold keyword_weight at 1.
  destruct (contains w (lower text)); cbn [orb]; intros H; [lia|].
  specialize (IH H). lia.
Qed.

(** X5. One keyword is enough for its tier: a text with an urgent keyword
    scores at least 90, with a medium keyword at least 70, with a low
    keyword at least 55, and with "not resolved" or "again" at least 75. *)
Theorem grievance_score_tiers (text : pystr) :
  (any_keyword urgent_keywords text = true -> 90 <= grievance_score text)
  /\ (any_keyword medium_keywords text = true -> 70 <= grievance_score text)
  /\ (any_keyword low_keywords text = true -> 55 <= grievance_score text)
  /\ (unresolved_phrase text = true -> 75 <= grievance_score text).
Proof.
  unfold grievance_score. rewrite score_before_return_sum.
  pose proof (list_weight_nonneg urgent_keywords 40 text ltac:(lia)).
  pose proof (list_weight_nonneg medium_keywords 20 text ltac:(lia)).
  pose proof (list_weight_nonneg low_keywords 5 text ltac:(lia)).
  assert (0 <= (if unresolved_phrase text then 25 else 0))
    by (destruct (unresolved_phrase text); lia).
  repeat split; intros Hk.
  - pose proof (list_weight_some urgent_keywords 40 text ltac:(lia) Hk). lia.
  - pose proof (list_weight_some medium_keywords 20 text ltac:(lia) Hk). lia.
  - pose proof (list_weight_some low_keywords 5 text ltac:(lia) Hk). lia.
  - rewrite Hk. lia.
Qed.

(** ** Submission and escalation together *)

(** X6. The date the Submit Grievance branch writes is read back by
    [auto_escalate]: on a record as submitted the call never raises, and it
    escalates exactly when today is more than 3 days after the submitted
    date. *)
Theorem auto_escalate_submitted (today : date) (grievance_id name : pystr)
  (grievance_date : date) (grievance_text : pystr)
  (image_path doc_path : option pystr) :
  valid grievance_date = true ->
  let g := new_grievance grievance_id name grievance_date grievance_text
                         image_path doc_path in
  auto_escalate today g
  = if 3 <? days_between today grievance_date
    then Ok (true, escalated_record g)
    else Ok (false, g).
Proof.
  intros Hv g. unfold auto_escalate.
  assert (strptime_ymd (Date g) = Some grievance_date) as ->
    by (apply strptime_isoformat; exact Hv).
  assert (PyStr.eqb (Status g) (py "Pending") = true) as -> by reflexivity.
  cbn [andb]. destruct (3 <? days_between today grievance_date); reflexivity.
Qed.

Lemma categorize_loop_range (items : list (pystr * list pystr))
  (text : pystr) :
  In (categorize_loop items text) (map fst items ++ [py "Other"]).
Proof.
  induction items as [|[category keywords] rest IH]; cbn [categorize_loop].
  - left. reflexivity.
  - destruct (any_keyword keywords text); [left; reflexivity|].
    right. exact IH.
Qed.

(** X7. The record the Submit Grievance branch creates has one of the five
    categories, a priority from 50 to 100, Status "Pending" and Escalated
    "No", and keywords of more than 4 characters. *)
Theorem new_grievance_fields (grievance_id name : pystr)
  (grievance_date : date) (grievance_text : pystr)
  (image_path doc_path : option pystr) :
  let g := new_grievance grievance_id name grievance_date grievance_text
                         image_path doc_path in
  In (Category g)
     [py "Water Supply"; py "Garbage"; py "Electricity"; py "Road Damage";
      py "Other"]
  /\ 50 <= Priority g <= 100
  /\ Status g = py "Pending" /\ Escalated g = py "No"
  /\ Forall (fun word => (4 < List.length word)%nat) (Keywords g).
Proof.
  intros g. split; [|split; [|split; [|split]]].
  - exact (categorize_loop_range categories grievance_text).
  - cbn [g new_grievance Priority]. unfold grievance_score.
    pose proof (score_before_return_nonneg grievance_text). lia.
  - reflexivity.
  - reflexivity.
  - apply Forall_forall. intros w Hw.
    apply (extract_keywords_In grievance_text w Hw).
Qed.

(** X8. Once [auto_escalate] has escalated a record it returns false on that
    record on every later call, whatever the day. *)
Theorem auto_escalate_once (today today' : date) (g g' : Grievance) :
  auto_escalate today g = Ok (true, g') ->
  auto_escalate today' g' = Ok (false, g').
Proof.
  intros H. pose proof H as H0. apply auto_escalate_Escalated in H.
  destruct H as [[E _] | (_ & -> & _)]; [discriminate E|].
  unfold auto_escalate in *. cbn [escalated_record set_Status Date] in *.
  cbn [set_Escalated Date] in *.
  destruct (strptime_ymd (Date g)); [|discriminate H0]. reflexivity.
Qed.

(** ** More on the Update Status button *)

Lemma update_loop_absent (today : date) (selected_id new_status : pystr)
  (grievances : list Grievance) :
  (forall g, In g grievances -> ID g <> selected_id) ->
  update_loop today selected_id new_status grievances = Ok grievances.
Proof.
  induction grievances as [|g rest IH]; intros H; cbn [update_loop].
  - reflexivity.
  - assert (PyStr.eqb (ID g) selected_id = false) as ->
      by (apply eqb_neq; apply H; left; reflexivity).
    rewrite IH; [reflexivity|]. intros g0 Hin. apply H. right. exact Hin.
Qed.

(** X9. When no record has the selected ID the Update Status button changes
    no record and does not raise, whatever the dates of the records, and it
    still rewrites the file from the collection. *)
Theorem update_status_absent (today : date) (selected_id new_status : pystr)
  (grievances : list Grievance) (fs : filesystem) :
  (forall g, In g grievances -> ID g <> selected_id) ->
  update_status today selected_id new_status grievances fs
  = Ok (grievances, Some (dumps 4 (json_of_grievances grievances))).
Proof.
  intros H. unfold update_status, save_grievances.
  rewrite (update_loop_absent _ _ _ _ H). reflexivity.
Qed.

Lemma bad_date_dec (selected_id : pystr) (grievances : list Grievance) :
  (exists g, In g grievances /\ ID g = selected_id
             /\ strptime_ymd (Date g) = None)
  \/ ~ (exists g, In g grievances /\ ID g = selected_id
                  /\ strptime_ymd (Date g) = None).
Proof.
  induction grievances as [|g0 rest [IH | IH]].
  - right. intros (g & [] & _).
  - left. destruct IH as (g & Hin & H). exists g. split; [right|]; auto.
  - destruct (PyStr.eqb (ID g0) selected_id) eqn:Eid.
    + destruct (strptime_ymd (Date g0)) eqn:Ed.
      * right. intros (g & [<- | Hin] & Hid & Hd); [congruence|].
        apply IH. exists g. auto.
      * left. exists g0. apply eqb_eq in Eid. repeat split; auto.
        left; reflexivity.
    + right. intros (g & [<- | Hin] & Hid & Hd).
      * apply eqb_neq in Eid. contradiction.
      * apply IH. exists g. auto.
Qed.

Lemma update_loop_raises (today : date) (selected_id new_status : pystr)
  (grievances : list Grievance) :
  (exists g, In g grievances /\ ID g = selected_id
             /\ strptime_ymd (Date g) = None) ->
  update_loop today selected_id new_status grievances = Raise ValueError.
Proof.
  induction grievances as [|g0 rest IH]; intros (g & Hin & Hid & Hd).
  - destruct Hin.
  - cbn [update_loop].
    destruct (PyStr.eqb (ID g0) selected_id) eqn:Eid.
    + unfold auto_escalate at 1. cbn [set_Status Date].
      destruct (strptime_ymd (Date g0)) as [d|] eqn:Ed; [|reflexivity].
      destruct Hin as [-> | Hin]; [congruence|].
      rewrite IH by (exists g; auto).
      destruct (_ && _)%bool; reflexivity.
    + destruct Hin as [-> | Hin].
      * apply eqb_neq in Eid. contradiction.
      * rewrite IH by (exists g; auto). reflexivity.
Qed.

(** X10. The Update Status button raises, and then saves nothing, exactly
    when some record with the selected ID has a Date that [strptime]
    rejects; the error is a [ValueError]. *)
Theorem update_status_raises_iff (today : date)
  (selected_id new_status : pystr) (grievances : list Grievance)
  (fs : filesystem) :
  ((exists e, update_status today selected_id new_status grievances fs
              = Raise e)
   <-> (exists g, In g grievances /\ ID g = selected_id
                  /\ strptime_ymd (Date g) = None))
  /\ (forall e, update_status today selected_id new_status grievances fs
                = Raise e -> e = ValueError).
Proof.
  unfold update_status.
  destruct (bad_date_dec selected_id grievances) as [Hbad | Hgood].
  - rewrite (update_loop_raises today _ new_status _ Hbad). split.
    + split; [intros _; exact Hbad | intros _; exists ValueError; reflexivity].
    + intros e H. inversion H. reflexivity.
  - destruct (update_loop_ok today selected_id new_status grievances)
      as [gs' ->].
    { intros g Hin Hid Hd. apply Hgood. exists g. auto. }
    split.
    + split; [intros [e He]; discriminate He | intros H; contradiction].
    + intros e He. discriminate He.
Qed.

Lemma update_step_idempotent (today : date) (new_status : pystr)
  (g g1 : Grievance) (b : bool) :
  auto_escalate today (set_Status new_status g) = Ok (b, g1) ->
  ID g1 = ID g
  /\ exists b', auto_escalate today (set_Status new_status g1) = Ok (b', g1).
Proof.
  intros H.
  destruct (auto_escalate_Escalated _ _ _ _ H) as [[-> ->] | (-> & -> & Hs)].
  - split; [reflexivity|]. exists false. destruct g; exact H.
  - split; [reflexivity|]. exists true.
    cbn [set_Status Status] in Hs. subst new_status.
    unfold auto_escalate in *.
    destruct g as [gid gname gtext gcat gdate gprio gkw gstat gesc gimg gatt].
    cbn in *.
    destruct (strptime_ymd gdate) as [d|]; [|discriminate H].
    destruct (3 <? days_between today d); [reflexivity | discriminate H].
Qed.

Lemma update_loop_idempotent (today : date) (selected_id new_status : pystr)
  (grievances : list Grievance) :
  forall grievances',
    update_loop today selected_id new_status grievances = Ok grievances' ->
    update_loop today selected_id new_status grievances' = Ok grievances'.
Proof.
  induction grievances as [|g rest IH]; intros grievances'; cbn [update_loop].
  - intros H; inversion H; subst. reflexivity.
  - destruct (PyStr.eqb (ID g) selected_id) eqn:Eid.
    + destruct (auto_escalate today (set_Status new_status g))
        as [[b g1]|e] eqn:Ea; [|discriminate].
      destruct (update_loop today selected_id new_status rest)
        as [rest'|e]; [|discriminate].
      intros H; inversion H; subst; clear H.
      destruct (update_step_idempotent _ _ _ _ _ Ea) as [Hid [b' Hb']].
      cbn [update_loop]. rewrite Hid, Eid, Hb', (IH rest' eq_refl).
      reflexivity.
    + destruct (update_loop today selected_id new_status rest)
        as [rest'|e]; [|discriminate].
      intros H; inversion H; subst; clear H.
      cbn [update_loop]. rewrite Eid, (IH rest' eq_refl). reflexivity.
Qed.

(** X11. Pressing Update Status again with the same choice on the same day
    changes nothing more: the collection and the file stay as the first
    press left them. *)
Theorem update_status_idempotent (today : date)
  (selected_id new_status : pystr) (grievances grievances' : list Grievance)
  (fs fs' : filesystem) :
  update_status today selected_id new_status grievances fs
  = Ok (grievances', fs') ->
  update_status today selected_id new_status grievances' fs'
  = Ok (grievances', fs').
Proof.
  unfold update_status.
  destruct (update_loop today selected_id new_status grievances)
    as [gs|e] eqn:Hu; [|discriminate].
  intros H; inversion H; subst; clear H.
  rewrite (update_loop_idempotent _ _ _ _ _ Hu). reflexivity.
Qed.

(** ** What no action changes *)

Lemma same_submission_refl (g : Grievance) : same_submission g g.
Proof. repeat split. Qed.

Lemma same_submission_trans (g1 g2 g3 : Grievance) :
  same_submission g1 g2 -> same_submission g2 g3 -> same_submission g1 g3.
Proof.
  unfold same_submission. intros H1 H2.
  repeat match goal with H : _ /\ _ |- _ => destruct H end.
  repeat split; congruence.
Qed.

Lemma perform_same_submission (today : date) (a : action)
  (grievances grievances' : list Grievance) (fs fs' : filesystem) :
  perform today a (grievances, fs) = Ok (grievances', fs') ->
  (List.length grievances <= List.length grievances')%nat
  /\ forall i g, nth_error grievances i = Some g ->
       exists g', nth_error grievances' i = Some g' /\ same_submission g g'.
Proof.
  destruct a as [gid name gdate gtext uploads | sel new | name | name fb];
    cbn [perform].
  - intros H.
    apply submit_grievance_Ok in H as [[-> ->] | (img & doc & _ & -> & _)];
      [split; [lia | intros i g Hg; exists g; split;
                     [exact Hg | apply same_submission_refl]]|].
    split; [rewrite length_app; lia|].
    intros i g Hg. exists g. split; [|apply same_submission_refl].
    rewrite nth_error_app1; [exact Hg|]. apply nth_error_Some. congruence.
  - unfold update_status.
    destruct (update_loop today sel new grievances) as [gs|e] eqn:Hu;
      [|discriminate].
    intros H; inversion H; subst; clear H.
    destruct (update_loop_nth _ _ _ _ _ Hu) as [Hl Hn]. split; [lia|].
    intros i g Hg. destruct (Hn i g Hg) as (g' & Hg' & Hother & Hsel).
    exists g'. split; [exact Hg'|].
    destruct (PyStr.eqb (ID g) sel) eqn:Eid.
    + apply eqb_eq in Eid. destruct (Hsel Eid) as [b Hb].
      destruct (auto_escalate_Escalated _ _ _ _ Hb)
        as [[_ ->] | (_ & -> & _)]; repeat split.
    + apply eqb_neq in Eid. rewrite (Hother Eid). apply same_submission_refl.
  - intros H; inversion H; subst. split; [lia|].
    intros i g Hg. exists g. split; [exact Hg | apply same_submission_refl].
  - intros H; inversion H; subst. split; [lia|].
    intros i g Hg. exists g. split; [exact Hg | apply same_submission_refl].
Qed.

(** X12. No run of actions removes or reorders a record, and none changes a
    record's ID, Name, Text, Category, Date, Priority, Keywords, Image or
    Attachment: only Status and Escalated ever change. *)
Theorem perform_all_same_submission (run : list (date * action))
  (grievances grievances' : list Grievance) (fs fs' : filesystem) :
  perform_all run (grievances, fs) = Ok (grievances', fs') ->
  (List.length grievances <= List.length grievances')%nat
  /\ forall i g, nth_error grievances i = Some g ->
       exists g', nth_error grievances' i = Some g' /\ same_submission g g'.
Proof.
  revert grievances fs.
  induction run as [|[today a] run IH]; intros grievances fs;
    cbn [perform_all].
  - intros H; inversion H; subst. split; [lia|].
    intros i g Hg. exists g. split; [exact Hg | apply same_submission_refl].
  - destruct (perform today a (grievances, fs)) as [[mid fs1]|e] eqn:Ep;
      [|discriminate].
    intros Hrun. destruct (perform_same_submission _ _ _ _ _ _ Ep) as [Hl1 H1].
    destruct (IH mid fs1 Hrun) as [Hl2 H2]. split; [lia|].
    intros i g Hg. destruct (H1 i g Hg) as (g1 & Hg1 & Hs1).
    destruct (H2 i g1 Hg1) as (g' & Hg' & Hs2).
    exists g'. split; [exact Hg'|].
    exact (same_submission_trans _ _ _ Hs1 Hs2).
Qed.

(** ** The file follows the collection *)

Lemma text_record_set_Status (v : pystr) (g : Grievance) :
  text v = true -> text_record g = true -> text_record (set_Status v g) = true.
Proof.
  unfold text_record. cbn [set_Status ID Name Text Category Date Keywords
                           Status Escalated Image Attachment].
  intros Hv H. repeat (apply andb_true_iff in H as [H ?]).
  repeat (apply andb_true_iff; split); assumption.
Qed.

Lemma text_record_escalated_record (g : Grievance) :
  text_record g = true -> text_record (escalated_record g) = true.
Proof.
  unfold text_record, escalated_record.
  cbn [set_Status set_Escalated ID Name Text Category Date Keywords
       Status Escalated Image Attachment].
  intros H. repeat (apply andb_true_iff in H as [H ?]).
  repeat (apply andb_true_iff; split); try assumption; reflexivity.
Qed.

Lemma text_record_update_loop (today : date) (selected_id new_status : pystr)
  (grievances : list Grievance) :
  text new_status = true ->
  forall grievances',
    update_loop today selected_id new_status grievances = Ok grievances' ->
    forallb text_record grievances = true ->
    forallb text_record grievances' = true.
Proof.
  intros Hnew.
  induction grievances as [|g rest IH]; intros grievances'; cbn [update_loop].
  - intros H _; inversion H; subst. reflexivity.
  - cbn [forallb].
    destruct (PyStr.eqb (ID g) selected_id).
    + destruct (auto_escalate today (set_Status new_status g))
        as [[b g1]|e] eqn:Ea; [|discriminate].
      destruct (update_loop today selected_id new_status rest)
        as [rest'|e]; [|discriminate].
      intros H Ht; inversion H; subst; clear H.
      apply andb_true_iff in Ht as [Hg Hrest]. cbn [forallb].
      rewrite (IH rest' eq_refl Hrest), andb_true_r.
      pose proof (text_record_set_Status new_status g Hnew Hg) as Hs.
      destruct (auto_escalate_Escalated _ _ _ _ Ea)
        as [[_ ->] | (_ & -> & _)]; [exact Hs|].
      apply text_record_escalated_record. exact Hs.
    + destruct (update_loop today selected_id new_status rest)
        as [rest'|e]; [|discriminate].
      intros H Ht; inversion H; subst; clear H.
      apply andb_true_iff in Ht as [Hg Hrest]. cbn [forallb].
      rewrite Hg, (IH rest' eq_refl Hrest). reflexivity.
Qed.

(** The file holds the collection: loading it gives the records back. *)
Lemma perform_stored (today : date) (a : action)
  (grievances grievances' : list Grievance) (fs fs' : filesystem) :
  action_ok a = true ->
  forallb text_record grievances = true ->
  load_grievances fs = Ok (json_of_grievances grievances) ->
  perform today a (grievances, fs) = Ok (grievances', fs') ->
  forallb text_record grievances' = true
  /\ load_grievances fs' = Ok (json_of_grievances grievances').
Proof.
  destruct a as [gid name gdate gtext uploads | sel new | name | name fb];
    cbn [perform action_ok]; intros Hok Ht Hl.
  - intros H.
    apply submit_grievance_Ok in H as [[-> ->] | (img & doc & -> & -> & ->)];
      [split; assumption|].
    repeat (apply andb_true_iff in Hok as [Hok ?]).
    match goal with
    | Hp : (text_path img && text_path doc)%bool = true |- _ =>
        apply andb_true_iff in Hp as [Himg Hdoc]
    end.
    assert (forallb text_record
              (grievances ++ [new_grievance gid name gdate gtext img doc])
            = true) as Ht'.
    { rewrite forallb_app, Ht. cbn [forallb].
      rewrite text_record_new_grievance by assumption. reflexivity. }
    split; [exact Ht'|]. apply save_load_records. exact Ht'.
  - unfold update_status.
    destruct (update_loop today sel new grievances) as [gs|e] eqn:Hu;
      [|discriminate].
    intros H; inversion H; subst; clear H.
    pose proof (text_record_update_loop _ _ _ _ Hok _ Hu Ht) as Ht'.
    split; [exact Ht'|]. apply save_load_records. exact Ht'.
  - intros H; inversion H; subst. split; assumption.
  - intros H; inversion H; subst. split; assumption.
Qed.

(** X13. Starting with no file and an empty collection, after any run of
    actions on text inputs that does not raise, loading the file gives back
    exactly the collection the program holds. *)
Theorem perform_all_stored (run : list (date * action))
  (grievances : list Grievance) (fs : filesystem) :
  forallb (fun step => action_ok (snd step)) run = true ->
  perform_all run ([], None) = Ok (grievances, fs) ->
  load_grievances fs = Ok (json_of_grievances grievances).
Proof.
  intros Hok Hrun.
  enough (forall run gs0 fs0,
             forallb (fun step => action_ok (snd step)) run = true ->
             forallb text_record gs0 = true ->
             load_grievances fs0 = Ok (json_of_grievances gs0) ->
             perform_all run (gs0, fs0) = Ok (grievances, fs) ->
             load_grievances fs = Ok (json_of_grievances grievances)) as Hgen.
  { apply (Hgen run [] None Hok eq_refl eq_refl Hrun). }
  clear. intros run.
  induction run as [|[today a] run IH]; intros gs0 fs0 Hok Ht Hl;
    cbn [perform_all].
  - intros H; inversion H; subst. exact Hl.
  - cbn [forallb snd] in Hok. apply andb_true_iff in Hok as [Ha Hok].
    destruct (perform today a (gs0, fs0)) as [[mid fs1]|e] eqn:Ep;
      [|discriminate].
    destruct (perform_stored _ _ _ _ _ _ Ha Ht Hl Ep) as [Ht1 Hl1].
    apply (IH mid fs1 Hok Ht1 Hl1).
Qed.

(** ** Track History *)

(** X14. A submission with a name and a text whose uploads were written
    does not raise, and the record it appends is found by Track History
    under every search whose lowercased form is the lowercased name of the
    submitter. *)
Theorem track_records_submitted (grievance_id name : pystr)
  (grievance_date : date) (grievance_text : pystr)
  (image_path doc_path : option pystr) (grievances : list Grievance)
  (fs : filesystem) (search : pystr) :
  name <> [] -> grievance_text <> [] ->
  lower search = lower name ->
  exists grievances' fs',
    submit_grievance grievance_id name grievance_date grievance_text
                     (Ok (image_path, doc_path)) grievances fs
    = Ok (grievances', fs')
    /\ In (new_grievance grievance_id name grievance_date grievance_text
                         image_path doc_path)
          (track_records search grievances').
Proof.
  intros Hname Htext Hsearch. unfold submit_grievance, track_records.
  destruct name as [|c name]; [contradiction|].
  destruct grievance_text as [|c' gtext]; [contradiction|].
  eexists _, _. split; [reflexivity|]. apply filter_In. split.
  - apply in_or_app. right. left. reflexivity.
  - cbn [new_grievance Name]. rewrite Hsearch. apply eqb_refl.
Qed.

(** ** The dashboard *)

Lemma fold_left_max_spec (s : list Z) :
  forall a,
    (fold_left Z.max s a = a \/ In (fold_left Z.max s a) s)
    /\ a <= fold_left Z.max s a
    /\ forall q, In q s -> q <= fold_left Z.max s a.
Proof.
  induction s as [|x s IH]; intros a; cbn [fold_left].
  - split; [left; reflexivity|]. split; [lia | intros q []].
  - destruct (IH (Z.max a x)) as (Hin & Hle & Hall). split; [|split].
    + destruct Hin as [E | Hin]; [|right; right; exact Hin].
      rewrite E. destruct (Z.max_spec a x) as [[_ ->] | [_ ->]];
        [right; left; reflexivity | left; reflexivity].
    + lia.
    + intros q [<- | Hq]; [lia | apply Hall; exact Hq].
Qed.

Lemma series_max_spec (s : list Z) (p : Z) :
  series_max s = Some p -> In p s /\ forall q, In q s -> q <= p.
Proof.
  destruct s as [|a s]; cbn [series_max]; [discriminate|].
  intros H; inversion H; subst; clear H.
  destruct (fold_left_max_spec s a) as (Hin & Hle & Hall). split.
  - destruct Hin as [-> | Hin]; [left; reflexivity | right; exact Hin].
  - intros q [<- | Hq]; [exact Hle | apply Hall; exact Hq].
Qed.

Lemma suggested_action_of_top (grievances : list Grievance) (g : Grievance) :
  In g grievances ->
  exists top,
    In top grievances /\ Category top = Category g
    /\ (forall g', In g' grievances -> Category g' = Category g ->
                   Priority g' <= Priority top)
    /\ suggested_action_of grievances (Category g)
       = Some (suggest_action (Category g) (Priority top)).
Proof.
  intros Hin. unfold suggested_action_of, category_priorities.
  destruct (series_max
              (map Priority
                 (filter (fun g0 => PyStr.eqb (Category g0) (Category g))
                         grievances))) as [p|] eqn:E.
  - apply series_max_spec in E as [Hp Hmax].
    apply in_map_iff in Hp as (top & <- & Htop).
    apply filter_In in Htop as [Htop Hcat]. apply eqb_eq in Hcat.
    exists top. repeat split; auto.
    intros g' Hg' Hc. apply Hmax. apply in_map. apply filter_In.
    split; [exact Hg' | apply eqb_eq; exact Hc].
  - exfalso.
    assert (In (Priority g)
              (map Priority
                 (filter (fun g0 => PyStr.eqb (Category g0) (Category g))
                         grievances))) as Hg.
    { apply in_map. apply filter_In. split; [exact Hin | apply eqb_refl]. }
    destruct (map Priority _); [destruct Hg | discriminate E].
Qed.

(** X15. Every row the dashboard shows passes the two filters, and its
    suggested action is computed from the highest priority among all the
    records of its category in the collection, those the filters hide
    included. *)
Theorem dashboard_rows (status_filter : pystr) (cat_filter : list pystr)
  (grievances : list Grievance) (g : Grievance) (a : option pystr) :
  In (g, a) (dashboard status_filter cat_filter grievances) ->
  In g grievances
  /\ (status_filter = py "All" \/ Status g = status_filter)
  /\ (cat_filter = [] \/ In (Category g) cat_filter)
  /\ exists top,
       In top grievances /\ Category top = Category g
       /\ (forall g', In g' grievances -> Category g' = Category g ->
                      Priority g' <= Priority top)
       /\ a = Some (suggest_action (Category g) (Priority top)).
Proof.
  unfold dashboard. intros H.
  assert (In (g, a)
            (map (fun g => (g, suggested_action_of grievances (Category g)))
                 grievances)
          /\ (status_filter = py "All" \/ Status g = status_filter)
          /\ (cat_filter = [] \/ In (Category g) cat_filter))
    as (Hrow & Hs & Hc).
  { destruct cat_filter as [|c cf].
    - destruct (PyStr.eqb status_filter (py "All")) eqn:Ea.
      + apply eqb_eq in Ea. auto.
      + apply filter_In in H as [H Hst]. cbn [fst] in Hst.
        apply eqb_eq in Hst. auto.
    - apply filter_In in H as [H Hcat]. cbn [fst] in Hcat.
      apply existsb_exists in Hcat as (x & Hx & Ex). apply eqb_eq in Ex.
      subst x.
      destruct (PyStr.eqb status_filter (py "All")) eqn:Ea.
      + apply eqb_eq in Ea. auto.
      + apply filter_In in H as [H Hst]. cbn [fst] in Hst.
        apply eqb_eq in Hst. auto. }
  apply in_map_iff in Hrow as (g0 & E & Hin). inversion E; subst; clear E.
  split; [exact Hin|]. split; [exact Hs|]. split; [exact Hc|].
  apply suggested_action_of_top. exact Hin.
Qed.

(** ** The extension of an uploaded document *)

Lemma split_on_last (sep : N) (s : pystr) :
  exists pieces piece,
    split_on sep s = pieces ++ [piece]
    /\ ~ In sep piece
    /\ (pieces = [] -> s = piece)
    /\ (pieces <> [] -> exists stem, s = stem ++ sep :: piece).
Proof.
  induction s as [|c s (pieces & piece & E & Hno & Hone & Hmore)].
  - exists [], []. cbn. repeat split; auto. intros H; contradiction.
  - cbn [split_on]. destruct (N.eqb_spec c sep) as [-> | Hc].
    + exists ([] :: pieces), piece. rewrite E. split; [reflexivity|].
      split; [exact Hno|]. split; [discriminate|]. intros _.
      destruct pieces as [|q pieces].
      * exists []. rewrite (Hone eq_refl). reflexivity.
      * destruct Hmore as [stem ->]; [discriminate|].
        exists (sep :: stem). reflexivity.
    + rewrite E. destruct pieces as [|q pieces]; cbn [app].
      * exists [], (c :: piece). split; [reflexivity|]. split.
        -- intros [H | H]; [congruence | contradiction].
        -- split; [intros _; rewrite (Hone eq_refl); reflexivity|].
           intros H; contradiction.
      * exists ((c :: q) :: pieces), piece. split; [reflexivity|].
        split; [exact Hno|]. split; [discriminate|]. intros _.
        destruct Hmore as [stem ->]; [discriminate|].
        exists (c :: stem). reflexivity.
Qed.

(** X16. The extension taken from an uploaded document's name holds no dot;
    it is the whole name when the name has no dot, and otherwise what
    follows the last dot of the name. *)
Theorem doc_ext_spec (filename : pystr) :
  ~ In 46%N (doc_ext filename)
  /\ (~ In 46%N filename -> doc_ext filename = filename)
  /\ (In 46%N filename ->
      exists stem, filename = stem ++ 46%N :: doc_ext filename).
Proof.
  unfold doc_ext.
  destruct (split_on_last 46 filename)
    as (pieces & piece & -> & Hno & Hone & Hmore).
  rewrite last_last. split; [exact Hno|]. split.
  - intros Hdot. destruct pieces as [|q pieces]; [symmetry; auto|].
    destruct Hmore as [stem E]; [discriminate|].
    exfalso. apply Hdot. rewrite E. apply in_or_app. right. left. reflexivity.
  - intros Hdot. destruct pieces as [|q pieces]; [|apply Hmore; discriminate].
    rewrite (Hone eq_refl) in Hdot. contradiction.
Qed.

(** ** The saved document *)

Lemma ascii_hex_char (d : N) : (d < 16)%N -> ascii_char (hex_char d) = true.
Proof.
  intros H.
  assert (d = 0 \/ d = 1 \/ d = 2 \/ d = 3 \/ d = 4 \/ d = 5 \/ d = 6
          \/ d = 7 \/ d = 8 \/ d = 9 \/ d = 10 \/ d = 11 \/ d = 12
          \/ d = 13 \/ d = 14 \/ d = 15)%N as Hd by lia.
  repeat (destruct Hd as [-> | Hd]; [reflexivity|]). subst. reflexivity.
Qed.

Lemma ascii_u_escape (n : N) :
  (n < 65536)%N -> forallb ascii_char (u_escape n) = true.
Proof.
  intros H. unfold u_escape. cbn [forallb].
  rewrite !ascii_hex_char
    by (try (apply N.mod_lt; lia); apply N.Div0.div_lt_upper_bound; lia).
  reflexivity.
Qed.

Lemma ascii_escape_char (c : N) :
  scalar_value c = true -> forallb ascii_char (escape_char c) = true.
Proof.
  intros Hc. unfold escape_char.
  repeat match goal with
         | |- context [if N.eqb c ?k then _ else _] =>
             destruct (N.eqb c k); [reflexivity|]
         end.
  destruct (N.leb 32 c && N.leb c 126)%bool eqn:Eprint.
  - cbn [forallb]. unfold ascii_char. rewrite Eprint, orb_true_r. reflexivity.
  - destruct (N.ltb_spec c 65536) as [Hbmp | Hbig].
    + apply ascii_u_escape. exact Hbmp.
    + assert (65536 <= c < 1114112)%N as Hrange.
      { split; [exact Hbig|]. unfold scalar_value in Hc.
        apply orb_true_iff in Hc as [Hc | Hc].
        - apply N.ltb_lt in Hc. lia.
        - apply andb_true_iff in Hc as [_ Hc]. apply N.ltb_lt in Hc.
          exact Hc. }
      destruct (surrogates c Hrange) as (E1 & E2 & _).
      cbv zeta. rewrite forallb_app.
      pose proof (N.Div0.div_lt_upper_bound (c - 65536) 1024 1024).
      pose proof (N.mod_lt (c - 65536) 1024).
      rewrite !ascii_u_escape by (rewrite ?E1, ?E2; lia). reflexivity.
Qed.

Lemma ascii_encode_basestring_ascii (s : pystr) :
  text s = true -> forallb ascii_char (encode_basestring_ascii s) = true.
Proof.
  intros Hs. unfold encode_basestring_ascii.
  assert (forallb ascii_char (flat_map escape_char s) = true) as Hbody.
  { unfold text in Hs. induction s as [|c s IH]; [reflexivity|].
    cbn [forallb flat_map] in *. apply andb_true_iff in Hs as [Hc Hs].
    rewrite forallb_app, (ascii_escape_char c Hc), (IH Hs). reflexivity. }
  rewrite !forallb_app, Hbody. reflexivity.
Qed.

Lemma ascii_int_repr (z : Z) : forallb ascii_char (int_repr z) = true.
Proof.
  assert (forall n, forallb ascii_char (digits n) = true) as Hd.
  { intros n. destruct (digits_spec n) as (d & ds & -> & Hall & _).
    apply forallb_forall. intros c Hc. unfold all_digits in Hall.
    rewrite Forall_forall in Hall. apply Hall in Hc.
    apply is_digit_range in Hc. unfold ascii_char.
    apply orb_true_iff. right. apply andb_true_iff.
    split; apply N.leb_le; lia. }
  destruct z as [|p|p]; cbn [int_repr forallb]; rewrite ?Hd; reflexivity.
Qed.

Lemma ascii_newline_indent (indent level : nat) :
  forallb ascii_char (newline_indent indent level) = true.
Proof.
  unfold newline_indent. cbn [forallb]. change (ascii_char 10) with true.
  cbn [andb]. induction (indent * level)%nat as [|n IH]; [reflexivity|].
  cbn [repeat forallb]. rewrite IH. reflexivity.
Qed.

Lemma ascii_iterencode (indent : nat) (o : json) :
  plain o = true ->
  forall level, forallb ascii_char (iterencode indent o level) = true.
Proof.
  induction o as [ | b | z | lit | s | l IHl | items IHi] using json_induction;
    intros Hp level.
  - reflexivity.
  - destruct b; reflexivity.
  - apply ascii_int_repr.
  - discriminate Hp.
  - apply ascii_encode_basestring_ascii. exact Hp.
  - destruct l as [|value lst]; [reflexivity|].
    cbn [plain forallb] in Hp. apply andb_true_iff in Hp as [Hpv Hpl].
    pose proof (Forall_inv IHl Hpv (S level)) as Hv.
    apply Forall_inv_tail in IHl.
    assert (forallb ascii_char
              (flat_map
                 (fun value =>
                    [44%N] ++ newline_indent indent (S level)
                    ++ iterencode indent value (S level)) lst) = true)
      as Hbody.
    { clear Hv Hpv. induction lst as [|v lst IH]; [reflexivity|].
      cbn [forallb] in Hpl. apply andb_true_iff in Hpl as [Hpv Hpl].
      cbn [flat_map]. rewrite !forallb_app, ascii_newline_indent.
      rewrite (Forall_inv IHl Hpv), (IH (Forall_inv_tail IHl) Hpl).
      reflexivity. }
    cbn [iterencode].
    rewrite !forallb_app, !ascii_newline_indent, Hv, Hbody. reflexivity.
  - destruct items as [|[key value] dct]; [reflexivity|].
    cbn [plain forallb map fst snd] in Hp.
    apply andb_true_iff in Hp as [Hp _].
    apply andb_true_iff in Hp as [Hp Hpd].
    apply andb_true_iff in Hp as [Hk Hpv].
    pose proof (Forall_inv IHi Hpv (S level)) as Hv. cbn [snd] in Hv.
    apply Forall_inv_tail in IHi.
    assert (forallb ascii_char
              (flat_map
                 (fun item =>
                    [44%N] ++ newline_indent indent (S level)
                    ++ encode_basestring_ascii (fst item) ++ [58; 32]%N
                    ++ iterencode indent (snd item) (S level)) dct) = true)
      as Hbody.
    { clear Hv Hpv Hk. induction dct as [|item dct IH]; [reflexivity|].
      cbn [forallb] in Hpd. apply andb_true_iff in Hpd as [Hpi Hpd].
      apply andb_true_iff in Hpi as [Hki Hpi].
      cbn [flat_map]. rewrite !forallb_app, ascii_newline_indent.
      rewrite (ascii_encode_basestring_ascii _ Hki).
      rewrite (Forall_inv IHi Hpi), (IH (Forall_inv_tail IHi) Hpd).
      reflexivity. }
    cbn [iterencode].
    rewrite !forallb_app, !ascii_newline_indent, Hv, Hbody.
    rewrite (ascii_encode_basestring_ascii key Hk). reflexivity.
Qed.

(** X17. The document [save_grievances] writes for a collection of text
    records holds only line feeds and printable ASCII characters, whatever
    characters the records hold. *)
Theorem save_grievances_ascii (grievances : list Grievance)
  (fs : filesystem) :
  forallb text_record grievances = true ->
  exists doc,
    save_grievances (json_of_grievances grievances) fs = Some doc
    /\ forallb ascii_char doc = true.
Proof.
  intros H. eexists. split; [reflexivity|].
  apply ascii_iterencode. apply plain_json_of_grievances. exact H.
Qed.

Lemma map_JStr_injective (a b : list pystr) :
  map JStr a = map JStr b -> a = b.
Proof.
  revert b. induction a as [|x a IH]; intros [|y b] H; try discriminate H.
  - reflexivity.
  - cbn [map] in H. inversion H; subst. f_equal. apply IH. assumption.
Qed.

Lemma json_of_path_injective (p q : option pystr) :
  json_of_path p = json_of_path q -> p = q.
Proof.
  destruct p, q; cbn [json_of_path]; intros H; inversion H; reflexivity.
Qed.

Lemma json_of_grievance_injective (g1 g2 : Grievance) :
  json_of_grievance g1 = json_of_grievance g2 -> g1 = g2.
Proof.
  destruct g1, g2. unfold json_of_grievance. cbn. intros H.
  inversion H.
  repeat match goal with
         | E : map JStr _ = map JStr _ |- _ =>
             apply map_JStr_injective in E
         | E : json_of_path _ = json_of_path _ |- _ =>
             apply json_of_path_injective in E
         end.
  subst. reflexivity.
Qed.

(** X18. Saving loses nothing: two collections of text records that are
    written as the same document are the same collection. *)
Theorem save_grievances_injective (grievances1 grievances2 : list Grievance)
  (fs1 fs2 : filesystem) :
  forallb text_record grievances1 = true ->
  forallb text_record grievances2 = true ->
  save_grievances (json_of_grievances grievances1) fs1
  = save_grievances (json_of_grievances grievances2) fs2 ->
  grievances1 = grievances2.
Proof.
  intros H1 H2 E.
  pose proof (save_load_records grievances1 fs1 H1) as L1.
  pose proof (save_load_records grievances2 fs2 H2) as L2.
  rewrite E, L2 in L1.
  assert (map json_of_grievance grievances1
          = map json_of_grievance grievances2) as Hj.
  { unfold json_of_grievances in L1.
    apply (f_equal (fun r => match r with
                             | Ok (JList l) => l
                             | _ => []
                             end)) in L1.
    symmetry. exact L1. }
  clear - Hj. revert grievances2 Hj.
  induction grievances1 as [|g1 gs1 IH]; intros [|g2 gs2] Hj;
    try discriminate Hj; [reflexivity|].
  cbn [map] in Hj.
  pose proof (f_equal (fun l => hd JNull l) Hj) as Hg.
  pose proof (f_equal (fun l => tl l) Hj) as Hrest. cbn [hd tl] in Hg, Hrest.
  apply json_of_grievance_injective in Hg. subst g2. f_equal.
  apply IH. exact Hrest.
Qed.

(** ** Runs that never raise *)

Lemma update_loop_dates (today : date) (selected_id new_status : pystr)
  (grievances grievances' : list Grievance) :
  update_loop today selected_id new_status grievances = Ok grievances' ->
  Forall (fun g => strptime_ymd (Date g) <> None) grievances ->
  Forall (fun g => strptime_ymd (Date g) <> None) grievances'.
Proof.
  intros Hu Hd. destruct (update_loop_nth _ _ _ _ _ Hu) as [Hl Hn].
  apply Forall_forall. intros g' Hin.
  apply In_nth_error in Hin as [i Hi].
  assert (i < List.length grievances)%nat as Hlt
    by (rewrite <- Hl; apply nth_error_Some; congruence).
  destruct (nth_error grievances i) as [g|] eqn:Eg;
    [|apply nth_error_None in Eg; lia].
  destruct (Hn i g Eg) as (g1 & Hg1 & Hother & Hsel).
  assert (g1 = g') by congruence. subst g1.
  rewrite Forall_forall in Hd. pose proof (Hd g (nth_error_In _ _ Eg)) as Hg.
  destruct (PyStr.eqb (ID g) selected_id) eqn:Eid.
  - apply eqb_eq in Eid. destruct (Hsel Eid) as [b Hb].
    destruct (auto_escalate_Escalated _ _ _ _ Hb)
      as [[_ ->] | (_ & -> & _)]; exact Hg.
  - apply eqb_neq in Eid. rewrite (Hother Eid). exact Hg.
Qed.

Lemma perform_dates (today : date) (a : action)
  (grievances : list Grievance) (fs : filesystem) :
  action_ok a = true -> uploads_written a = true ->
  Forall (fun g => strptime_ymd (Date g) <> None) grievances ->
  exists grievances' fs',
    perform today a (grievances, fs) = Ok (grievances', fs')
    /\ Forall (fun g => strptime_ymd (Date g) <> None) grievances'.
Proof.
  destruct a as [gid name gdate gtext uploads | sel new | name | name fb];
    cbn [perform action_ok uploads_written]; intros Hok Hup Hd.
  - unfold submit_grievance.
    destruct uploads as [[img doc]|e]; [|discriminate Hup].
    destruct name as [|c name]; [|destruct gtext as [|c' gtext]];
      try (eexists; eexists; split; [reflexivity | exact Hd]).
    eexists; eexists; split; [reflexivity|].
    apply Forall_app. split; [exact Hd|]. constructor; [|constructor].
    cbn [new_grievance Date].
    repeat (apply andb_true_iff in Hok as [Hok ?]).
    rewrite strptime_isoformat by assumption. discriminate.
  - unfold update_status.
    destruct (update_loop_ok today sel new grievances) as [gs' Hu].
    { intros g Hin _. rewrite Forall_forall in Hd. apply Hd. exact Hin. }
    rewrite Hu. eexists; eexists; split; [reflexivity|].
    apply (update_loop_dates _ _ _ _ _ Hu Hd).
  - eexists; eexists; split; [reflexivity | exact Hd].
  - eexists; eexists; split; [reflexivity | exact Hd].
Qed.

(** X19. Starting from an empty collection, no run of actions on text
    inputs with valid dates in which the uploaded files of every submission
    were written raises: every date the program stores is one
    [auto_escalate] can read. *)
Theorem perform_all_never_raises (run : list (date * action)) :
  forallb (fun step => action_ok (snd step) && uploads_written (snd step))
          run = true ->
  exists grievances fs,
    perform_all run ([], None) = Ok (grievances, fs)
    /\ Forall (fun g => strptime_ymd (Date g) <> None) grievances.
Proof.
  intros Hok.
  enough (forall run gs0 fs0,
             forallb (fun step =>
                        action_ok (snd step) && uploads_written (snd step))
                     run = true ->
             Forall (fun g => strptime_ymd (Date g) <> None) gs0 ->
             exists grievances fs,
               perform_all run (gs0, fs0) = Ok (grievances, fs)
               /\ Forall (fun g => strptime_ymd (Date g) <> None) grievances)
    as Hgen.
  { apply (Hgen run [] None Hok). constructor. }
  clear. intros run.
  induction run as [|[today a] run IH]; intros gs0 fs0 Hok Hd;
    cbn [perform_all].
  - exists gs0, fs0. split; [reflexivity | exact Hd].
  - cbn [forallb snd] in Hok. apply andb_true_iff in Hok as [Ha Hok].
    apply andb_true_iff in Ha as [Ha Hup].
    destruct (perform_dates today a gs0 fs0 Ha Hup Hd)
      as (mid & fs1 & -> & Hd1).
    apply (IH mid fs1 Hok Hd1).
Qed.

End Further.

(** ** Examples of the further properties

    On ASCII inputs again, computed with [ascii_only]. *)

Section FurtherExamples.

#[local] Existing Instance ascii_only.

Lemma extract_keywords_edges_witness :
  extract_keywords (py "   ") = []
  /\ extract_keywords (py "Pothole") = [py "pothole"]
  /\ extract_keywords (py "Tap") = [].
Proof.
  destruct (extract_keywords_edges (py "   ")) as [Hblank _].
  destruct (extract_keywords_edges (py "Pothole")) as [_ Hword].
  destruct (extract_keywords_edges (py "Tap")) as [_ Hshort].
  split; [|split].
  - apply Hblank. vm_compute. reflexivity.
  - rewrite Hword by (vm_compute; reflexivity). vm_compute. reflexivity.
  - rewrite Hshort by (vm_compute; reflexivity). vm_compute. reflexivity.
Defined.


Lemma grievance_score_tiers_witness :
  90 <= grievance_score (py "Fire in the market")
  /\ 70 <= grievance_score (py "a delayed reply")
  /\ grievance_score (py "a delayed reply") = 70.
Proof.
  destruct (grievance_score_tiers (py "Fire in the market")) as [Hu _].
  destruct (grievance_score_tiers (py "a delayed reply")) as (_ & Hm & _).
  split; [|split].
  - apply Hu. vm_compute. reflexivity.
  - apply Hm. vm_compute. reflexivity.
  - vm_compute. reflexivity.
Defined.

Lemma auto_escalate_submitted_witness :
  valid (mkdate 2024 2 29) = true
  /\ auto_escalate (mkdate 2024 3 3)
       (new_grievance (py "ab12cd34") (py "Asha") (mkdate 2024 2 29)
                      (py "no water") None None)
     = Ok (false,
           new_grievance (py "ab12cd34") (py "Asha") (mkdate 2024 2 29)
                         (py "no water") None None).
Proof.
  split; [reflexivity|].
  exact (auto_escalate_submitted (mkdate 2024 3 3) (py "ab12cd34")
           (py "Asha") (mkdate 2024 2 29) (py "no water") None None eq_refl).
Defined.

Lemma auto_escalate_once_witness :
  auto_escalate (mkdate 2024 3 14) sample_grievance
  = Ok (true, escalated_record sample_grievance)
  /\ auto_escalate (mkdate 2030 1 1) (escalated_record sample_grievance)
     = Ok (false, escalated_record sample_grievance).
Proof.
  assert (auto_escalate (mkdate 2024 3 14) sample_grievance
          = Ok (true, escalated_record sample_grievance)) as H
    by (vm_compute; reflexivity).
  split; [exact H|].
  exact (auto_escalate_once (mkdate 2024 3 14) (mkdate 2030 1 1) _ _ H).
Defined.

Lemma update_status_absent_witness :
  update_status (mkdate 2024 3 14) (py "00000000") (py "Resolved")
                [sample_grievance] None
  = Ok ([sample_grievance],
        Some (dumps 4 (json_of_grievances [sample_grievance]))).
Proof.
  apply (update_status_absent (mkdate 2024 3 14) (py "00000000")
           (py "Resolved") [sample_grievance] None).
  intros g [<- | []]. vm_compute. discriminate.
Defined.

Lemma update_status_idempotent_witness :
  update_status (mkdate 2024 3 14) (py "ab12cd34") (py "Pending")
    [escalated_record sample_grievance]
    (Some (dumps 4 (json_of_grievances [escalated_record sample_grievance])))
  = Ok ([escalated_record sample_grievance],
        Some (dumps 4
                (json_of_grievances [escalated_record sample_grievance]))).
Proof.
  apply (update_status_idempotent (mkdate 2024 3 14) (py "ab12cd34")
           (py "Pending") [sample_grievance] _ None).
  vm_compute. reflexivity.
Defined.

Lemma perform_all_same_submission_witness :
  exists g',
    nth_error
      (fst (match perform_all sample_run ([], None) with
            | Ok state => state
            | Raise _ => ([], None)
            end)) 0
    = Some g'
    /\ same_submission
         (new_grievance (py "ab12cd34") (py "Asha") (mkdate 2024 3 9)
                        (py "urgent water leak not resolved again") None None)
         g'.
Proof.
  destruct (perform_all sample_run ([], None)) as [[gs fs]|e] eqn:E;
    [|vm_compute in E; discriminate E].
  assert (perform_all (tl sample_run)
            ([new_grievance (py "ab12cd34") (py "Asha") (mkdate 2024 3 9)
                (py "urgent water leak not resolved again") None None],
             Some (dumps 4 (json_of_grievances
               [new_grievance (py "ab12cd34") (py "Asha") (mkdate 2024 3 9)
                  (py "urgent water leak not resolved again") None None])))
          = Ok (gs, fs)) as E' by exact E.
  destruct (perform_all_same_submission _ _ _ _ _ E') as [_ H].
  exact (H 0%nat _ eq_refl).
Defined.

Lemma perform_all_stored_witness :
  forallb (fun step => action_ok (snd step)) sample_run = true
  /\ match perform_all sample_run ([], None) with
     | Ok (grievances, fs) =>
         load_grievances fs = Ok (json_of_grievances grievances)
     | Raise _ => False
     end.
Proof.
  split; [vm_compute; reflexivity|].
  destruct (perform_all sample_run ([], None)) as [[gs fs]|e] eqn:E;
    [|vm_compute in E; discriminate E].
  apply (perform_all_stored sample_run gs fs); [vm_compute; reflexivity|].
  exact E.
Defined.

Lemma track_records_submitted_witness :
  exists grievances' fs',
    submit_grievance (py "ab12cd34") (py "Asha") (mkdate 2024 3 9)
                     (py "no water") (Ok (None, None)) [sample_grievance] None
    = Ok (grievances', fs')
    /\ In (new_grievance (py "ab12cd34") (py "Asha") (mkdate 2024 3 9)
                         (py "no water") None None)
          (track_records (py "ASHA") grievances').
Proof.
  apply (track_records_submitted (py "ab12cd34") (py "Asha")
           (mkdate 2024 3 9) (py "no water") None None [sample_grievance]
           None (py "ASHA")).
  - discriminate.
  - discriminate.
  - vm_compute. reflexivity.
Defined.

Lemma dashboard_rows_witness :
  let quiet := new_grievance (py "ef56ab78") (py "Ravi") (mkdate 2024 3 10)
                             (py "tap drips") None None in
  In (quiet, Some (py "Forward to Jal Nigam for urgent inspection"))
     (dashboard (py "Pending") []
                [escalated_record sample_grievance; quiet])
  /\ exists top,
       In top [escalated_record sample_grievance; quiet]
       /\ Some (py "Forward to Jal Nigam for urgent inspection")
          = Some (suggest_action (Category quiet) (Priority top)).
Proof.
  intros quiet.
  assert (In (quiet, Some (py "Forward to Jal Nigam for urgent inspection"))
             (dashboard (py "Pending") []
                        [escalated_record sample_grievance; quiet])) as Hrow
    by (vm_compute; left; reflexivity).
  split; [exact Hrow|].
  destruct (dashboard_rows _ _ _ _ _ Hrow) as (_ & _ & _ & top & Ht & _ & _ & E).
  exists top. split; [exact Ht | exact E].
Defined.

Lemma doc_ext_spec_witness :
  doc_ext (py "bill.2024.pdf") = py "pdf"
  /\ doc_ext (py "README") = py "README"
  /\ exists stem, py "bill.2024.pdf" = stem ++ 46%N :: doc_ext (py "bill.2024.pdf").
Proof.
  split; [vm_compute; reflexivity|].
  destruct (doc_ext_spec (py "README")) as (_ & Hnodot & _).
  destruct (doc_ext_spec (py "bill.2024.pdf")) as (_ & _ & Hdot).
  split.
  - apply Hnodot. vm_compute. intros H.
    repeat (destruct H as [H | H]; [discriminate H|]). exact H.
  - apply Hdot. vm_compute. tauto.
Defined.

Lemma save_grievances_ascii_witness :
  exists doc,
    save_grievances
      (json_of_grievances
         [new_grievance (py "ab12cd34") [2310; 2358; 2366]%N
                        (mkdate 2024 3 9) [128167; 32; 2346; 2366]%N
                        None None]) None
    = Some doc
    /\ forallb ascii_char doc = true.
Proof.
  apply (save_grievances_ascii
           [new_grievance (py "ab12cd34") [2310; 2358; 2366]%N
                          (mkdate 2024 3 9) [128167; 32; 2346; 2366]%N
                          None None] None).
  vm_compute. reflexivity.
Defined.

Lemma save_grievances_injective_witness :
  save_grievances (json_of_grievances [sample_grievance]) None
  = save_grievances (json_of_grievances [sample_grievance])
                    (Some (py "[]"))
  /\ [sample_grievance] = [sample_grievance].
Proof.
  split; [reflexivity|].
  apply (save_grievances_injective [sample_grievance] [sample_grievance]
                                   None (Some (py "[]")));
    vm_compute; reflexivity.
Defined.

Lemma perform_all_never_raises_witness :
  exists grievances fs,
    perform_all sample_run ([], None) = Ok (grievances, fs)
    /\ Forall (fun g => strptime_ymd (Date g) <> None) grievances.
Proof.
  apply (perform_all_never_raises sample_run). vm_compute. reflexivity.
Defined.

End FurtherExamples.
